(** * MegEngine imperative Python front-end: a shallow embedding

    The development follows the Python sources
      - [megengine/functional/loss.py]      (module [functional])
      - [megengine/tensor.py]               (module [tensor])
      - [megengine/random/distribution.py]  (module [random])
    and the graph bridge exercised by [test/unit/core/test_megbrain_graph.py]
    (module [megbrain_graph]).

    Python values live in Rocq as follows: a Python [float] is an IEEE
    binary64 number ([spec_float] at precision 53), tensor elements are
    reached through the kernel interface [ElemOps], a [dict] is a [gmap],
    objects with identity live in a store indexed by their [id], and a call
    that may raise returns a [result]. *)

From Stdlib Require Import ZArith List String Bool Lia.
From Stdlib Require Import Reals Lra.
From Stdlib Require Import SpecFloat.
From stdpp Require Import base option list gmap strings.

Import ListNotations.
Local Open Scope string_scope.

(** ** Python runtime: exceptions and results *)

Inductive exn : Type :=
| AttributeError (msg : string)
| AssertionError (msg : string)
| KeyError (key : string)
| TypeError (msg : string)
| ShapeMismatch
| InputNotReady
| OutputNotReady
| DisconnectedOutput
| InvalidStateError.

Inductive result (A : Type) : Type :=
| Ok (a : A)
| Raise (e : exn).
Arguments Ok {A} a.
Arguments Raise {A} e.

Definition rbind {A B : Type} (r : result A) (k : A -> result B) : result B :=
  match r with
  | Ok a => k a
  | Raise e => Raise e
  end.

Declare Scope py_scope.
Delimit Scope py_scope with py.
Notation "'let*' x ':=' c 'in' k" := (rbind c (fun x => k))
  (at level 10, x name, c at level 100, k at level 200) : py_scope.

(** ** Python floats (binary64) *)

Definition pyfloat : Type := spec_float.

Definition float_of_dyadic (m e : Z) : pyfloat := binary_normalize 53 1024 m e false.
Definition float_of_Z (z : Z) : pyfloat := float_of_dyadic z 0.
Arguments float_of_dyadic : simpl never.
Arguments float_of_Z : simpl never.
Definition py_lt (x y : pyfloat) : bool := SFltb x y.
Definition py_ge (x y : pyfloat) : bool := SFleb y x.
Definition py_sub (x y : pyfloat) : pyfloat := SFsub 53 1024 x y.

(** ** Elementwise kernels

    The native kernels are reached through [apply]; the Python code only
    relies on their calling contract, which is gathered in this interface. *)

Class ElemOps (E : Type) : Type := {
  e_add : E -> E -> E;        (* Elemwise(mode="add") *)
  e_sub : E -> E -> E;        (* Elemwise(mode="sub") *)
  e_mul : E -> E -> E;        (* Elemwise(mode="mul") *)
  e_true_div : E -> E -> E;   (* Elemwise(mode="true_div") *)
  e_pow : E -> E -> E;        (* Elemwise(mode="pow") *)
  e_abs : E -> E;             (* Elemwise(mode="abs") *)
  e_log : E -> E;             (* Elemwise(mode="log") *)
  e_of_float : pyfloat -> E;  (* a Python float converted to the tensor dtype *)
  e_of_int : Z -> E           (* a Python int converted to the tensor dtype *)
}.

(** *** Machine kernels: float32

    [logk] and [powk] stand for the transcendental kernels of the backend. *)

Definition f32 : Type := spec_float.

Definition f32_of_float (x : pyfloat) : f32 :=
  match x with
  | S754_finite s m e => binary_normalize 24 128 (cond_Zopp s (Zpos m)) e s
  | _ => x
  end.

Definition f32_of_Z (z : Z) : f32 := binary_normalize 24 128 z 0 false.

Definition f32_pow (powk : f32 -> f32 -> f32) (x y : f32) : f32 :=
  if SFeqb y (f32_of_Z 2) then SFmul 24 128 x x else powk x y.

Definition f32_ops (logk : f32 -> f32) (powk : f32 -> f32 -> f32) : ElemOps f32 := {|
  e_add := SFadd 24 128;
  e_sub := SFsub 24 128;
  e_mul := SFmul 24 128;
  e_true_div := SFdiv 24 128;
  e_pow := f32_pow powk;
  e_abs := SFabs;
  e_log := logk;
  e_of_float := f32_of_float;
  e_of_int := f32_of_Z
|}.

(** *** Ideal kernels: real arithmetic *)

Definition SF2R (x : spec_float) : R :=
  match x with
  | S754_finite s m e => IZR (cond_Zopp s (Zpos m)) * powerRZ 2 e
  | _ => 0%R
  end.

Definition R_pow (x y : R) : R :=
  if Req_dec_T (frac_part y) 0 then powerRZ x (Int_part y) else Rpower x y.

Definition real_ops : ElemOps R := {|
  e_add := Rplus;
  e_sub := Rminus;
  e_mul := Rmult;
  e_true_div := Rdiv;
  e_pow := R_pow;
  e_abs := Rabs;
  e_log := ln;
  e_of_float := SF2R;
  e_of_int := IZR
|}.

(** * [megengine/functional/loss.py] *)

Module functional.
Section Losses.
Context {E : Type} {ops : ElemOps E}.

Record Tensor : Type := mkTensor { shape : list nat; data : list E }.

Definition numel (s : list nat) : nat := fold_right Nat.mul 1%nat s.

(** [convert_inputs]: Python scalars become one-element tensors. *)
Inductive operand : Type :=
| OfTensor (t : Tensor)
| OfFloat (x : pyfloat)
| OfInt (z : Z).

Definition as_tensor (o : operand) : Tensor :=
  match o with
  | OfTensor t => t
  | OfFloat x => mkTensor [1%nat] [e_of_float x]
  | OfInt z => mkTensor [1%nat] [e_of_int z]
  end.

(** Broadcasting of the elementwise kernels (numpy rules, row-major data).
    Shapes are compared from the last axis. *)
Fixpoint bcast_rev (ra rb : list nat) : option (list nat) :=
  match ra, rb with
  | [], _ => Some rb
  | _, [] => Some ra
  | a :: ra', b :: rb' =>
      match bcast_rev ra' rb' with
      | Some r =>
          if Nat.eqb a b then Some (a :: r)
          else if Nat.eqb a 1 then Some (b :: r)
          else if Nat.eqb b 1 then Some (a :: r)
          else None
      | None => None
      end
  end.

Definition bcast_shape (sa sb : list nat) : option (list nat) :=
  match bcast_rev (rev sa) (rev sb) with
  | Some r => Some (rev r)
  | None => None
  end.

Definition pad_shape (n : nat) (s : list nat) : list nat :=
  repeat 1%nat (n - length s) ++ s.

Fixpoint chunks (n k : nat) (l : list E) : list (list E) :=
  match k with
  | O => []
  | S k' => firstn n l :: chunks n k' (skipn n l)
  end.

Fixpoint expand (s t : list nat) (d : list E) : list E :=
  match s, t with
  | a :: s', b :: t' =>
      if Nat.eqb a b
      then concat (map (expand s' t') (chunks (numel s') a d))
      else concat (repeat (expand s' t' d) b)
  | _, _ => d
  end.

Definition broadcast_to (t : list nat) (x : Tensor) : list E :=
  expand (pad_shape (length t) (shape x)) t (data x).

Fixpoint zip_with_k (f : E -> E -> E) (l1 l2 : list E) : list E :=
  match l1, l2 with
  | x :: l1', y :: l2' => f x y :: zip_with_k f l1' l2'
  | _, _ => []
  end.

Definition elemwise2 (f : E -> E -> E) (a b : operand) : result Tensor :=
  let ta := as_tensor a in
  let tb := as_tensor b in
  match bcast_shape (shape ta) (shape tb) with
  | Some s => Ok (mkTensor s (zip_with_k f (broadcast_to s ta) (broadcast_to s tb)))
  | None => Raise ShapeMismatch
  end.

Definition elemwise1 (f : E -> E) (a : Tensor) : Tensor :=
  mkTensor (shape a) (map f (data a)).

Definition sub := elemwise2 e_sub.
Definition add := elemwise2 e_add.
Definition mul := elemwise2 e_mul.
Definition pow := elemwise2 e_pow.
Definition abs := elemwise1 e_abs.
Definition log := elemwise1 e_log.

(** [Tensor.mean()] with [axis=None]: the data is flattened and reduced by
    [Reduce(mode="MEAN", axis=0)], which yields a tensor of shape [(1,)]. *)
Definition reduce_sum (d : list E) : E := fold_left e_add d (e_of_int 0).

Definition mean (t : Tensor) : Tensor :=
  mkTensor [1%nat]
    [e_true_div (reduce_sum (data t)) (e_of_int (Z.of_nat (length (data t))))].

Local Open Scope py_scope.

(** [diff = pred - label; return abs(diff).mean()] *)
Definition l1_loss (pred label : Tensor) : result Tensor :=
  let* diff := sub (OfTensor pred) (OfTensor label) in
  Ok (mean (abs diff)).

(** [diff = pred - label; return (diff ** 2).mean()] *)
Definition square_loss (pred label : Tensor) : result Tensor :=
  let* diff := sub (OfTensor pred) (OfTensor label) in
  let* sq := pow (OfTensor diff) (OfInt 2) in
  Ok (mean sq).

(** [return -1.0 * (label * log(pred) + (1.0 - label) * log(1 - pred)).mean()] *)
Definition binary_cross_entropy (pred label : Tensor) : result Tensor :=
  let* a := mul (OfTensor label) (OfTensor (log pred)) in
  let* one_minus_label := sub (OfFloat (float_of_Z 1)) (OfTensor label) in
  let* one_minus_pred := sub (OfInt 1) (OfTensor pred) in
  let* b := mul (OfTensor one_minus_label) (OfTensor (log one_minus_pred)) in
  let* s := add (OfTensor a) (OfTensor b) in
  mul (OfFloat (float_of_Z (-1))) (OfTensor (mean s)).

(** The docstrings' formula: [mean L] with [l_n] given per index. *)
Fixpoint sum_upto (l : nat -> E) (n : nat) : E :=
  match n with
  | O => e_of_int 0
  | S k => e_add (sum_upto l k) (l k)
  end.

Definition mean_upto (l : nat -> E) (n : nat) : E :=
  e_true_div (sum_upto l n) (e_of_int (Z.of_nat n)).

Definition item (t : Tensor) (n : nat) : E := nth n (data t) (e_of_int 0).

Definition well_shaped (t : Tensor) : Prop := length (data t) = numel (shape t).

(** The element a Python scalar operand is converted to. *)
Definition scalar_operand (o : operand) : option E :=
  match o with
  | OfTensor _ => None
  | OfFloat x => Some (e_of_float x)
  | OfInt z => Some (e_of_int z)
  end.

(** The summand of [binary_cross_entropy] at index [n]. *)
Definition bce_term (pred label : Tensor) (n : nat) : E :=
  e_add (e_mul (item label n) (e_log (item pred n)))
        (e_mul (e_sub (e_of_float (float_of_Z 1)) (item label n))
               (e_log (e_sub (e_of_int 1) (item pred n)))).

End Losses.
Arguments Tensor E : clear implicits.
Arguments operand E : clear implicits.
End functional.

(** A float32 vector built from integer data:
    [np.array(l).astype(np.float32)]. *)
Definition f32_vector (l : list Z) : functional.Tensor f32 :=
  functional.mkTensor [length l] (map f32_of_Z l).

(** The float32 number 0.5, and the float32 number -0.693147182..., which a
    log kernel accurate to the last place returns at 0.5. *)
Definition f32_half : f32 := f32_of_float (float_of_dyadic 1 (-1)).
Definition f32_ln_half : f32 := S754_finite true 11629080 (-24).

(** * The Python process: native collaborators, objects and global state *)

(** The native layer ([numpy], [_imperative_rt]) as the Python code sees it. *)
Class Native : Type := {
  ndarray : Type;                              (* numpy.ndarray *)
  np_dtype : Type;                             (* numpy.dtype *)
  CompNode : Type;                             (* _imperative_rt.CompNode *)
  nd_dtype : ndarray -> np_dtype;              (* a.dtype *)
  nd_shape : ndarray -> list nat;              (* a.shape *)
  astype : ndarray -> np_dtype -> ndarray;     (* a.astype(d) *)
  array_of_ints : list Z -> ndarray;           (* np.array(l) for a tuple of ints *)
  dtype_of_string : string -> np_dtype;        (* np.dtype(s) *)
  comp_node : string -> CompNode;              (* as_device(s).to_c() *)
  comp_node_str : CompNode -> string;          (* str(cn) *)
  nd_mul_int : ndarray -> Z -> ndarray;        (* Elemwise mul by a Python int *)
  nd_mul_float : pyfloat -> ndarray -> ndarray;  (* Elemwise mul, float on the left *)
  nd_add_float : pyfloat -> ndarray -> ndarray;  (* Elemwise add, float on the left *)
  uniform_rng : Z -> ndarray -> ndarray;       (* UniformRNG(seed) applied to a size tensor *)
  random_raw : nat -> Z                        (* the n-th raw draw of the seeded generator *)
}.

Definition addr : Type := nat.

(** [id(obj)]: the address of the object. *)
Definition py_id (a : addr) : Z := Z.of_nat a.

Inductive qval : Type :=
| QNone
| QStr (s : string)
| QNum (x : pyfloat).

Section Process.
Context {native : Native}.

(** Dynamically typed Python values. *)
Inductive pyval : Type :=
| VNone
| VStr (s : string)
| VInts (l : list Z)
| VArray (a : ndarray)
| VDType (d : np_dtype)
| VCompNode (cn : CompNode)
| VDict (q : gmap string qval)
| VRef (a : addr).

(** Objects with identity. *)
Inductive obj : Type :=
| RawTensor (value : ndarray) (device : CompNode)
| CoreTensor (_data : addr)
| TensorObj (__wrapped__ : option addr) (q_dict : option pyval).

Record World : Type := mkWorld {
  default_device : string;                      (* megengine.device: the default device *)
  dmap_callback : option (string -> string);    (* class attribute Tensor.dmap_callback *)
  rng : nat;                                    (* position of the seeded generator *)
  heap : gmap addr obj;
  next_id : addr
}.

Definition M (A : Type) : Type := World -> result A * World.

Definition ret {A : Type} (a : A) : M A := fun w => (Ok a, w).
Definition raise {A : Type} (e : exn) : M A := fun w => (Raise e, w).
Definition bind {A B : Type} (m : M A) (k : A -> M B) : M B :=
  fun w => match m w with
           | (Ok a, w') => k a w'
           | (Raise e, w') => (Raise e, w')
           end.

Definition alloc (o : obj) : M addr :=
  fun w => (Ok (next_id w),
            mkWorld (default_device w) (dmap_callback w) (rng w)
                    (<[next_id w := o]> (heap w)) (S (next_id w))).

Definition store (a : addr) (o : obj) : M unit :=
  fun w => (Ok tt,
            mkWorld (default_device w) (dmap_callback w) (rng w)
                    (<[a := o]> (heap w)) (next_id w)).

Definition load (a : addr) : M obj :=
  fun w => match heap w !! a with
           | Some o => (Ok o, w)
           | None => (Raise (TypeError "dangling reference"), w)
           end.
End Process.

Notation "x <- c ;; k" := (bind c (fun x => k))
  (at level 100, c at next level, right associativity) : py_scope.
Notation "c ;;; k" := (bind c (fun _ => k))
  (at level 100, right associativity) : py_scope.

(** * [megengine/tensor.py] *)

Module tensor.
Section Facade.
Context {native : Native}.
Local Open Scope py_scope.

(** Modelled from the spec: [megengine.device.get_default_device] is not
    among the sources; the spec describes a process-wide mutable default
    device behind a get/set pair. *)
Definition get_default_device : M string :=
  fun w => (Ok (default_device w), w).

(** Modelled from the spec: [megengine.device.set_default_device], the
    write side of that pair. *)
Definition set_default_device (d : string) : M unit :=
  fun w => (Ok tt, mkWorld d (dmap_callback w) (rng w) (heap w) (next_id w)).

(** Installing or clearing the class attribute [Tensor.dmap_callback]. *)
Definition set_dmap_callback (cb : option (string -> string)) : M unit :=
  fun w => (Ok tt, mkWorld (default_device w) cb (rng w) (heap w) (next_id w)).

(** Reading the class attribute [self.dmap_callback]. *)
Definition get_dmap_callback : M (option (string -> string)) :=
  fun w => (Ok (dmap_callback w), w).

(** The instance attribute [self.__wrapped__], read. *)
Definition get_wrapped (self : addr) : M addr :=
  o <- load self;;
  match o with
  | TensorObj (Some c) _ => ret c
  | _ => raise (AttributeError "__wrapped__")
  end.

(** [self.__wrapped__ = c] *)
Definition set_wrapped (self c : addr) : M unit :=
  o <- load self;;
  match o with
  | TensorObj _ q => store self (TensorObj (Some c) q)
  | _ => raise (AttributeError "__wrapped__")
  end.

(** The instance attribute [self.q_dict], read. *)
Definition get_q_dict (self : addr) : M pyval :=
  o <- load self;;
  match o with
  | TensorObj _ (Some q) => ret q
  | _ => raise (AttributeError "q_dict")
  end.

(** [self.q_dict = q] *)
Definition set_q_dict (self : addr) (q : pyval) : M unit :=
  o <- load self;;
  match o with
  | TensorObj c _ => store self (TensorObj c (Some q))
  | _ => raise (AttributeError "q_dict")
  end.

(** [{"mode": None, "scale": None, "zero_point": None}] *)
Definition default_q_dict : gmap string qval :=
  <["mode" := QNone]> (<["scale" := QNone]> (<["zero_point" := QNone]> ∅)).

(** Modelled from the spec: [as_device] of [core.tensor.raw_tensor] is not
    among the sources; a device is named by its string form or given as a
    [CompNode]. *)
Definition as_device (device : pyval) : M CompNode :=
  match device with
  | VStr s => ret (comp_node s)
  | VCompNode cn => ret cn
  | _ => raise (TypeError "device")
  end.

(** Modelled from the spec: the host data a raw tensor is built from. *)
Definition as_array (data : pyval) : M ndarray :=
  match data with
  | VArray a => ret a
  | VInts l => ret (array_of_ints l)
  | _ => raise (TypeError "data")
  end.

(** Modelled from the spec: the data converted to the requested dtype, or
    kept as it is when none is requested. *)
Definition with_dtype (dtype : pyval) (a : ndarray) : M ndarray :=
  match dtype with
  | VNone => ret a
  | VDType d => ret (astype a d)
  | VStr s => ret (astype a (dtype_of_string s))
  | _ => raise (TypeError "dtype")
  end.

(** Modelled from the spec: [as_raw_tensor] of [core.tensor.raw_tensor] is
    not among the sources.  A raw tensor is built from (data, dtype,
    device): the converted data becomes resident on the device, and the
    handle that the facade wraps refers to that resident data. *)
Definition as_raw_tensor (data dtype device : pyval) : M addr :=
  a <- as_array data;;
  a' <- with_dtype dtype a;;
  cn <- as_device device;;
  r <- alloc (RawTensor a' cn);;
  alloc (CoreTensor r).

(** Modelled from the spec: the base class [core.Tensor] is not among the
    sources.  Its constructor wraps an existing handle as it is (this is
    the path [detach] takes) and otherwise builds a raw tensor from
    (data, dtype, device). *)
Definition TensorWrapper_init (self : addr) (data dtype device : pyval) : M unit :=
  match data with
  | VRef a =>
      o <- load a;;
      match o with
      | TensorObj (Some c) _ => set_wrapped self c
      | CoreTensor _ => set_wrapped self a
      | _ => raise (TypeError "data")
      end
  | _ =>
      c <- as_raw_tensor data dtype device;;
      set_wrapped self c
  end.

(** Modelled from the spec: the base class is not among the sources; its
    properties read the resident data behind the wrapped handle. *)
Definition resident (self : addr) : M (ndarray * CompNode) :=
  c <- get_wrapped self;;
  oc <- load c;;
  match oc with
  | CoreTensor r =>
      o <- load r;;
      match o with
      | RawTensor v cn => ret (v, cn)
      | _ => raise (TypeError "_data")
      end
  | _ => raise (TypeError "__wrapped__")
  end.

(** Modelled from the spec: [self.numpy()], the materialized value. *)
Definition numpy (self : addr) : M ndarray :=
  p <- resident self;; ret (fst p).

(** Modelled from the spec: [self.device], where the data resides. *)
Definition device (self : addr) : M CompNode :=
  p <- resident self;; ret (snd p).

(** Modelled from the spec: [self.dtype], the dtype of the value. *)
Definition dtype (self : addr) : M np_dtype :=
  p <- resident self;; ret (nd_dtype (fst p)).

(** [def __init__(self, data, dtype=None, device=None)] *)
Definition __init__ (self : addr) (data dtype device : pyval) : M unit :=
  device <- match device with
            | VNone => d <- get_default_device;; ret (VStr d)
            | _ => ret device
            end;;
  set_q_dict self (VDict default_q_dict);;;
  TensorWrapper_init self data dtype device.

(** [object.__new__(Tensor)]: an instance with an empty [__dict__]. *)
Definition __new__ : M addr := alloc (TensorObj None None).

(** The call [Tensor(data, dtype, device)]. *)
Definition Tensor (data dtype device : pyval) : M addr :=
  self <- __new__;;
  __init__ self data dtype device;;;
  ret self.

(** Modelled from the spec: [_reset] of the base class is not among the
    sources.  Buffers are never written in place; the facade is re-bound
    to the handle of the new value. *)
Definition _reset (self : addr) (other : pyval) : M unit :=
  is_tensor <- match other with
               | VRef a => o <- load a;;
                           ret (match o with TensorObj _ _ => Some a | _ => None end)
               | _ => ret None
               end;;
  other <- match is_tensor with
           | Some a => ret a
           | None => d <- dtype self;; cn <- device self;;
                     Tensor other (VDType d) (VCompNode cn)
           end;;
  c <- get_wrapped other;;
  set_wrapped self c.

(** [def set_value(self, value): self._reset(value)] *)
Definition set_value (self : addr) (value : pyval) : M unit :=
  _reset self value.

(** Modelled from the spec: [apply] with an eager kernel produces new
    handles with freshly owned data, wrapped by new facades. *)
Definition apply_result (v : ndarray) (cn : CompNode) : M addr :=
  r <- alloc (RawTensor v cn);;
  c <- alloc (CoreTensor r);;
  Tensor (VRef c) VNone VNone.

(** [def reset_zero(self): self *= 0] *)
Definition reset_zero (self : addr) : M unit :=
  p <- resident self;;
  prod <- apply_result (nd_mul_int (fst p) 0) (snd p);;
  _reset self (VRef prod).

(** [def to(self, device): cn = as_device(device).to_c();
     return apply(Copy(comp_node=cn), self)[0]] *)
Definition to (self : addr) (device : pyval) : M addr :=
  cn <- as_device device;;
  p <- resident self;;
  apply_result (fst p) cn.

Definition reserved : exn := AttributeError "requires_grad is reserved for future use".

(** The property [requires_grad]: getter, setter and deleter. *)
Definition requires_grad (self : addr) : M pyval := raise reserved.
Definition requires_grad_setter (self : addr) (value : pyval) : M unit := raise reserved.
Definition requires_grad_deleter (self : addr) : M unit := raise reserved.

(** [def __hash__(self): return id(self)] *)
Definition __hash__ (self : addr) : M Z := ret (py_id self).

(** [def __getstate__(self)] *)
Definition __getstate__ (self : addr) : M (gmap string pyval) :=
  a <- numpy self;;
  cn <- device self;;
  d <- dtype self;;
  q <- get_q_dict self;;
  ret (<["data" := VArray a]>
       (<["device" := VStr (comp_node_str cn)]>
        (<["dtype" := VDType d]>
         (<["qdict" := q]> ∅)))).

(** [state.pop(key)] *)
Definition pop (state : gmap string pyval) (key : string)
  : M (pyval * gmap string pyval) :=
  match state !! key with
  | Some v => ret (v, delete key state)
  | None => raise (KeyError key)
  end.

(** [def __setstate__(self, state)]; the dictionary left after the pops
    is returned along. *)
Definition __setstate__ (self : addr) (state : gmap string pyval)
  : M (gmap string pyval) :=
  p <- pop state "data";;
  let data := fst p in let state := snd p in
  p <- pop state "device";;
  let device := fst p in let state := snd p in
  cb <- get_dmap_callback;;
  device <- match cb with
            | Some f =>
                match device with
                | VStr s => ret (VStr (f s))
                | _ => raise (AssertionError "")
                end
            | None => ret device
            end;;
  p <- pop state "dtype";;
  let dtype := fst p in let state := snd p in
  p <- pop state "qdict";;
  let state := snd p in
  set_q_dict self (fst p);;;
  TensorWrapper_init self data dtype device;;;
  ret state.

(** Unpickling: a blank instance receives the state. *)
Definition unpickle (state : gmap string pyval) : M addr :=
  self <- __new__;;
  __setstate__ self state;;;
  ret self.

(** [def detach(self): Wrapper = type(self); Tensor = type(self.__wrapped__);
     return Wrapper(Tensor(self.__wrapped__._data))] *)
Definition detach (self : addr) : M addr :=
  c <- get_wrapped self;;
  oc <- load c;;
  match oc with
  | CoreTensor _data =>
      c' <- alloc (CoreTensor _data);;
      Tensor (VRef c') VNone VNone
  | _ => raise (AttributeError "_data")
  end.

(** Statements of a client program acting on tensors. *)
Inductive stmt : Type :=
| SNew (data dtype device : pyval)
| SInit (x : addr) (data dtype device : pyval)
| SSetValue (x : addr) (value : pyval)
| SResetZero (x : addr)
| STo (x : addr) (device : pyval)
| SDetach (x : addr)
| SHash (x : addr)
| SGetState (x : addr)
| SSetState (x : addr) (state : gmap string pyval)
| SUnpickle (state : gmap string pyval)
| SSetDefaultDevice (d : string)
| SSetDmapCallback (cb : option (string -> string)).

(** The outcome of a statement, with its value dropped. *)
Definition outcome {A : Type} (m : M A) : M unit := bind m (fun _ => ret tt).

Definition run (s : stmt) : M unit :=
  match s with
  | SNew data dtype device => outcome (Tensor data dtype device)
  | SInit x data dtype device => __init__ x data dtype device
  | SSetValue x value => set_value x value
  | SResetZero x => reset_zero x
  | STo x device => outcome (to x device)
  | SDetach x => outcome (detach x)
  | SHash x => outcome (__hash__ x)
  | SGetState x => outcome (__getstate__ x)
  | SSetState x state => outcome (__setstate__ x state)
  | SUnpickle state => outcome (unpickle state)
  | SSetDefaultDevice d => set_default_device d
  | SSetDmapCallback cb => set_dmap_callback cb
  end.

(** A program runs its statements in order; a statement that raises is
    caught and the program goes on in the state it left. *)
Definition exec (prog : list stmt) (w : World) : World :=
  fold_left (fun w s => snd (run s w)) prog w.

(** The object a statement is invoked on, when it has one. *)
Definition receiver (s : stmt) : option addr :=
  match s with
  | SInit x _ _ _ | SSetValue x _ | SResetZero x | STo x _
  | SDetach x | SHash x | SGetState x | SSetState x _ => Some x
  | _ => None
  end.

(** Every object lies below the allocation pointer. *)
Definition wf (w : World) : Prop :=
  forall a o, heap w !! a = Some o -> (a < next_id w)%nat.

(** ** Predicates used to state facts about the facade *)

(** No run of [m] ends in the error of the reserved attribute. *)
Definition quiet {A : Type} (m : M A) : Prop :=
  forall w, fst (m w) <> Raise reserved.

(** The three cells behind an initialised tensor. *)
Definition backed (w : World) (t : addr) (v : ndarray) (cn : CompNode) : Prop :=
  exists c r q,
    heap w !! t = Some (TensorObj (Some c) q) /\
    heap w !! c = Some (CoreTensor r) /\
    heap w !! r = Some (RawTensor v cn).

(** The record [__getstate__] builds. *)
Definition pickled (a : ndarray) (cn : CompNode) (q : pyval) : gmap string pyval :=
  <["data" := VArray a]>
    (<["device" := VStr (comp_node_str cn)]>
       (<["dtype" := VDType (nd_dtype a)]>
          (<["qdict" := q]> ∅))).

(** The device string after the remap hook, when one is installed. *)
Definition remapped (w : World) (s : string) : string :=
  match dmap_callback w with
  | Some f => f s
  | None => s
  end.

Definition is_facade (o : obj) : Prop :=
  match o with
  | TensorObj _ _ => True
  | _ => False
  end.

(** From [w] to [w'] nothing was freed, and every cell that is the facade
    [d] or is not a facade at all still holds what it held. *)
Definition kept (d : addr) (w w' : World) : Prop :=
  (next_id w <= next_id w')%nat /\
  forall a o, heap w !! a = Some o -> a = d \/ ~ is_facade o -> heap w' !! a = Some o.

(** Running [m] from [w] keeps the store well formed and keeps [d]. *)
Definition tame_at {A : Type} (d : addr) (m : M A) (w : World) : Prop :=
  wf w -> (d < next_id w)%nat -> wf (snd (m w)) /\ kept d w (snd (m w)).
End Facade.
End tensor.

(** * [megengine/random/distribution.py] *)

Module random.
Section Distribution.
Context {native : Native}.
Local Open Scope py_scope.

(** Modelled from the spec: [_random_seed_generator] of [random/rng.py] is
    not among the sources; each [__next__] draws the next raw value of the
    process-wide seeded generator. *)
Definition _random_seed_generator_next : M Z :=
  fun w => (Ok (random_raw (rng w)),
            mkWorld (default_device w) (dmap_callback w) (S (rng w))
                    (heap w) (next_id w)).

(** Modelled from the spec: [(output,) = apply(UniformRNG(seed=seed), size)];
    the operator is not among the sources, its sample is what the native
    kernel returns for the seed and the size tensor. *)
Definition apply_UniformRNG (seed : Z) (size : addr) : M addr :=
  p <- tensor.resident size;;
  tensor.apply_result (uniform_rng seed (fst p)) (snd p).

(** Modelled from the spec: [x * t] for a Python float [x] and a tensor
    [t], an elementwise kernel call of the base class. *)
Definition __rmul__ (t : addr) (x : pyfloat) : M addr :=
  p <- tensor.resident t;;
  tensor.apply_result (nd_mul_float x (fst p)) (snd p).

(** Modelled from the spec: [x + t] for a Python float [x] and a tensor
    [t], likewise. *)
Definition __radd__ (t : addr) (x : pyfloat) : M addr :=
  p <- tensor.resident t;;
  tensor.apply_result (nd_add_float x (fst p)) (snd p).

(** The message of the assertion in [uniform]. *)
Definition uniform_message : string := "Uniform is not defined when low >= high".

(** [def uniform(low=0, high=1, size=None)] *)
Definition uniform (low high : pyfloat) (size : pyval) : M addr :=
  if py_lt low high then
    let size := match size with VNone => VInts [1%Z] | _ => size end in
    seed <- _random_seed_generator_next;;
    size <- tensor.Tensor size (VStr "int32") VNone;;
    output <- apply_UniformRNG seed size;;
    scaled <- __rmul__ output (py_sub high low);;
    __radd__ scaled low
  else raise (AssertionError uniform_message).
End Distribution.
End random.

(** * The dataflow graph behind [core.tensor.megbrain_graph] *)

Module megbrain_graph.
Section Graph.
Context {native : Native}.

(** Modelled from the spec: [_imperative_rt.DeviceTensorND] is not among the
    sources; a device tensor is a value together with the device it
    resides on. *)
Definition DeviceTensorND : Type := (ndarray * CompNode)%type.

(** Modelled from the spec: the operator descriptor; [Identity] is the
    no-op operator, every other kind is served by a backend kernel. *)
Inductive OpDef : Type :=
| Identity
| Kernel (kind : string).

(** Modelled from the spec: the node variants of a dataflow graph.  A node
    is referred to by its position in creation order; an input callback
    supplies the value for the n-th run, an output callback is the future
    that receives the result. *)
Inductive node : Type :=
| InputNode (device : CompNode) (dtype : np_dtype)
            (callback : option (nat -> DeviceTensorND))
| OperatorNode (op : OpDef) (inputs : list nat)
| OutputNode (src : nat) (callback : option nat)
| AttrOutputNode (src : nat).

(** Modelled from the spec: the states of a graph, [Building] then
    [Compiled] then [Closed]. *)
Inductive gstate : Type := Building | Compiled | Closed.

(** Modelled from the spec: [megbrain_graph.Graph] is not among the sources;
    a graph is its nodes in creation order and its state. *)
Record Graph : Type := mkGraph { nodes : list node; state : gstate }.

(** Modelled from the spec: [Graph()] is an empty graph under construction. *)
Definition new_graph : Graph := mkGraph [] Building.

Local Open Scope py_scope.

(** Modelled from the spec: nodes may be added while the graph is being
    built, and only on top of nodes that exist. *)
Definition add_node (g : Graph) (n : node) : result (Graph * nat) :=
  match state g with
  | Building => Ok (mkGraph (nodes g ++ [n]) Building, length (nodes g))
  | _ => Raise InvalidStateError
  end.

(** Modelled from the spec: [addInput(device, dtype, [pull-callback])]. *)
Definition addInput (g : Graph) (device : CompNode) (dtype : np_dtype)
    (callback : option (nat -> DeviceTensorND)) : result (Graph * nat) :=
  add_node g (InputNode device dtype callback).

(** Modelled from the spec: an operator node wraps a descriptor and refers to
    input nodes of the same graph. *)
Definition addOperator (g : Graph) (op : OpDef) (inputs : list nat)
  : result (Graph * nat) :=
  if forallb (fun i => Nat.ltb i (length (nodes g))) inputs
  then add_node g (OperatorNode op inputs)
  else Raise DisconnectedOutput.

(** Modelled from the spec: [addOutput(node, [push-callback])]. *)
Definition addOutput (g : Graph) (src : nat) (callback : option nat)
  : result (Graph * nat) :=
  if Nat.ltb src (length (nodes g))
  then add_node g (OutputNode src callback)
  else Raise DisconnectedOutput.

(** Modelled from the spec: [input_callback(callback, device=..., dtype=...,
    graph=g)] of [megbrain_graph], as the test calls it, adds an input node
    fed by the callback. *)
Definition input_callback (callback : nat -> DeviceTensorND)
    (device : CompNode) (dtype : np_dtype) (g : Graph) : result (Graph * nat) :=
  addInput g device dtype (Some callback).

(** Modelled from the spec: [output_callback(future.set_result, var)] adds an
    output node that delivers into the future. *)
Definition output_callback (future : nat) (var : nat) (g : Graph)
  : result (Graph * nat) :=
  addOutput g var (Some future).

(** Modelled from the spec: whether a node was wired to some input node,
    which [compile] requires of every output. *)
Fixpoint wired (fuel : nat) (ns : list node) (i : nat) : bool :=
  match fuel with
  | O => false
  | S fuel' =>
      match nth_error ns i with
      | Some (InputNode _ _ _) => true
      | Some (OperatorNode _ inputs) => existsb (wired fuel' ns) inputs
      | Some (OutputNode src _) => wired fuel' ns src
      | Some (AttrOutputNode src) => wired fuel' ns src
      | None => false
      end
  end.

(** Modelled from the spec: only output nodes can be compiled for. *)
Definition is_output (ns : list node) (i : nat) : bool :=
  match nth_error ns i with
  | Some (OutputNode _ _) | Some (AttrOutputNode _) => true
  | _ => false
  end.

(** Modelled from the spec: the executable produced by [compile]: the frozen
    nodes, the chosen outputs and the number of runs so far. *)
Record Executable : Type := mkExecutable {
  exe_nodes : list node;
  exe_outputs : list nat;
  exe_runs : nat
}.

(** Modelled from the spec: [compile] freezes the graph and binds the
    executable to the chosen outputs; an output that was never wired to an
    input is rejected. *)
Definition compile (g : Graph) (outputs : list nat) : result (Graph * Executable) :=
  match state g with
  | Building =>
      if forallb (fun o => is_output (nodes g) o
                           && wired (length (nodes g)) (nodes g) o) outputs
      then Ok (mkGraph (nodes g) Compiled, mkExecutable (nodes g) outputs 0)
      else Raise DisconnectedOutput
  | _ => Raise InvalidStateError
  end.

(** Modelled from the spec: what a run reads and writes outside the graph. *)
Record Env : Type := mkEnv {
  futures : gmap nat DeviceTensorND;    (* resolved futures *)
  pushed : gmap nat DeviceTensorND;     (* values given by [set_value] *)
  pulled : gmap nat DeviceTensorND;     (* values waiting for [get_value] *)
  attrs : gmap nat (list nat * np_dtype * CompNode)
}.

Definition empty_env : Env := mkEnv ∅ ∅ ∅ ∅.

(** Running a fallible function over a list, left to right. *)
Fixpoint mapM {A B : Type} (f : A -> result B) (l : list A) : result (list B) :=
  match l with
  | [] => Ok []
  | x :: l' => let* y := f x in let* ys := mapM f l' in Ok (y :: ys)
  end.

(** The nodes of [test_io] before the output node: the input node fed by a
    callback that supplies [x], then [k] identity operators in a row. *)
Definition chain (x : DeviceTensorND) (k : nat) : list node :=
  InputNode (snd x) (nd_dtype (fst x)) (Some (fun _ => x))
  :: map (fun i => OperatorNode Identity [i]) (seq 0 k).

Section Run.
(** Modelled from the spec: the kernels of the backend, by operator kind. *)
Variable kernel : string -> list DeviceTensorND -> result DeviceTensorND.

(** Modelled from the spec: the identity operator hands its input on; any
    other kind is computed by its kernel. *)
Definition apply_op (op : OpDef) (args : list DeviceTensorND)
  : result DeviceTensorND :=
  match op, args with
  | Identity, [v] => Ok v
  | Identity, _ => Raise ShapeMismatch
  | Kernel kind, _ => kernel kind args
  end.

(** Modelled from the spec: the value of a node in run number [run],
    computed on demand from the nodes it depends on, so that only the
    dependencies of the chosen outputs are run.  An input node asks its
    callback, or takes the pushed value. *)
Fixpoint eval (fuel : nat) (ns : list node) (run : nat)
    (inputs : gmap nat DeviceTensorND) (i : nat) : result DeviceTensorND :=
  match fuel with
  | O => Raise DisconnectedOutput
  | S fuel' =>
      match nth_error ns i with
      | Some (InputNode _ _ (Some callback)) => Ok (callback run)
      | Some (InputNode _ _ None) =>
          match inputs !! i with
          | Some v => Ok v
          | None => Raise InputNotReady
          end
      | Some (OperatorNode op args) =>
          let* vs := mapM (eval fuel' ns run inputs) args in
          apply_op op vs
      | Some (OutputNode src _) => eval fuel' ns run inputs src
      | Some (AttrOutputNode src) => eval fuel' ns run inputs src
      | None => Raise DisconnectedOutput
      end
  end.

(** [future.set_result(v)] of [concurrent.futures.Future]: a future is
    resolved once. *)
Definition set_result (future : nat) (v : DeviceTensorND) (env : Env) : result Env :=
  match futures env !! future with
  | Some _ => Raise InvalidStateError
  | None => Ok (mkEnv (<[future := v]> (futures env)) (pushed env)
                      (pulled env) (attrs env))
  end.

(** Modelled from the spec: an output with a callback hands the result to
    it, one without keeps it for [get_value], an attribute output exposes
    shape, dtype and device only. *)
Definition deliver (ns : list node) (run : nat) (env : Env) (o : nat) : result Env :=
  let* v := eval (length ns) ns run (pushed env) o in
  match nth_error ns o with
  | Some (OutputNode _ (Some future)) => set_result future v env
  | Some (OutputNode _ None) =>
      Ok (mkEnv (futures env) (pushed env) (<[o := v]> (pulled env)) (attrs env))
  | Some (AttrOutputNode _) =>
      Ok (mkEnv (futures env) (pushed env) (pulled env)
                (<[o := (nd_shape (fst v), nd_dtype (fst v), snd v)]> (attrs env)))
  | _ => Raise DisconnectedOutput
  end.

(** Modelled from the spec: the outputs are served in order; a failure
    leaves what was delivered before it. *)
Fixpoint deliver_all (ns : list node) (run : nat) (env : Env) (os : list nat)
  : result Env :=
  match os with
  | [] => Ok env
  | o :: os' => let* env' := deliver ns run env o in deliver_all ns run env' os'
  end.

(** Modelled from the spec: [execute] at level 0 runs the compiled graph
    once, to completion. *)
Definition execute (f : Executable) (env : Env) : result (Executable * Env) :=
  let* env' := deliver_all (exe_nodes f) (exe_runs f) env (exe_outputs f) in
  Ok (mkExecutable (exe_nodes f) (exe_outputs f) (S (exe_runs f)), env').

(** [k] identity operators in a row on top of [var]. *)
Fixpoint identities (k : nat) (g : Graph) (var : nat) : result (Graph * nat) :=
  match k with
  | O => Ok (g, var)
  | S k' =>
      let* gv := addOperator g Identity [var] in
      identities k' (fst gv) (snd gv)
  end.

(** [test_io] of [test_megbrain_graph.py]: an input fed by [lambda: x], an
    output delivering into the future [y], compiled and run once; [k]
    identity operators sit in between ([k = 0] in the test). *)
Definition test_io (k : nat) (x : DeviceTensorND) (y : nat) (env : Env)
  : result Env :=
  let g := new_graph in
  let* gv := input_callback (fun _ => x) (snd x) (nd_dtype (fst x)) g in
  let* gv := identities k (fst gv) (snd gv) in
  let* gv := output_callback y (snd gv) (fst gv) in
  let* gf := compile (fst gv) [snd gv] in
  let* fe := execute (snd gf) env in
  Ok (snd fe).
End Run.
End Graph.
End megbrain_graph.

(** * A concrete native layer

    Host arrays of float32 or int32 items, devices named by strings.  It is
    the instance at which the statements below are exercised. *)

Inductive host_dtype : Type := Float32 | Int32.

Inductive host_array : Type :=
| FloatArray (shape : list nat) (items : list f32)
| IntArray (shape : list nat) (items : list Z).

Definition f32_to_Z (x : f32) : Z :=
  match x with
  | S754_finite s m e =>
      cond_Zopp s (if Z.leb 0 e then Zpos m * 2 ^ e else Z.quot (Zpos m) (2 ^ (- e)))
  | _ => 0
  end%Z.

Definition host_dtype_of (a : host_array) : host_dtype :=
  match a with
  | FloatArray _ _ => Float32
  | IntArray _ _ => Int32
  end.

Definition host_shape (a : host_array) : list nat :=
  match a with
  | FloatArray s _ => s
  | IntArray s _ => s
  end.

Definition host_astype (a : host_array) (d : host_dtype) : host_array :=
  match a, d with
  | FloatArray s l, Int32 => IntArray s (map f32_to_Z l)
  | IntArray s l, Float32 => FloatArray s (map f32_of_Z l)
  | _, _ => a
  end.

Definition host_dtype_of_string (s : string) : host_dtype :=
  if String.eqb s "int32" then Int32 else Float32.

Definition host_floats (a : host_array) : list f32 :=
  match a with
  | FloatArray _ l => l
  | IntArray _ l => map f32_of_Z l
  end.

Definition host_mul_int (a : host_array) (z : Z) : host_array :=
  match a with
  | FloatArray s l => FloatArray s (map (fun x => SFmul 24 128 x (f32_of_Z z)) l)
  | IntArray s l => IntArray s (map (fun x => Z.mul x z) l)
  end.

Definition host_mul_float (x : pyfloat) (a : host_array) : host_array :=
  FloatArray (host_shape a) (map (SFmul 24 128 (f32_of_float x)) (host_floats a)).

Definition host_add_float (x : pyfloat) (a : host_array) : host_array :=
  FloatArray (host_shape a) (map (SFadd 24 128 (f32_of_float x)) (host_floats a)).

Definition host_sizes (a : host_array) : list nat :=
  match a with
  | FloatArray _ l => map (fun x => Z.to_nat (f32_to_Z x)) l
  | IntArray _ l => map Z.to_nat l
  end.

(** A congruential generator standing for the native one: item [i] of the
    sample is a multiple of [2^-24] in [[0, 1)]. *)
Definition host_uniform_item (seed : Z) (i : nat) : f32 :=
  binary_normalize 24 128
    (Z.modulo (seed * 1103515245 + 12345 + Z.of_nat i * 2654435761) (2 ^ 24))
    (-24) false.

Definition host_uniform_rng (seed : Z) (size : host_array) : host_array :=
  let s := host_sizes size in
  FloatArray s (map (host_uniform_item seed) (seq 0 (fold_right Nat.mul 1%nat s))).

Definition host_random_raw (n : nat) : Z :=
  Z.modulo (Z.of_nat n * 6364136223846793005 + 1442695040888963407) (2 ^ 64).

Fixpoint has_colon (s : string) : bool :=
  match s with
  | EmptyString => false
  | String c s' => if Ascii.eqb c (Ascii.Ascii false true false true true true false false) then true else has_colon s'
  end.

(** The printed form of a device carries its stream: ["cpu0"] prints as
    ["cpu0:0"]. *)
Definition host_comp_node_str (s : string) : string :=
  if has_colon s then s else s ++ ":0".

Definition host_native : Native := {|
  ndarray := host_array;
  np_dtype := host_dtype;
  CompNode := string;
  nd_dtype := host_dtype_of;
  nd_shape := host_shape;
  astype := host_astype;
  array_of_ints := fun l => IntArray [length l] l;
  dtype_of_string := host_dtype_of_string;
  comp_node := fun s => s;
  comp_node_str := host_comp_node_str;
  nd_mul_int := host_mul_int;
  nd_mul_float := host_mul_float;
  nd_add_float := host_add_float;
  uniform_rng := host_uniform_rng;
  random_raw := host_random_raw
|}.

(** A freshly started process: default device ["xpux"], no remap hook, no
    object allocated. *)
Definition boot {native : Native} : World := mkWorld "xpux" None 0 ∅ 0.

(** The world after [Tensor(np.array([7, 9]))] in a fresh process; the
    tensor has [id] 0. *)
Definition sample_world : @World host_native :=
  snd (@tensor.Tensor host_native
         (@VArray host_native (IntArray [2] [7; 9]%Z)) VNone VNone boot).

(** * [megengine/module/conv.py] *)

Module conv.
Local Open Scope Z_scope.

(** The exceptions the module code raises, and the outcome of a call. *)
Inductive error : Type :=
| ValueError (msg : string)
| ZeroDivisionError
| AssertError (msg : string) (args : list Z).

Inductive outcome (A : Type) : Type :=
| Return (a : A)
| Throw (e : error).
Arguments Return {A} a.
Arguments Throw {A} e.

Definition obind {A B : Type} (r : outcome A) (k : A -> outcome B) : outcome B :=
  match r with
  | Return a => k a
  | Throw e => Throw e
  end.

Notation "'do' x '<-' c ';' k" := (obind c (fun x => k))
  (at level 10, x name, c at level 100, k at level 200).

(** Python's [a % b] and [a // b] on ints: floored, the sign of the
    remainder follows the divisor, and a zero divisor raises. *)
Definition py_mod (a b : Z) : outcome Z :=
  if Z.eqb b 0 then Throw ZeroDivisionError else Return (Z.modulo a b).

Definition py_floordiv (a b : Z) : outcome Z :=
  if Z.eqb b 0 then Throw ZeroDivisionError else Return (Z.div a b).

(** The classes of the file. *)
Inductive kind : Type := Conv2d | ConvTranspose2d | LocalConv2d | ConvRelu2d.

(** The attributes a method reads from [self].  [_pair], [_pair_nonzero]
    of [functional/types.py] and [convert] of the parameter definitions are
    not among the sources: the pairs are taken as these functions return
    them, and a mode attribute is held as the string given to [convert].
    [input_height] and [input_width] are only set by [LocalConv2d]. *)
Record attrs : Type := mkAttrs {
  cls : kind;
  in_channels : Z;
  out_channels : Z;
  kernel_size : Z * Z;
  stride : Z * Z;
  padding : Z * Z;
  dilation : Z * Z;
  groups : Z;
  conv_mode : string;
  compute_mode : string;
  input_height : Z;
  input_width : Z
}.

(** [_get_fanin]: [kh * kw * ic], and [kh * kw * oc] for the transposed
    convolution. *)
Definition _get_fanin (self : attrs) : Z :=
  let (kh, kw) := kernel_size self in
  match cls self with
  | ConvTranspose2d => kh * kw * out_channels self
  | _ => kh * kw * in_channels self
  end.

(** The message of the assertion, with the three numbers it is formatted
    with. *)
Definition invalid_config (ichl ochl group : Z) : error :=
  AssertError "invalid config: input_channels={} output_channels={} group={}"
              [ichl; ochl; group].

(** [assert ichl % group == 0 and ochl % group == 0, "invalid config: ..."] *)
Definition assert_divisible (ichl ochl group : Z) : outcome unit :=
  do r <- py_mod ichl group;
  if negb (Z.eqb r 0) then Throw (invalid_config ichl ochl group)
  else
    do r' <- py_mod ochl group;
    if negb (Z.eqb r' 0) then Throw (invalid_config ichl ochl group)
    else Return tt.

(** [_infer_weight_shape], as each class defines it. *)
Definition _infer_weight_shape (self : attrs) : outcome (list Z) :=
  let group := groups self in
  let ichl := in_channels self in
  let ochl := out_channels self in
  let (kh, kw) := kernel_size self in
  match cls self with
  | Conv2d | ConvRelu2d =>
      if Z.eqb group 1 then Return [ochl; ichl; kh; kw]
      else
        do _ <- assert_divisible ichl ochl group;
        do o <- py_floordiv ochl group;
        do i <- py_floordiv ichl group;
        Return [group; o; i; kh; kw]
  | ConvTranspose2d =>
      if Z.eqb group 1 then Return [ichl; ochl; kh; kw]
      else
        do _ <- assert_divisible ichl ochl group;
        do i <- py_floordiv ichl group;
        do o <- py_floordiv ochl group;
        Return [group; i; o; kh; kw]
  | LocalConv2d =>
      do qh <- py_floordiv (input_height self + fst (padding self) * 2 - kh)
                           (fst (stride self));
      let output_height := qh + 1 in
      do qw <- py_floordiv (input_width self + snd (padding self) * 2 - kw)
                           (snd (stride self));
      let output_width := qw + 1 in
      do i <- py_floordiv ichl group;
      do o <- py_floordiv ochl group;
      Return [group; output_height; output_width; i; kh; kw; o]
  end.

(** [_infer_bias_shape]: [(1, self.out_channels, 1, 1)] *)
Definition _infer_bias_shape (self : attrs) : list Z :=
  [1; out_channels self; 1; 1].

(** [np.zeros(shape, dtype=np.float32)]: numpy refuses a negative
    dimension.  An array is kept as its shape. *)
Definition np_zeros (shape : list Z) : outcome (list Z) :=
  if forallb (fun d => Z.leb 0 d) shape then Return shape
  else Throw (ValueError "negative dimensions are not allowed").

(** A module after [__init__]: its attributes, the shapes of [weight] and
    [bias], and the fan-in that [reset_parameters] turned into the standard
    deviation [sqrt(1 / fanin)] of the weight's initial values. *)
Record module : Type := mkModule {
  self_attrs : attrs;
  weight : list Z;
  bias : option (list Z);
  init_fanin : Z
}.

(** Modelled from the spec: [init.normal_] and [init.zeros_] of
    [module/init.py] are not among the sources; they overwrite the items of
    a parameter and keep its shape.  What is left of [reset_parameters] is
    [std = np.sqrt(1 / fanin)], which divides by the fan-in before anything
    is initialised; the fan-in is returned. *)
Definition reset_parameters (self : attrs) : outcome Z :=
  let fanin := _get_fanin self in
  if Z.eqb fanin 0 then Throw ZeroDivisionError else Return fanin.

(** [_ConvNd.__init__] *)
Definition _ConvNd_init (self : attrs) (with_bias : bool) : outcome module :=
  do r <- py_mod (in_channels self) (groups self);
  if negb (Z.eqb r 0)
  then Throw (ValueError "in_channels must be divisible by groups")
  else
    do r' <- py_mod (out_channels self) (groups self);
    if negb (Z.eqb r' 0)
    then Throw (ValueError "out_channels must be divisible by groups")
    else
      do ws <- _infer_weight_shape self;
      do w <- np_zeros ws;
      do b <- (if with_bias
               then do z <- np_zeros (_infer_bias_shape self); Return (Some z)
               else Return None);
      do fanin <- reset_parameters self;
      Return (mkModule self w b fanin).

(** [Conv2d.__init__], [ConvTranspose2d.__init__] and, by inheritance,
    [ConvRelu2d.__init__], after the conversions of their arguments. *)
Definition Conv_init (k : kind) (in_channels out_channels : Z)
    (kernel_size stride padding dilation : Z * Z) (groups : Z) (with_bias : bool)
    (conv_mode compute_mode : string) (input_height input_width : Z)
  : outcome module :=
  _ConvNd_init
    (mkAttrs k in_channels out_channels kernel_size stride padding dilation groups
             conv_mode compute_mode input_height input_width)
    with_bias.

(** [LocalConv2d.__init__]: the sizes of the input are stored, then
    [Conv2d.__init__] runs with [bias=False]; [conv_mode] is not handed on,
    so the defaults of [Conv2d.__init__] apply. *)
Definition LocalConv2d_init (in_channels out_channels input_height input_width : Z)
    (kernel_size stride padding dilation : Z * Z) (groups : Z) (conv_mode : string)
  : outcome module :=
  Conv_init LocalConv2d in_channels out_channels kernel_size stride padding dilation
            groups false "CROSS_CORRELATION" "DEFAULT" input_height input_width.

(** The attributes with the two channel counts exchanged, seen by class [k]. *)
Definition exchanged (k : kind) (self : attrs) : attrs :=
  mkAttrs k (out_channels self) (in_channels self) (kernel_size self) (stride self)
          (padding self) (dilation self) (groups self) (conv_mode self)
          (compute_mode self) (input_height self) (input_width self).

(** The number of items of an array of the given shape. *)
Definition size_of (shape : list Z) : Z := fold_right Z.mul 1 shape.
End conv.

(** * [megengine/functional/loss.py]: the hinge loss *)

(** The rectifier kernel, which [hinge_loss] needs on top of [ElemOps]. *)
Class ReluOps (E : Type) : Type := {
  e_relu : E -> E               (* Elemwise(mode="relu") *)
}.

(** float32: zero for an item that is not above zero, the item otherwise. *)
Definition f32_relu (x : f32) : f32 :=
  if SFleb x (f32_of_Z 0) then f32_of_Z 0 else x.

Definition f32_relu_ops : ReluOps f32 := {| e_relu := f32_relu |}.

Definition real_relu_ops : ReluOps R := {| e_relu := Rmax 0 |}.

Module hinge.
Import functional.
Section Hinge.
Context {E : Type} {ops : ElemOps E} {rops : ReluOps E}.
Local Open Scope py_scope.

Definition relu := elemwise1 e_relu.

(** Modelled from the spec: [Tensor.sum(axis)] of the base class is not among
    the sources; it reduces along one axis of the row-major data and drops
    that axis (a one-dimensional tensor reduces to shape [(1,)]).  An axis
    the tensor does not have is refused. *)
Definition sum_axis (axis : nat) (t : Tensor E) : result (Tensor E) :=
  if Nat.ltb axis (length (shape t)) then
    let outer := numel (firstn axis (shape t)) in
    let n := nth axis (shape t) 0%nat in
    let inner := numel (skipn (S axis) (shape t)) in
    let s' := (firstn axis (shape t) ++ skipn (S axis) (shape t))%list in
    Ok (mkTensor
          (match s' with [] => [1%nat] | _ => s' end)
          (flat_map
             (fun o =>
                map (fun i => sum_upto (fun k => item t ((o * n + k) * inner + i)) n)
                    (seq 0 inner))
             (seq 0 outer)))
  else Raise ShapeMismatch.

(** [norm in ["L1", "L2"]] *)
Definition known_norm (norm : string) : bool :=
  String.eqb norm "L1" || String.eqb norm "L2".

(** [def hinge_loss(pred, label, norm="L1")] *)
Definition hinge_loss (pred label : Tensor E) (norm : string) : result (Tensor E) :=
  if known_norm norm then
    let* prod := mul (OfTensor pred) (OfTensor label) in
    let* margin := sub (OfFloat (float_of_Z 1)) (OfTensor prod) in
    let loss := relu margin in
    if String.eqb norm "L1" then
      let* s := sum_axis 1 loss in
      Ok (mean s)
    else
      let* sq := pow (OfTensor loss) (OfInt 2) in
      let* s := sum_axis 1 sq in
      Ok (mean s)
  else Raise (AssertionError "norm must be L1 or L2").

(** The summand of the hinge loss for sample [i] and class [j] of [c]. *)
Definition hinge_term (pred label : Tensor E) (c i j : nat) : E :=
  e_relu (e_sub (e_of_float (float_of_Z 1))
                (e_mul (item pred (i * c + j)) (item label (i * c + j)))).
End Hinge.
End hinge.

(** The Python float written [n/d] in decimal, for [n] and [d] that binary64
    holds exactly: the literal [0.1] is [py_ratio 1 10]. *)
Definition py_ratio (n d : Z) : pyfloat :=
  SFdiv 53 1024 (float_of_Z n) (float_of_Z d).

(** [tensor(rows, dtype="float32")] for a matrix of Python floats given in
    tenths, row by row. *)
Definition f32_tenths (rows cols : nat) (l : list Z) : functional.Tensor f32 :=
  functional.mkTensor [rows; cols] (map (fun n => f32_of_float (py_ratio n 10)) l).

(** [tensor(rows, dtype="float32")] for a matrix of Python ints. *)
Definition f32_matrix (rows cols : nat) (l : list Z) : functional.Tensor f32 :=
  functional.mkTensor [rows; cols] (map f32_of_Z l).

(** * [megengine/random/distribution.py]: [normal] *)

Module distribution.
Section Normal.
Context {native : Native}.
Local Open Scope py_scope.

(** The Gaussian operator of the backend: the sample for a seed, a mean, a
    standard deviation and a size tensor. *)
Variable gaussian_rng : Z -> pyfloat -> pyfloat -> ndarray -> ndarray.

(** Modelled from the spec: [(output,) = apply(GaussianRNG(seed=seed,
    mean=mean, std=std), size)]; the operator is not among the sources, its
    sample is what the native kernel returns. *)
Definition apply_GaussianRNG (seed : Z) (mean std : pyfloat) (size : addr) : M addr :=
  p <- tensor.resident size;;
  tensor.apply_result (gaussian_rng seed mean std (fst p)) (snd p).

(** [def normal(mean=0, std=1, size=None)] *)
Definition normal (mean std : pyfloat) (size : pyval) : M addr :=
  let size := match size with VNone => VInts [1%Z] | _ => size end in
  seed <- random._random_seed_generator_next;;
  size <- tensor.Tensor size (VStr "int32") VNone;;
  apply_GaussianRNG seed mean std size.

(** A sampling call of a client program and a program of such calls, run in
    order; a call that raises is caught and the program goes on. *)
Inductive sampling : Type :=
| Normal (mean std : pyfloat) (size : pyval)
| Uniform (low high : pyfloat) (size : pyval).

Definition sample (c : sampling) : M addr :=
  match c with
  | Normal mean std size => normal mean std size
  | Uniform low high size => random.uniform low high size
  end.

Definition sample_all (cs : list sampling) (w : World) : World :=
  fold_left (fun w c => snd (sample c w)) cs w.

(** Whether the call is refused by the check of its arguments. *)
Definition refused (c : sampling) : bool :=
  match c with
  | Normal _ _ _ => false
  | Uniform low high _ => negb (py_lt low high)
  end.

(** The number of calls of a program that get past the check of their
    arguments. *)
Definition drawn (cs : list sampling) : nat :=
  length (List.filter (fun c => negb (refused c)) cs).

(** Running [m] leaves the seeded generator where it was. *)
Definition steady {A : Type} (m : M A) : Prop :=
  forall w, rng (snd (m w)) = rng w.
End Normal.
End distribution.

(** * [megengine/tensor.py]: the states [__setstate__] accepts *)

Module pickling.
Section Pickling.
Context {native : Native}.


(** The state dictionary after the four pops of [__setstate__]. *)
Definition consumed (state : gmap string pyval) : gmap string pyval :=
  delete "qdict" (delete "dtype" (delete "device" (delete "data" state))).
End Pickling.
End pickling.

(** * [test/unit/functional/test_tensor.py]: the harness [opr_test] *)

Module test_tensor.

(** What a call of the harness ends in when it does not return. *)
Inductive error : Type :=
| ValueError (msg : string)
| IndexError
| FuncRaised                  (* [func] raised *)
| CompareRaised.              (* [compare_fn] raised *)

Inductive verdict (A : Type) : Type :=
| Done (a : A)
| Fail (e : error).
Arguments Done {A} a.
Arguments Fail {A} e.

Definition vbind {A B : Type} (r : verdict A) (k : A -> verdict B) : verdict B :=
  match r with
  | Done a => k a
  | Fail e => Fail e
  end.

(** A value that is a Python list (for results: a tuple) of items, or one
    item that is not; [isinstance] tells them apart. *)
Inductive boxed (A : Type) : Type :=
| One (a : A)
| Many (l : list A).
Arguments One {A} a.
Arguments Many {A} l.

(** [(x,)] for one item, [tuple(x)] for a list. *)
Definition to_tuple {A : Type} (b : boxed A) : list A :=
  match b with
  | One a => [a]
  | Many l => l
  end.

Section Harness.
(** Host values, tensors and results of the function under test. *)
Variables V T R : Type.

(** A test case: [case.get("input", None)] and [case.get("output", None)]. *)
Record case : Type := mkCase {
  c_input : option (boxed V);
  c_output : option (boxed V)
}.

(** The collaborators: [tensor(inpi)]; [compare_fn(r, e)], of which only
    whether it returns ([true]) or raises counts, its value being dropped;
    the function under test with its keyword arguments, [None] when it is
    not callable, which returns a tuple or one result, or raises; and the
    reference function, when one that is callable is given. *)
Variable tensor : V -> T.
Variable compare_fn : R -> V -> bool.
Variable func : option (list T -> option (boxed R)).
Variable ref_fn : option (list V -> option (boxed V)).

(** [for r, e in zip(results, expected): compare_fn(r, e)] *)
Fixpoint compare_all (l : list (R * V)) : verdict unit :=
  match l with
  | [] => Done tt
  | (r, e) :: l' => if compare_fn r e then compare_all l' else Fail CompareRaised
  end.

(** [def check_results(results, expected)] *)
Definition check_results (results : boxed R) (expected : list V) : verdict unit :=
  compare_all (combine (to_tuple results) expected).

(** [def get_param(cases, idx)] *)
Definition get_param (cases : list case) (idx : nat) : verdict (list V * list V) :=
  match nth_error cases idx with
  | None => Fail IndexError
  | Some c =>
      match c_input c with
      | None => Fail (ValueError "the test case should have input")
      | Some inp =>
          let inp := to_tuple inp in
          let outp := match ref_fn with
                      | Some g => g inp
                      | None => c_output c
                      end in
          match outp with
          | None =>
              Fail (ValueError "the test case should have output or reference function")
          | Some outp => Done (inp, to_tuple outp)
          end
      end
  end.

(** [def opr_test(cases, func, compare_fn, ref_fn, **kwargs)] *)
Definition opr_test (cases : list case) : verdict unit :=
  if Nat.eqb (length cases) 0 then Fail (ValueError "should give one case at least")
  else
    match func with
    | None => Fail (ValueError "the input func should be callable")
    | Some f =>
        vbind (get_param cases 0) (fun p =>
          let inp_tensor := map tensor (fst p) in
          match f inp_tensor with
          | None => Fail FuncRaised
          | Some results => check_results results (snd p)
          end)
    end.
End Harness.
Arguments mkCase {V} c_input c_output.
Arguments c_input {V} c.
Arguments c_output {V} c.
End test_tensor.

(** * Facts about the losses *)

Module loss_facts.
Import functional.

Section LossFacts.
Context {E : Type} {ops : ElemOps E}.

Lemma bcast_rev_same (r : list nat) : bcast_rev r r = Some r.
Proof.
  induction r as [|a r IH]; simpl; [reflexivity|].
  rewrite IH, Nat.eqb_refl. reflexivity.
Qed.

Lemma bcast_shape_same (s : list nat) : bcast_shape s s = Some s.
Proof. unfold bcast_shape. rewrite bcast_rev_same, rev_involutive. reflexivity. Qed.

Lemma pad_shape_same (s : list nat) : pad_shape (length s) s = s.
Proof. unfold pad_shape. rewrite Nat.sub_diag. reflexivity. Qed.

Lemma concat_chunks (n k : nat) (d : list E) :
  length d = (k * n)%nat -> concat (chunks n k d) = d.
Proof.
  revert d. induction k as [|k IH]; intros d Hd; simpl in *.
  - destruct d; [reflexivity | discriminate].
  - rewrite IH.
    + apply firstn_skipn.
    + rewrite length_skipn. lia.
Qed.

Lemma chunks_length (n k : nat) (d c : list E) :
  length d = (k * n)%nat -> In c (chunks n k d) -> length c = n.
Proof.
  revert d. induction k as [|k IH]; intros d Hd Hin; simpl in *; [contradiction|].
  destruct Hin as [<- | Hin].
  - rewrite length_firstn. lia.
  - apply (IH (skipn n d)); [rewrite length_skipn; lia | exact Hin].
Qed.

Lemma expand_same (s : list nat) (d : list E) :
  length d = numel s -> expand s s d = d.
Proof.
  revert d. induction s as [|a s IH]; intros d Hd; simpl in *; [reflexivity|].
  rewrite Nat.eqb_refl.
  rewrite <- (concat_chunks (numel s) a d) at 2 by exact Hd.
  f_equal. rewrite <- (map_id (chunks (numel s) a d)) at 2.
  apply map_ext_in. intros c Hc. apply IH.
  eapply chunks_length; eauto.
Qed.

Lemma broadcast_to_same (t : Tensor E) :
  well_shaped t -> broadcast_to (shape t) t = data t.
Proof.
  intros Hw. unfold broadcast_to. rewrite pad_shape_same. apply expand_same, Hw.
Qed.

Lemma elemwise2_same_shape (f : E -> E -> E) (a b : Tensor E) :
  shape a = shape b -> well_shaped a -> well_shaped b ->
  elemwise2 f (OfTensor a) (OfTensor b)
  = Ok (mkTensor (shape a) (zip_with_k f (data a) (data b))).
Proof.
  intros Hs Ha Hb. unfold elemwise2. simpl.
  rewrite <- Hs, bcast_shape_same, broadcast_to_same by exact Ha.
  rewrite Hs, broadcast_to_same by exact Hb. reflexivity.
Qed.

Lemma sum_upto_ext (f g : nat -> E) (n : nat) :
  (forall i, (i < n)%nat -> f i = g i) -> sum_upto f n = sum_upto g n.
Proof.
  induction n as [|n IH]; intros H; simpl; [reflexivity|].
  rewrite IH by (intros; apply H; lia). rewrite H by lia. reflexivity.
Qed.

Lemma reduce_sum_index (d : list E) (z : E) :
  reduce_sum d = sum_upto (fun n => nth n d z) (length d).
Proof.
  unfold reduce_sum.
  induction d as [|x d IH] using rev_ind; [reflexivity|].
  rewrite fold_left_app, length_app, Nat.add_comm. simpl.
  rewrite IH. f_equal.
  - apply sum_upto_ext. intros i Hi. rewrite app_nth1 by exact Hi. reflexivity.
  - rewrite app_nth2, Nat.sub_diag by lia. reflexivity.
Qed.

Lemma zip_with_k_length (f : E -> E -> E) (l1 l2 : list E) :
  length l1 = length l2 -> length (zip_with_k f l1 l2) = length l1.
Proof.
  revert l2. induction l1 as [|x l1 IH]; intros [|y l2] H; simpl in *; try lia.
  rewrite IH; lia.
Qed.

Lemma zip_with_k_nth (f : E -> E -> E) (l1 l2 : list E) (z : E) (n : nat) :
  length l1 = length l2 -> (n < length l1)%nat ->
  nth n (zip_with_k f l1 l2) z = f (nth n l1 z) (nth n l2 z).
Proof.
  revert l2 n. induction l1 as [|x l1 IH]; intros [|y l2] n H Hn; simpl in *; try lia.
  destruct n as [|n]; [reflexivity|]. apply IH; lia.
Qed.

Lemma mean_index (t : Tensor E) :
  mean t = mkTensor [1%nat] [mean_upto (item t) (length (data t))].
Proof.
  unfold mean, mean_upto, item. rewrite (reduce_sum_index _ (e_of_int 0)). reflexivity.
Qed.

Lemma mean_upto_ext (f g : nat -> E) (n : nat) :
  (forall i, (i < n)%nat -> f i = g i) -> mean_upto f n = mean_upto g n.
Proof. intros H. unfold mean_upto. rewrite (sum_upto_ext f g) by exact H. reflexivity. Qed.

Lemma l1_loss_formula (pred label : Tensor E) :
  shape pred = shape label -> well_shaped pred -> well_shaped label ->
  l1_loss pred label
  = Ok (mkTensor [1%nat]
          [mean_upto (fun n => e_abs (e_sub (item pred n) (item label n)))
             (numel (shape pred))]).
Proof.
  intros Hs Hp Hl. unfold l1_loss, sub.
  rewrite elemwise2_same_shape by assumption. simpl.
  assert (Hlen : length (data pred) = length (data label)).
  { unfold well_shaped in *. congruence. }
  rewrite mean_index. simpl.
  rewrite length_map, zip_with_k_length, Hp by exact Hlen.
  do 3 f_equal. apply mean_upto_ext. intros i Hi. unfold item; simpl.
  rewrite <- Hp in Hi.
  rewrite (nth_indep _ _ (e_abs (e_of_int 0)))
    by (rewrite length_map, zip_with_k_length; assumption).
  rewrite map_nth, zip_with_k_nth by assumption. reflexivity.
Qed.

Lemma numel_ones (k : nat) : numel (repeat 1%nat k) = 1%nat.
Proof. induction k as [|k IH]; simpl; [reflexivity | rewrite IH; reflexivity]. Qed.

Lemma concat_repeat_repeat (c : E) (m b : nat) :
  concat (repeat (repeat c m) b) = repeat c (b * m).
Proof.
  induction b as [|b IH]; simpl; [reflexivity|].
  rewrite IH, repeat_app. reflexivity.
Qed.

Lemma expand_ones (t : list nat) (c : E) :
  expand (repeat 1%nat (length t)) t [c] = repeat c (numel t).
Proof.
  induction t as [|b t IH]; simpl; [reflexivity|].
  rewrite numel_ones, IH. destruct b as [|[|b]].
  - reflexivity.
  - simpl. rewrite IH, !app_nil_r, Nat.add_0_r. reflexivity.
  - apply concat_repeat_repeat.
Qed.

Lemma pad_shape_one (s : list nat) :
  s <> [] -> pad_shape (length s) [1%nat] = repeat 1%nat (length s).
Proof.
  intros Hs. unfold pad_shape. destruct s as [|a s]; [congruence|].
  simpl. rewrite Nat.sub_0_r. change [1%nat] with (repeat 1%nat 1).
  rewrite <- repeat_app, Nat.add_comm. reflexivity.
Qed.

Lemma bcast_rev_scalar_r (a : nat) (r : list nat) :
  bcast_rev (a :: r) [1%nat] = Some (a :: r).
Proof. destruct r; destruct a as [|[|a]]; reflexivity. Qed.

Lemma bcast_rev_scalar_l (b : nat) (r : list nat) :
  bcast_rev [1%nat] (b :: r) = Some (b :: r).
Proof. destruct r; destruct b as [|[|b]]; reflexivity. Qed.

Lemma rev_cons_inv (s : list nat) : s <> [] -> exists a r, rev s = a :: r.
Proof.
  intros Hs. destruct (rev s) as [|a r] eqn:Hr; [|eauto].
  apply (f_equal (@rev nat)) in Hr. rewrite rev_involutive in Hr. contradiction.
Qed.

Lemma bcast_shape_scalar_r (s : list nat) : s <> [] -> bcast_shape s [1%nat] = Some s.
Proof.
  intros Hs. destruct (rev_cons_inv s Hs) as (a & r & Hr).
  unfold bcast_shape. change (rev [1%nat]) with [1%nat].
  rewrite Hr, bcast_rev_scalar_r, <- Hr, rev_involutive. reflexivity.
Qed.

Lemma bcast_shape_scalar_l (s : list nat) : s <> [] -> bcast_shape [1%nat] s = Some s.
Proof.
  intros Hs. destruct (rev_cons_inv s Hs) as (a & r & Hr).
  unfold bcast_shape. change (rev [1%nat]) with [1%nat].
  rewrite Hr, bcast_rev_scalar_l, <- Hr, rev_involutive. reflexivity.
Qed.

Lemma zip_with_k_repeat_r (f : E -> E -> E) (d : list E) (c : E) :
  zip_with_k f d (repeat c (length d)) = map (fun x => f x c) d.
Proof. induction d as [|x d IH]; simpl; [reflexivity | rewrite IH; reflexivity]. Qed.

Lemma zip_with_k_repeat_l (f : E -> E -> E) (d : list E) (c : E) :
  zip_with_k f (repeat c (length d)) d = map (f c) d.
Proof. induction d as [|x d IH]; simpl; [reflexivity | rewrite IH; reflexivity]. Qed.

Lemma elemwise2_scalar_r (f : E -> E -> E) (a : Tensor E) (o : operand E) (c : E) :
  scalar_operand o = Some c -> shape a <> [] -> well_shaped a ->
  elemwise2 f (OfTensor a) o
  = Ok (mkTensor (shape a) (map (fun x => f x c) (data a))).
Proof.
  intros Ho Hs Ha.
  assert (Ht : as_tensor o = mkTensor [1%nat] [c]).
  { destruct o; simpl in Ho; inversion Ho; reflexivity. }
  unfold elemwise2. rewrite Ht. simpl.
  rewrite bcast_shape_scalar_r, broadcast_to_same by assumption.
  unfold broadcast_to. simpl shape. simpl data.
  rewrite pad_shape_one, expand_ones by assumption.
  rewrite <- Ha, zip_with_k_repeat_r. reflexivity.
Qed.

Lemma elemwise2_scalar_l (f : E -> E -> E) (a : Tensor E) (o : operand E) (c : E) :
  scalar_operand o = Some c -> shape a <> [] -> well_shaped a ->
  elemwise2 f o (OfTensor a)
  = Ok (mkTensor (shape a) (map (f c) (data a))).
Proof.
  intros Ho Hs Ha.
  assert (Ht : as_tensor o = mkTensor [1%nat] [c]).
  { destruct o; simpl in Ho; inversion Ho; reflexivity. }
  unfold elemwise2. rewrite Ht. simpl.
  rewrite bcast_shape_scalar_l, broadcast_to_same by assumption.
  unfold broadcast_to. simpl shape. simpl data.
  rewrite pad_shape_one, expand_ones by assumption.
  rewrite <- Ha, zip_with_k_repeat_l. reflexivity.
Qed.

Lemma well_shaped_zip (f : E -> E -> E) (a b : Tensor E) :
  shape a = shape b -> well_shaped a -> well_shaped b ->
  well_shaped (mkTensor (shape a) (zip_with_k f (data a) (data b))).
Proof.
  unfold well_shaped. intros Hs Ha Hb. simpl.
  rewrite zip_with_k_length; congruence.
Qed.

Lemma well_shaped_map (f : E -> E) (a : Tensor E) :
  well_shaped a -> well_shaped (mkTensor (shape a) (map f (data a))).
Proof. unfold well_shaped. intros Ha. simpl. rewrite length_map. exact Ha. Qed.

Lemma square_loss_formula (pred label : Tensor E) :
  shape pred = shape label -> shape pred <> [] ->
  well_shaped pred -> well_shaped label ->
  square_loss pred label
  = Ok (mkTensor [1%nat]
          [mean_upto (fun n => e_pow (e_sub (item pred n) (item label n)) (e_of_int 2))
             (numel (shape pred))]).
Proof.
  intros Hs Hne Hp Hl. unfold square_loss, sub, pow.
  rewrite elemwise2_same_shape by assumption. simpl.
  rewrite (elemwise2_scalar_r _ _ _ (e_of_int 2));
    [| reflexivity | exact Hne | apply well_shaped_zip; assumption ].
  simpl.
  assert (Hlen : length (data pred) = length (data label)).
  { unfold well_shaped in *. congruence. }
  rewrite mean_index. simpl.
  rewrite length_map, zip_with_k_length, Hp by exact Hlen.
  do 3 f_equal. apply mean_upto_ext. intros i Hi. unfold item; simpl.
  rewrite <- Hp in Hi.
  rewrite (nth_indep _ _ (e_pow (e_of_int 0) (e_of_int 2)))
    by (rewrite length_map, zip_with_k_length; assumption).
  rewrite (map_nth (fun x => e_pow x (e_of_int 2))), zip_with_k_nth by assumption.
  reflexivity.
Qed.

Lemma nth_map_lt (f : E -> E) (d : list E) (z : E) (n : nat) :
  (n < length d)%nat -> nth n (map f d) z = f (nth n d z).
Proof.
  intros Hn. rewrite (nth_indep _ z (f z)) by (rewrite length_map; exact Hn).
  apply map_nth.
Qed.

Lemma binary_cross_entropy_formula (pred label : Tensor E) :
  shape pred = shape label -> shape pred <> [] ->
  well_shaped pred -> well_shaped label ->
  binary_cross_entropy pred label
  = Ok (mkTensor [1%nat]
          [e_mul (e_of_float (float_of_Z (-1)))
             (mean_upto (bce_term pred label) (numel (shape pred)))]).
Proof.
  intros Hs Hne Hp Hl.
  assert (Hlen : length (data pred) = length (data label)).
  { unfold well_shaped in *. congruence. }
  assert (Hne' : shape label <> []) by congruence.
  destruct pred as [s P], label as [s' L]. simpl in Hs, Hne, Hne', Hlen. subst s'.
  unfold well_shaped in Hp, Hl. simpl in Hp, Hl.
  unfold binary_cross_entropy, sub, mul, add, log, elemwise1. simpl.
  rewrite (elemwise2_same_shape e_mul (mkTensor s L) (mkTensor s (map e_log P)));
    [| reflexivity | exact Hl | unfold well_shaped; simpl; rewrite length_map; exact Hp ].
  simpl.
  rewrite (elemwise2_scalar_l e_sub (mkTensor s L) _ (e_of_float (float_of_Z 1)));
    [| reflexivity | exact Hne | exact Hl ].
  simpl.
  rewrite (elemwise2_scalar_l e_sub (mkTensor s P) _ (e_of_int 1));
    [| reflexivity | exact Hne | exact Hp ].
  simpl.
  rewrite (elemwise2_same_shape e_mul (mkTensor s (map _ L)) (mkTensor s (map e_log (map _ P))));
    [| reflexivity
     | unfold well_shaped; simpl; rewrite length_map; exact Hl
     | unfold well_shaped; simpl; rewrite !length_map; exact Hp ].
  simpl.
  rewrite (elemwise2_same_shape e_add (mkTensor s _) (mkTensor s _));
    [| reflexivity
     | unfold well_shaped; simpl;
       rewrite zip_with_k_length by (rewrite ?length_map; congruence); exact Hl
     | unfold well_shaped; simpl;
       rewrite zip_with_k_length, ?length_map by (rewrite ?length_map; congruence);
       exact Hl ].
  simpl.
  rewrite mean_index. unfold elemwise2. simpl. do 3 f_equal.
  assert (HN : length (zip_with_k e_add (zip_with_k e_mul L (map e_log P))
                 (zip_with_k e_mul (map (e_sub (e_of_float (float_of_Z 1))) L)
                    (map e_log (map (e_sub (e_of_int 1)) P)))) = numel s).
  { repeat (rewrite zip_with_k_length || rewrite length_map); congruence. }
  rewrite HN. f_equal.
  apply mean_upto_ext. intros i Hi. rewrite <- Hp in Hi.
  unfold item, bce_term. simpl.
  rewrite zip_with_k_nth;
    [| repeat (rewrite zip_with_k_length || rewrite length_map); congruence
     | repeat (rewrite zip_with_k_length || rewrite length_map); congruence ].
  rewrite !zip_with_k_nth by (rewrite ?length_map; congruence).
  rewrite !nth_map_lt by (rewrite ?length_map; congruence).
  reflexivity.
Qed.
End LossFacts.

(** ** Bounds on the natural logarithm of one half *)

Section LogBounds.
Local Open Scope R_scope.

Lemma exp_double_lb (h a a' : R) :
  0 <= a -> a <= exp h -> a' <= a * a -> a' <= exp (2 * h).
Proof.
  intros Ha Hh Ha'. replace (2 * h) with (h + h) by ring. rewrite exp_plus.
  apply Rle_trans with (a * a); [exact Ha'|].
  apply Rmult_le_compat; assumption.
Qed.

Lemma exp_6932_gt_2 : 2 < exp (6932 / 10000).
Proof.
  assert (H0 : 1.000084619140625 <= exp (6932 / 10000 / 8192)).
  { eapply Rle_trans; [| apply exp_ineq1_le]. lra. }
  assert (H1 : 1.000169245441648 <= exp (6932 / 10000 / 4096)).
  { replace (6932 / 10000 / 4096) with (2 * (6932 / 10000 / 8192)) by field.
    apply exp_double_lb with (a := 1.000084619140625); [lra | exact H0 | lra]. }
  assert (H2 : 1.000338519527315 <= exp (6932 / 10000 / 2048)).
  { replace (6932 / 10000 / 2048) with (2 * (6932 / 10000 / 4096)) by field.
    apply exp_double_lb with (a := 1.000169245441648); [lra | exact H1 | lra]. }
  assert (H3 : 1.000677153650100 <= exp (6932 / 10000 / 1024)).
  { replace (6932 / 10000 / 1024) with (2 * (6932 / 10000 / 2048)) by field.
    apply exp_double_lb with (a := 1.000338519527315); [lra | exact H2 | lra]. }
  assert (H4 : 1.001354765837265 <= exp (6932 / 10000 / 512)).
  { replace (6932 / 10000 / 512) with (2 * (6932 / 10000 / 1024)) by field.
    apply exp_double_lb with (a := 1.000677153650100); [lra | exact H3 | lra]. }
  assert (H5 : 1.002711367065003 <= exp (6932 / 10000 / 256)).
  { replace (6932 / 10000 / 256) with (2 * (6932 / 10000 / 512)) by field.
    apply exp_double_lb with (a := 1.001354765837265); [lra | exact H4 | lra]. }
  assert (H6 : 1.005430085641367 <= exp (6932 / 10000 / 128)).
  { replace (6932 / 10000 / 128) with (2 * (6932 / 10000 / 256)) by field.
    apply exp_double_lb with (a := 1.002711367065003); [lra | exact H5 | lra]. }
  assert (H7 : 1.010889657112806 <= exp (6932 / 10000 / 64)).
  { replace (6932 / 10000 / 64) with (2 * (6932 / 10000 / 128)) by field.
    apply exp_double_lb with (a := 1.005430085641367); [lra | exact H6 | lra]. }
  assert (H8 : 1.021897898857646 <= exp (6932 / 10000 / 32)).
  { replace (6932 / 10000 / 32) with (2 * (6932 / 10000 / 64)) by field.
    apply exp_double_lb with (a := 1.010889657112806); [lra | exact H7 | lra]. }
  assert (H9 : 1.044275315689671 <= exp (6932 / 10000 / 16)).
  { replace (6932 / 10000 / 16) with (2 * (6932 / 10000 / 32)) by field.
    apply exp_double_lb with (a := 1.021897898857646); [lra | exact H8 | lra]. }
  assert (H10 : 1.090510934958762 <= exp (6932 / 10000 / 8)).
  { replace (6932 / 10000 / 8) with (2 * (6932 / 10000 / 16)) by field.
    apply exp_double_lb with (a := 1.044275315689671); [lra | exact H9 | lra]. }
  assert (H11 : 1.189214099264633 <= exp (6932 / 10000 / 4)).
  { replace (6932 / 10000 / 4) with (2 * (6932 / 10000 / 8)) by field.
    apply exp_double_lb with (a := 1.090510934958762); [lra | exact H10 | lra]. }
  assert (H12 : 1.414230173889792 <= exp (6932 / 10000 / 2)).
  { replace (6932 / 10000 / 2) with (2 * (6932 / 10000 / 4)) by field.
    apply exp_double_lb with (a := 1.189214099264633); [lra | exact H11 | lra]. }
  assert (H13 : 2.000046984740351 <= exp (6932 / 10000 / 1)).
  { replace (6932 / 10000 / 1) with (2 * (6932 / 10000 / 2)) by field.
    apply exp_double_lb with (a := 1.414230173889792); [lra | exact H12 | lra]. }
  replace (6932 / 10000) with (6932 / 10000 / 1) by field. lra.
Qed.

Lemma exp_m6930_gt_half : 1/2 < exp (-6930 / 10000).
Proof.
  assert (H0 : 0.999830810546875 <= exp (-6930 / 10000 / 4096)).
  { eapply Rle_trans; [| apply exp_ineq1_le]. lra. }
  assert (H1 : 0.999661649718821 <= exp (-6930 / 10000 / 2048)).
  { replace (-6930 / 10000 / 2048) with (2 * (-6930 / 10000 / 4096)) by field.
    apply exp_double_lb with (a := 0.999830810546875); [lra | exact H0 | lra]. }
  assert (H2 : 0.999323413918554 <= exp (-6930 / 10000 / 1024)).
  { replace (-6930 / 10000 / 1024) with (2 * (-6930 / 10000 / 2048)) by field.
    apply exp_double_lb with (a := 0.999661649718821); [lra | exact H1 | lra]. }
  assert (H3 : 0.998647285605833 <= exp (-6930 / 10000 / 512)).
  { replace (-6930 / 10000 / 512) with (2 * (-6930 / 10000 / 1024)) by field.
    apply exp_double_lb with (a := 0.999323413918554); [lra | exact H2 | lra]. }
  assert (H4 : 0.997296401047898 <= exp (-6930 / 10000 / 256)).
  { replace (-6930 / 10000 / 256) with (2 * (-6930 / 10000 / 512)) by field.
    apply exp_double_lb with (a := 0.998647285605833); [lra | exact H3 | lra]. }
  assert (H5 : 0.994600111543089 <= exp (-6930 / 10000 / 128)).
  { replace (-6930 / 10000 / 128) with (2 * (-6930 / 10000 / 256)) by field.
    apply exp_double_lb with (a := 0.997296401047898); [lra | exact H4 | lra]. }
  assert (H6 : 0.989229381881525 <= exp (-6930 / 10000 / 64)).
  { replace (-6930 / 10000 / 64) with (2 * (-6930 / 10000 / 128)) by field.
    apply exp_double_lb with (a := 0.994600111543089); [lra | exact H5 | lra]. }
  assert (H7 : 0.978574769977704 <= exp (-6930 / 10000 / 32)).
  { replace (-6930 / 10000 / 32) with (2 * (-6930 / 10000 / 64)) by field.
    apply exp_double_lb with (a := 0.989229381881525); [lra | exact H6 | lra]. }
  assert (H8 : 0.957608580436916 <= exp (-6930 / 10000 / 16)).
  { replace (-6930 / 10000 / 16) with (2 * (-6930 / 10000 / 32)) by field.
    apply exp_double_lb with (a := 0.978574769977704); [lra | exact H7 | lra]. }
  assert (H9 : 0.917014193326405 <= exp (-6930 / 10000 / 8)).
  { replace (-6930 / 10000 / 8) with (2 * (-6930 / 10000 / 16)) by field.
    apply exp_double_lb with (a := 0.957608580436916); [lra | exact H8 | lra]. }
  assert (H10 : 0.840915030762077 <= exp (-6930 / 10000 / 4)).
  { replace (-6930 / 10000 / 4) with (2 * (-6930 / 10000 / 8)) by field.
    apply exp_double_lb with (a := 0.917014193326405); [lra | exact H9 | lra]. }
  assert (H11 : 0.707138088961584 <= exp (-6930 / 10000 / 2)).
  { replace (-6930 / 10000 / 2) with (2 * (-6930 / 10000 / 4)) by field.
    apply exp_double_lb with (a := 0.840915030762077); [lra | exact H10 | lra]. }
  assert (H12 : 0.500044276860241 <= exp (-6930 / 10000 / 1)).
  { replace (-6930 / 10000 / 1) with (2 * (-6930 / 10000 / 2)) by field.
    apply exp_double_lb with (a := 0.707138088961584); [lra | exact H11 | lra]. }
  replace (-6930 / 10000) with (-6930 / 10000 / 1) by field. lra.
Qed.

Lemma ln_half_bounds : -0.6932 < ln (/ 2) < -0.6930.
Proof.
  assert (Hh : exp (ln (/ 2)) = / 2) by (apply exp_ln; lra).
  split; apply exp_lt_inv; rewrite Hh.
  - replace (-0.6932) with (- (6932 / 10000)) by lra.
    rewrite exp_Ropp. apply Rinv_lt_contravar; [| exact exp_6932_gt_2].
    apply Rmult_lt_0_compat; [lra | apply exp_pos].
  - replace (-0.6930) with (-6930 / 10000) by lra.
    pose proof exp_m6930_gt_half. lra.
Qed.

Lemma SF2R_one : SF2R (float_of_Z 1) = 1.
Proof.
  change (float_of_Z 1) with (S754_finite false 4503599627370496 (-52)).
  unfold SF2R, cond_Zopp, powerRZ.
  replace (2 ^ Pos.to_nat 52) with 4503599627370496.
  - field.
  - change (Pos.to_nat 52) with 52%nat. simpl. lra.
Qed.

Lemma SF2R_minus_one : SF2R (float_of_Z (-1)) = -1.
Proof.
  change (float_of_Z (-1)) with (S754_finite true 4503599627370496 (-52)).
  unfold SF2R, cond_Zopp, powerRZ. rewrite opp_IZR.
  replace (2 ^ Pos.to_nat 52) with 4503599627370496.
  - field.
  - change (Pos.to_nat 52) with 52%nat. simpl. lra.
Qed.

Lemma real_sum_upto_opp (f : nat -> R) (n : nat) :
  @sum_upto R real_ops (fun i => - f i) n = - @sum_upto R real_ops f n.
Proof.
  induction n as [|n IH]; simpl.
  - lra.
  - rewrite IH. lra.
Qed.

Lemma real_mean_upto_opp (f : nat -> R) (n : nat) :
  -1 * @mean_upto R real_ops f n = @mean_upto R real_ops (fun i => - f i) n.
Proof.
  unfold mean_upto. rewrite real_sum_upto_opp. simpl. unfold Rdiv. ring.
Qed.
End LogBounds.

(** ** The losses *)

(** C6. [l1_loss pred label] is the one-element tensor holding the mean of
    [|pred_n - label_n|] over all elements, whatever the kernels; with
    float32 kernels, [pred = [3,3,3,3]] and [label = [2,8,6,1]] give exactly
    2.75 (= 11/4). *)
Theorem l1_loss_is_mean_abs :
  (forall (E : Type) (ops : ElemOps E) (pred label : Tensor E),
      shape pred = shape label -> well_shaped pred -> well_shaped label ->
      l1_loss pred label
      = Ok (mkTensor [1%nat]
              [mean_upto (fun n => e_abs (e_sub (item pred n) (item label n)))
                 (numel (shape pred))]))
  /\ (forall logk powk,
         @l1_loss f32 (f32_ops logk powk)
           (f32_vector [3; 3; 3; 3]%Z) (f32_vector [2; 8; 6; 1]%Z)
         = Ok (mkTensor [1%nat] [f32_of_float (float_of_dyadic 11 (-2))]))
  /\ SF2R (f32_of_float (float_of_dyadic 11 (-2))) = 2.75%R.
Proof.
  split; [| split].
  - intros E ops pred label. apply l1_loss_formula.
  - intros logk powk. vm_compute. reflexivity.
  - change (f32_of_float (float_of_dyadic 11 (-2)))
      with (S754_finite false 11534336 (-22)).
    unfold SF2R, cond_Zopp, powerRZ.
    replace (2 ^ Pos.to_nat 22)%R with 4194304%R.
    + lra.
    + change (Pos.to_nat 22) with 22%nat. simpl. lra.
Qed.

Lemma l1_loss_is_mean_abs_witness :
  let ops := f32_ops (fun x => x) (fun x _ => x) in
  let pred := f32_vector [3; 3; 3; 3]%Z in
  let label := f32_vector [2; 8; 6; 1]%Z in
  shape pred = shape label /\ well_shaped pred /\ well_shaped label /\
  @l1_loss f32 ops pred label
  = Ok (mkTensor [1%nat]
          [@mean_upto f32 ops
             (fun n => SFabs (SFsub 24 128 (@item f32 ops pred n) (@item f32 ops label n)))
             4]).
Proof.
  intros ops pred label.
  assert (Hs : shape pred = shape label) by reflexivity.
  assert (Hp : well_shaped pred) by reflexivity.
  assert (Hl : well_shaped label) by reflexivity.
  refine (conj Hs (conj Hp (conj Hl _))).
  exact (proj1 l1_loss_is_mean_abs f32 ops pred label Hs Hp Hl).
Defined.

(** C7. [square_loss pred label] is the one-element tensor holding the mean
    of [(pred_n - label_n) ** 2] over all elements, whatever the kernels;
    with float32 kernels, [pred = [3,3,3,3]] and [label = [2,8,6,1]] give
    exactly 9.75 (= 39/4). *)
Theorem square_loss_is_mean_square :
  (forall (E : Type) (ops : ElemOps E) (pred label : Tensor E),
      shape pred = shape label -> shape pred <> [] ->
      well_shaped pred -> well_shaped label ->
      square_loss pred label
      = Ok (mkTensor [1%nat]
              [mean_upto
                 (fun n => e_pow (e_sub (item pred n) (item label n)) (e_of_int 2))
                 (numel (shape pred))]))
  /\ (forall logk powk,
         @square_loss f32 (f32_ops logk powk)
           (f32_vector [3; 3; 3; 3]%Z) (f32_vector [2; 8; 6; 1]%Z)
         = Ok (mkTensor [1%nat] [f32_of_float (float_of_dyadic 39 (-2))]))
  /\ SF2R (f32_of_float (float_of_dyadic 39 (-2))) = 9.75%R.
Proof.
  split; [| split].
  - intros E ops pred label. apply square_loss_formula.
  - intros logk powk. vm_compute. reflexivity.
  - change (f32_of_float (float_of_dyadic 39 (-2)))
      with (S754_finite false 10223616 (-20)).
    unfold SF2R, cond_Zopp, powerRZ.
    replace (2 ^ Pos.to_nat 20)%R with 1048576%R.
    + lra.
    + change (Pos.to_nat 20) with 20%nat. simpl. lra.
Qed.

Lemma square_loss_is_mean_square_witness :
  let ops := f32_ops (fun x => x) (fun x _ => x) in
  let pred := f32_vector [3; 3; 3; 3]%Z in
  let label := f32_vector [2; 8; 6; 1]%Z in
  shape pred = shape label /\ shape pred <> [] /\
  well_shaped pred /\ well_shaped label /\
  @square_loss f32 ops pred label
  = Ok (mkTensor [1%nat]
          [@mean_upto f32 ops
             (fun n => f32_pow (fun x _ => x)
                         (SFsub 24 128 (@item f32 ops pred n) (@item f32 ops label n))
                         (f32_of_Z 2))
             4]).
Proof.
  intros ops pred label.
  assert (Hs : shape pred = shape label) by reflexivity.
  assert (Hn : shape pred <> []) by discriminate.
  assert (Hp : well_shaped pred) by reflexivity.
  assert (Hl : well_shaped label) by reflexivity.
  refine (conj Hs (conj Hn (conj Hp (conj Hl _)))).
  exact (proj1 square_loss_is_mean_square f32 ops pred label Hs Hn Hp Hl).
Defined.

Lemma bce_f32 (logk : f32 -> f32) (powk : f32 -> f32 -> f32) :
  logk f32_half = f32_ln_half ->
  @binary_cross_entropy f32 (f32_ops logk powk)
     (mkTensor [1; 2]%nat [f32_half; f32_half])
     (mkTensor [1; 2]%nat [f32_of_Z 1; f32_of_Z 1])
  = Ok (mkTensor [1%nat] [SFopp f32_ln_half]).
Proof.
  intros H.
  rewrite binary_cross_entropy_formula;
    [| reflexivity | discriminate | reflexivity | reflexivity].
  change (numel (shape (mkTensor [1; 2]%nat [f32_half; f32_half]))) with 2%nat.
  unfold mean_upto. cbn [sum_upto]. unfold bce_term, item.
  cbn [data nth e_add e_mul e_sub e_log e_of_int e_of_float e_true_div f32_ops].
  replace (SFsub 24 128 (f32_of_Z 1) f32_half) with f32_half
    by (vm_compute; reflexivity).
  rewrite H. vm_compute. reflexivity.
Qed.

Lemma f32_ln_half_value :
  (Rabs (SF2R (SFopp f32_ln_half) - 0.6931) < 0.0001)%R.
Proof.
  unfold f32_ln_half, SFopp, SF2R, cond_Zopp, powerRZ. cbn [negb].
  replace (2 ^ Pos.to_nat 24)%R with 16777216%R
    by (change (Pos.to_nat 24) with 24%nat; simpl; lra).
  apply Rabs_def1; lra.
Qed.

(** C8. With the ideal (real-number) kernels, [binary_cross_entropy pred
    label] is the one-element tensor holding the mean of
    [-(label_n * log pred_n + (1 - label_n) * log (1 - pred_n))]; for any
    kernels it is [-1.0] times the mean of the bracket, as the code computes
    it.  For [pred = [[0.5, 0.5]]] and [label = [[1, 1]]] the value lies
    within 1e-4 of 0.6931: with the ideal kernels, and with float32 kernels
    whose log returns [f32_ln_half] at 0.5, where the arithmetic around the
    log is exact. *)
Theorem binary_cross_entropy_is_mean :
  (forall (E : Type) (ops : ElemOps E) (pred label : Tensor E),
      shape pred = shape label -> shape pred <> [] ->
      well_shaped pred -> well_shaped label ->
      binary_cross_entropy pred label
      = Ok (mkTensor [1%nat]
              [e_mul (e_of_float (float_of_Z (-1)))
                 (mean_upto (bce_term pred label) (numel (shape pred)))]))
  /\ (forall pred label : Tensor R,
         shape pred = shape label -> shape pred <> [] ->
         well_shaped pred -> well_shaped label ->
         @binary_cross_entropy R real_ops pred label
         = Ok (mkTensor [1%nat]
                 [@mean_upto R real_ops
                    (fun n => (- (nth n (data label) 0 * ln (nth n (data pred) 0)
                                  + (1 - nth n (data label) 0)
                                    * ln (1 - nth n (data pred) 0)))%R)
                    (numel (shape pred))]))
  /\ (exists v : R,
         @binary_cross_entropy R real_ops
           (mkTensor [1; 2]%nat [0.5; 0.5]%R) (mkTensor [1; 2]%nat [1; 1]%R)
         = Ok (mkTensor [1%nat] [v])
         /\ (Rabs (v - 0.6931) < 0.0001)%R)
  /\ (forall (logk : f32 -> f32) (powk : f32 -> f32 -> f32),
         logk f32_half = f32_ln_half ->
         @binary_cross_entropy f32 (f32_ops logk powk)
           (mkTensor [1; 2]%nat [f32_half; f32_half])
           (mkTensor [1; 2]%nat [f32_of_Z 1; f32_of_Z 1])
         = Ok (mkTensor [1%nat] [SFopp f32_ln_half]))
  /\ (Rabs (SF2R (SFopp f32_ln_half) - 0.6931) < 0.0001)%R.
Proof.
  assert (HR : forall pred label : Tensor R,
             shape pred = shape label -> shape pred <> [] ->
             well_shaped pred -> well_shaped label ->
             @binary_cross_entropy R real_ops pred label
             = Ok (mkTensor [1%nat]
                     [@mean_upto R real_ops
                        (fun n => (- (nth n (data label) 0 * ln (nth n (data pred) 0)
                                      + (1 - nth n (data label) 0)
                                        * ln (1 - nth n (data pred) 0)))%R)
                        (numel (shape pred))])).
  { intros pred label Hs Hn Hp Hl.
    rewrite binary_cross_entropy_formula by assumption.
    do 3 f_equal. cbn [e_mul e_of_float real_ops].
    rewrite SF2R_minus_one, real_mean_upto_opp.
    apply mean_upto_ext. intros i _. unfold bce_term, item.
    cbn [e_add e_mul e_sub e_log e_of_float e_of_int real_ops].
    rewrite SF2R_one. reflexivity. }
  split; [| split; [| split; [| split]]].
  4: exact bce_f32.
  4: exact f32_ln_half_value.
  - intros E ops pred label. apply binary_cross_entropy_formula.
  - exact HR.
  - eexists. split.
    + apply HR; [reflexivity | discriminate | reflexivity | reflexivity].
    + unfold mean_upto. cbn.
      pose proof ln_half_bounds as [Hlo Hhi].
      replace 0.5%R with (/ 2)%R by lra.
      set (L := ln (/ 2)) in *. set (L' := ln (1 - / 2)).
      change (IZR (Z.of_nat 2)) with 2%R.
      replace ((0 + - (1 * L + (1 - 1) * L') + - (1 * L + (1 - 1) * L')) / 2)%R
        with (- L)%R by field.
      apply Rabs_def1; lra.
Qed.

Lemma binary_cross_entropy_is_mean_witness :
  let pred := mkTensor [1; 2]%nat [0.5; 0.5]%R in
  let label := mkTensor [1; 2]%nat [1; 1]%R in
  shape pred = shape label /\ shape pred <> [] /\
  well_shaped pred /\ well_shaped label /\
  @binary_cross_entropy R real_ops pred label
  = Ok (mkTensor [1%nat]
          [(SF2R (float_of_Z (-1))
            * @mean_upto R real_ops (@bce_term R real_ops pred label) 2)%R]).
Proof.
  intros pred label.
  assert (Hs : shape pred = shape label) by reflexivity.
  assert (Hn : shape pred <> []) by discriminate.
  assert (Hp : well_shaped pred) by reflexivity.
  assert (Hl : well_shaped label) by reflexivity.
  refine (conj Hs (conj Hn (conj Hp (conj Hl _)))).
  exact (proj1 binary_cross_entropy_is_mean R real_ops pred label Hs Hn Hp Hl).
Defined.

End loss_facts.

(** * Facts about the tensor facade *)

Module tensor_facts.
Import tensor.

Ltac heap_simpl :=
  repeat (rewrite lookup_insert_eq || rewrite lookup_insert_ne by lia).

Ltac run_step :=
  unfold bind, ret, raise, alloc, store, load;
  cbn [fst snd heap next_id default_device dmap_callback rng];
  heap_simpl.

Section FacadeFacts.
Context {native : Native}.

Lemma bind_ok {A B : Type} (m : M A) (k : A -> M B) (w w' : World) (a : A) :
  m w = (Ok a, w') -> bind m k w = k a w'.
Proof. intros H. unfold bind. rewrite H. reflexivity. Qed.

Lemma bind_raise {A B : Type} (m : M A) (k : A -> M B) (w w' : World) (e : exn) :
  m w = (Raise e, w') -> bind m k w = (Raise e, w').
Proof. intros H. unfold bind. rewrite H. reflexivity. Qed.

(** ** Reading a tensor *)

Lemma load_inv (a : addr) (w w' : World) (o : obj) :
  load a w = (Ok o, w') -> w' = w /\ heap w !! a = Some o.
Proof.
  unfold load. destruct (heap w !! a) as [o'|]; intros H; inversion H; auto.
Qed.

Lemma load_some (a : addr) (w : World) (o : obj) :
  heap w !! a = Some o -> load a w = (Ok o, w).
Proof. intros H. unfold load. rewrite H. reflexivity. Qed.

Lemma resident_inv (t : addr) (w w' : World) (p : ndarray * CompNode) :
  resident t w = (Ok p, w') -> w' = w /\ backed w t (fst p) (snd p).
Proof.
  unfold resident, get_wrapped, bind, load, ret, raise.
  destruct (heap w !! t) as [[| |[c|] q]|] eqn:Ht; try discriminate.
  destruct (heap w !! c) as [[|r|]|] eqn:Hc; try discriminate.
  destruct (heap w !! r) as [[v cn| |]|] eqn:Hr; try discriminate.
  intros H. inversion H; subst. split; [reflexivity|].
  exists c, r, q. auto.
Qed.

Lemma resident_backed (t : addr) (w : World) (v : ndarray) (cn : CompNode) :
  backed w t v cn -> resident t w = (Ok (v, cn), w).
Proof.
  intros (c & r & q & Ht & Hc & Hr).
  unfold resident, get_wrapped, bind, load, ret. rewrite Ht, Hc, Hr. reflexivity.
Qed.

Lemma numpy_backed (t : addr) (w : World) (v : ndarray) (cn : CompNode) :
  backed w t v cn -> numpy t w = (Ok v, w).
Proof.
  intros H. unfold numpy, bind. rewrite (resident_backed _ _ _ _ H). reflexivity.
Qed.

Lemma device_backed (t : addr) (w : World) (v : ndarray) (cn : CompNode) :
  backed w t v cn -> device t w = (Ok cn, w).
Proof.
  intros H. unfold device, bind. rewrite (resident_backed _ _ _ _ H). reflexivity.
Qed.

Lemma dtype_backed (t : addr) (w : World) (v : ndarray) (cn : CompNode) :
  backed w t v cn -> dtype t w = (Ok (nd_dtype v), w).
Proof.
  intros H. unfold dtype, bind. rewrite (resident_backed _ _ _ _ H). reflexivity.
Qed.

Lemma numpy_inv (t : addr) (w w' : World) (v : ndarray) :
  numpy t w = (Ok v, w') -> w' = w /\ exists cn, backed w t v cn.
Proof.
  unfold numpy, bind, ret. destruct (resident t w) as [[p|e] w1] eqn:Hr; [|discriminate].
  intros H. inversion H; subst. apply resident_inv in Hr as [-> Hb].
  split; [reflexivity|]. exists (snd p). exact Hb.
Qed.

Lemma device_inv (t : addr) (w w' : World) (cn : CompNode) :
  device t w = (Ok cn, w') -> w' = w /\ exists v, backed w t v cn.
Proof.
  unfold device, bind, ret. destruct (resident t w) as [[p|e] w1] eqn:Hr; [|discriminate].
  intros H. inversion H; subst. apply resident_inv in Hr as [-> Hb].
  split; [reflexivity|]. exists (fst p). exact Hb.
Qed.

Lemma backed_fun (w : World) (t : addr) (v v' : ndarray) (cn cn' : CompNode) :
  backed w t v cn -> backed w t v' cn' -> v = v' /\ cn = cn'.
Proof.
  intros (c & r & q & Ht & Hc & Hr) (c' & r' & q' & Ht' & Hc' & Hr').
  rewrite Ht in Ht'. inversion Ht'; subst.
  rewrite Hc in Hc'. inversion Hc'; subst.
  rewrite Hr in Hr'. inversion Hr'; subst. auto.
Qed.

(** ** Construction from host data *)

Lemma Tensor_array (w : World) (a : ndarray) (s : string) :
  exists w',
    Tensor (VArray a) VNone (VStr s) w = (Ok (next_id w), w') /\
    heap w' !! next_id w
    = Some (TensorObj (Some (S (S (next_id w)))) (Some (VDict default_q_dict))) /\
    heap w' !! S (S (next_id w)) = Some (CoreTensor (S (next_id w))) /\
    heap w' !! S (next_id w) = Some (RawTensor a (comp_node s)) /\
    default_device w' = default_device w /\
    dmap_callback w' = dmap_callback w /\
    rng w' = rng w /\
    next_id w' = S (S (S (next_id w))) /\
    (forall x, (x < next_id w \/ S (S (S (next_id w))) <= x)%nat ->
               heap w' !! x = heap w !! x).
Proof.
  unfold Tensor, __new__, __init__, get_default_device, set_q_dict, TensorWrapper_init,
    as_raw_tensor, as_array, with_dtype, as_device, set_wrapped.
  repeat run_step.
  eexists. split; [reflexivity|].
  cbn [heap next_id default_device dmap_callback rng].
  repeat split; heap_simpl; try reflexivity.
  intros x Hx. heap_simpl. reflexivity.
Qed.

(** The default device is read when [device] is left out. *)
Lemma Tensor_default (w : World) (data dtype : pyval) :
  Tensor data dtype VNone w = Tensor data dtype (VStr (default_device w)) w.
Proof. reflexivity. Qed.

Lemma wf_Tensor_array (w : World) (a : ndarray) :
  wf w -> wf (snd (Tensor (VArray a) VNone VNone w)).
Proof.
  intros Hwf. rewrite Tensor_default.
  destruct (Tensor_array w a (default_device w))
    as (w' & Ht & _ & _ & _ & _ & _ & _ & Hn & Hf).
  rewrite Ht. cbn [snd]. intros x o Hx. rewrite Hn.
  destruct (decide (x < S (S (S (next_id w))))%nat) as [Hlt|Hge]; [exact Hlt|].
  rewrite Hf in Hx by lia. apply Hwf in Hx. lia.
Qed.

Lemma wf_boot : wf boot.
Proof. intros a o H. cbn in H. rewrite lookup_empty in H. discriminate. Qed.

Lemma Tensor_array_backed (w : World) (a : ndarray) (s : string) :
  exists w',
    Tensor (VArray a) VNone (VStr s) w = (Ok (next_id w), w') /\
    backed w' (next_id w) a (comp_node s).
Proof.
  destruct (Tensor_array w a s) as (w' & Ht & H0 & H2 & H1 & _).
  exists w'. split; [exact Ht|].
  exists (S (S (next_id w))), (S (next_id w)), (Some (VDict default_q_dict)). auto.
Qed.

Lemma init_default (w : World) (self : addr) (data dtype : pyval) :
  __init__ self data dtype VNone w
  = __init__ self data dtype (VStr (default_device w)) w.
Proof. reflexivity. Qed.

Lemma backed_set_default_device (w : World) (t : addr) (v : ndarray) (cn : CompNode)
    (d : string) :
  backed w t v cn -> backed (snd (set_default_device d w)) t v cn.
Proof. intros H. exact H. Qed.

Lemma exec_set_default_heap (ds : list string) (w : World) :
  heap (exec (map SSetDefaultDevice ds) w) = heap w.
Proof.
  revert w. induction ds as [|d ds IH]; intros w; [reflexivity|].
  unfold exec in *. simpl. rewrite IH. reflexivity.
Qed.

Lemma backed_heap (w w' : World) (t : addr) (v : ndarray) (cn : CompNode) :
  heap w' = heap w -> backed w t v cn -> backed w' t v cn.
Proof. intros Hh H. unfold backed in *. rewrite Hh. exact H. Qed.

(** C4. A construction without [device] is the construction with the
    default device read at that moment; a tensor built from host data then
    resides on that device; after the default is changed, constructions see
    the new default; and the device of a tensor that exists is not changed
    by any later writes of the default. *)
Theorem default_device_resolution :
  (forall (w : World) (data dtype : pyval),
      Tensor data dtype VNone w = Tensor data dtype (VStr (default_device w)) w)
  /\ (forall (w : World) (a : ndarray),
         exists w',
           Tensor (VArray a) VNone VNone w = (Ok (next_id w), w') /\
           device (next_id w) w' = (Ok (comp_node (default_device w)), w'))
  /\ (forall (w : World) (d : string) (a : ndarray),
         let w1 := snd (set_default_device d w) in
         exists w',
           Tensor (VArray a) VNone VNone w1 = (Ok (next_id w1), w') /\
           device (next_id w1) w' = (Ok (comp_node d), w'))
  /\ (forall (w : World) (t : addr) (cn : CompNode) (ds : list string),
         device t w = (Ok cn, w) ->
         let w' := exec (map SSetDefaultDevice ds) w in
         device t w' = (Ok cn, w')).
Proof.
  split; [| split; [| split]].
  - intros w data dtype. apply Tensor_default.
  - intros w a. rewrite Tensor_default.
    destruct (Tensor_array_backed w a (default_device w)) as (w' & Ht & Hb).
    exists w'. split; [exact Ht|]. eapply device_backed, Hb.
  - intros w d a w1. rewrite Tensor_default.
    destruct (Tensor_array_backed w1 a (default_device w1)) as (w' & Ht & Hb).
    exists w'. split; [exact Ht|]. eapply device_backed, Hb.
  - intros w t cn ds Hd w'. apply device_inv in Hd as [_ [v Hb]].
    apply (device_backed _ _ v). eapply backed_heap; [|exact Hb].
    apply exec_set_default_heap.
Qed.

(** C5. The hash of a tensor is its [id]; two tensors with the same hash
    are one object; and two tensors built from the same array hold equal
    values, are distinct objects and hash differently. *)
Theorem hash_is_identity :
  (forall (w : World) (t : addr), __hash__ t w = (Ok (py_id t), w))
  /\ (forall (w : World) (t1 t2 : addr) (h : Z),
         __hash__ t1 w = (Ok h, w) -> __hash__ t2 w = (Ok h, w) -> t1 = t2)
  /\ (forall (w : World) (a : ndarray),
         let t1 := next_id w in
         let w1 := snd (Tensor (VArray a) VNone VNone w) in
         let t2 := next_id w1 in
         let w2 := snd (Tensor (VArray a) VNone VNone w1) in
         numpy t1 w2 = (Ok a, w2) /\ numpy t2 w2 = (Ok a, w2) /\
         t1 <> t2 /\ fst (__hash__ t1 w2) <> fst (__hash__ t2 w2)).
Proof.
  split; [| split].
  - reflexivity.
  - intros w t1 t2 h H1 H2. unfold __hash__, ret, py_id in *.
    inversion H1. inversion H2. lia.
  - intros w a t1 w1 t2 w2. subst w2 t2 w1 t1.
    rewrite !Tensor_default.
    destruct (Tensor_array w a (default_device w))
      as (w1 & Ht1 & H0 & H2 & H1 & _ & _ & _ & Hn1 & _).
    rewrite Ht1. cbn [snd].
    destruct (Tensor_array w1 a (default_device w1))
      as (w2 & Ht2 & K0 & K2 & K1 & _ & _ & _ & _ & Hf).
    rewrite Ht2. cbn [snd].
    repeat split.
    + apply (numpy_backed _ _ _ (comp_node (default_device w))).
      exists (S (S (next_id w))), (S (next_id w)), (Some (VDict default_q_dict)).
      rewrite !Hf by lia. auto.
    + apply (numpy_backed _ _ _ (comp_node (default_device w1))).
      exists (S (S (next_id w1))), (S (next_id w1)), (Some (VDict default_q_dict)). auto.
    + lia.
    + unfold __hash__, ret, py_id. cbn [fst]. intros H. inversion H. lia.
Qed.

(** ** The reserved attribute *)

Lemma quiet_ret {A : Type} (a : A) : quiet (ret a).
Proof. intros w. discriminate. Qed.

Lemma quiet_raise {A : Type} (e : exn) : e <> reserved -> quiet (@raise _ A e).
Proof. intros He w. cbn. congruence. Qed.

Lemma quiet_bind {A B : Type} (m : M A) (k : A -> M B) :
  quiet m -> (forall a, quiet (k a)) -> quiet (bind m k).
Proof.
  intros Hm Hk w. unfold bind. specialize (Hm w).
  destruct (m w) as [[a|e] w1]; [apply Hk |].
  cbn [fst] in *. intros H. apply Hm. inversion H. reflexivity.
Qed.

Lemma quiet_load (a : addr) : quiet (load a).
Proof. intros w. unfold load. destruct (heap w !! a); discriminate. Qed.

Lemma quiet_alloc (o : obj) : quiet (alloc o).
Proof. intros w. discriminate. Qed.

Lemma quiet_store (a : addr) (o : obj) : quiet (store a o).
Proof. intros w. discriminate. Qed.

Create HintDb quiet.

Ltac quiet_step :=
  first
    [ solve [auto 1 with quiet nocore]
    | apply quiet_ret
    | apply quiet_raise; discriminate
    | apply quiet_load
    | apply quiet_alloc
    | apply quiet_store
    | apply quiet_bind; [| intros ? ]
    | match goal with
      | |- quiet (match ?x with _ => _ end) => destruct x
      | |- quiet (fun w => (Ok _, _)) => intros ?; discriminate
      end ].

Ltac quiet_auto := repeat quiet_step.

Lemma quiet_get_wrapped (self : addr) : quiet (get_wrapped self).
Proof. unfold get_wrapped. quiet_auto. Qed.
#[local] Hint Resolve quiet_get_wrapped : quiet.

Lemma quiet_set_wrapped (self c : addr) : quiet (set_wrapped self c).
Proof. unfold set_wrapped. quiet_auto. Qed.
#[local] Hint Resolve quiet_set_wrapped : quiet.

Lemma quiet_get_q_dict (self : addr) : quiet (get_q_dict self).
Proof. unfold get_q_dict. quiet_auto. Qed.
#[local] Hint Resolve quiet_get_q_dict : quiet.

Lemma quiet_set_q_dict (self : addr) (q : pyval) : quiet (set_q_dict self q).
Proof. unfold set_q_dict. quiet_auto. Qed.
#[local] Hint Resolve quiet_set_q_dict : quiet.

Lemma quiet_resident (self : addr) : quiet (resident self).
Proof. unfold resident. quiet_auto. Qed.
#[local] Hint Resolve quiet_resident : quiet.

Lemma quiet_as_raw_tensor (data dtype device : pyval) :
  quiet (as_raw_tensor data dtype device).
Proof. unfold as_raw_tensor, as_array, with_dtype, as_device. quiet_auto. Qed.
#[local] Hint Resolve quiet_as_raw_tensor : quiet.

Lemma quiet_TensorWrapper_init (self : addr) (data dtype device : pyval) :
  quiet (TensorWrapper_init self data dtype device).
Proof. unfold TensorWrapper_init. quiet_auto. Qed.
#[local] Hint Resolve quiet_TensorWrapper_init : quiet.

Lemma quiet_init (self : addr) (data dtype device : pyval) :
  quiet (__init__ self data dtype device).
Proof. unfold __init__, get_default_device. quiet_auto. Qed.
#[local] Hint Resolve quiet_init : quiet.

Lemma quiet_Tensor (data dtype device : pyval) : quiet (Tensor data dtype device).
Proof. unfold Tensor, __new__. quiet_auto. Qed.
#[local] Hint Resolve quiet_Tensor : quiet.

Lemma quiet_apply_result (v : ndarray) (cn : CompNode) : quiet (apply_result v cn).
Proof. unfold apply_result. quiet_auto. Qed.
#[local] Hint Resolve quiet_apply_result : quiet.

Lemma quiet_reset (self : addr) (other : pyval) : quiet (_reset self other).
Proof. unfold _reset, dtype, device. quiet_auto. Qed.
#[local] Hint Resolve quiet_reset : quiet.

Lemma quiet_getstate (self : addr) : quiet (__getstate__ self).
Proof. unfold __getstate__, numpy, device, dtype. quiet_auto. Qed.
#[local] Hint Resolve quiet_getstate : quiet.

Lemma quiet_pop (state : gmap string pyval) (key : string) : quiet (pop state key).
Proof. unfold pop. quiet_auto. Qed.
#[local] Hint Resolve quiet_pop : quiet.

Lemma quiet_setstate (self : addr) (state : gmap string pyval) :
  quiet (__setstate__ self state).
Proof. unfold __setstate__, get_dmap_callback. cbv zeta. quiet_auto. Qed.
#[local] Hint Resolve quiet_setstate : quiet.

Lemma quiet_run (s : stmt) : quiet (run s).
Proof.
  destruct s; unfold run, outcome, set_value, reset_zero, to, detach, unpickle,
    __hash__, __new__, as_device, set_default_device, set_dmap_callback.
  all: quiet_auto.
Qed.

(** C9. Reading, assigning and deleting [requires_grad] raise the
    [AttributeError] of the reserved attribute and leave the process as it
    was; no statement on tensors ends in that error, so none of the tensor
    operations reads the attribute. *)
Theorem requires_grad_reserved :
  (forall (w : World) (t : addr), requires_grad t w = (Raise reserved, w))
  /\ (forall (w : World) (t : addr) (value : pyval),
         requires_grad_setter t value w = (Raise reserved, w))
  /\ (forall (w : World) (t : addr), requires_grad_deleter t w = (Raise reserved, w))
  /\ reserved = AttributeError "requires_grad is reserved for future use"
  /\ (forall (w : World) (s : stmt), fst (run s w) <> Raise reserved).
Proof.
  repeat split. intros w s. apply quiet_run.
Qed.

(** ** Pickling *)

Lemma get_q_dict_inv (t : addr) (w w' : World) (q : pyval) :
  get_q_dict t w = (Ok q, w') ->
  w' = w /\ exists c, heap w !! t = Some (TensorObj c (Some q)).
Proof.
  unfold get_q_dict, bind, load, ret, raise.
  destruct (heap w !! t) as [[| |c [q'|]]|] eqn:Ht; try discriminate.
  intros H. inversion H; subst. eauto.
Qed.

Lemma getstate_backed (w : World) (t : addr) (a : ndarray) (cn : CompNode) (q : pyval) :
  numpy t w = (Ok a, w) -> device t w = (Ok cn, w) -> get_q_dict t w = (Ok q, w) ->
  __getstate__ t w = (Ok (pickled a cn q), w).
Proof.
  intros Hn Hd Hq. unfold __getstate__.
  rewrite (bind_ok _ _ _ _ _ Hn), (bind_ok _ _ _ _ _ Hd).
  apply numpy_inv in Hn as [_ [cn' Hb]].
  rewrite (bind_ok _ _ _ _ _ (dtype_backed _ _ _ _ Hb)).
  rewrite (bind_ok _ _ _ _ _ Hq). reflexivity.
Qed.

Lemma unpickle_pickled (w : World) (a : ndarray) (cn : CompNode) (q : pyval) :
  exists w',
    unpickle (pickled a cn q) w = (Ok (next_id w), w') /\
    backed w' (next_id w) (astype a (nd_dtype a))
      (comp_node (remapped w (comp_node_str cn))) /\
    get_q_dict (next_id w) w' = (Ok q, w').
Proof.
  unfold unpickle, __new__, __setstate__, pop, pickled, get_dmap_callback,
    set_q_dict, TensorWrapper_init, as_raw_tensor, as_array, with_dtype, as_device,
    set_wrapped, remapped.
  cbv zeta.
  repeat (run_step;
          rewrite ?lookup_delete_ne, ?lookup_insert_ne, ?lookup_insert_eq by done;
          cbn [fst snd]).
  destruct (dmap_callback w) as [f|].
  - repeat (run_step;
          rewrite ?lookup_delete_ne, ?lookup_insert_ne, ?lookup_insert_eq by done;
          cbn [fst snd]).
    eexists. split; [reflexivity|]. split.
    + exists (S (S (next_id w))), (S (next_id w)), (Some q).
      cbn [heap]. heap_simpl. auto.
    + unfold get_q_dict. repeat run_step. reflexivity.
  - repeat (run_step;
          rewrite ?lookup_delete_ne, ?lookup_insert_ne, ?lookup_insert_eq by done;
          cbn [fst snd]).
    eexists. split; [reflexivity|]. split.
    + exists (S (S (next_id w))), (S (next_id w)), (Some q).
      cbn [heap]. heap_simpl. auto.
    + unfold get_q_dict. repeat run_step. reflexivity.
Qed.

Section RoundTrip.
(** What the Python layer relies on from the native layer: converting an
    array to its own dtype gives the array back, and the printed form of a
    device names that same device. *)
Hypothesis astype_same : forall a : ndarray, astype a (nd_dtype a) = a.
Hypothesis str_canonical :
  forall cn : CompNode, comp_node_str (comp_node (comp_node_str cn)) = comp_node_str cn.

(** C2. [__getstate__] yields the record of [numpy()], [str(device)],
    [dtype] and [q_dict]; giving that record to [__setstate__] on a blank
    instance produces a tensor with the same value, dtype and [q_dict],
    whose device prints like the original one when no remap hook is
    installed, and like the device named by the hook's answer otherwise. *)
Theorem pickle_roundtrip (w : World) (t : addr) (a : ndarray) (cn : CompNode)
    (q : pyval) :
  wf w ->
  numpy t w = (Ok a, w) -> device t w = (Ok cn, w) -> get_q_dict t w = (Ok q, w) ->
  dtype t w = (Ok (nd_dtype a), w) /\
  __getstate__ t w
  = (Ok (<["data" := VArray a]>
           (<["device" := VStr (comp_node_str cn)]>
              (<["dtype" := VDType (nd_dtype a)]>
                 (<["qdict" := q]> ∅)))), w) /\
  exists t' w' cn',
    (state <- __getstate__ t;; unpickle state)%py w = (Ok t', w') /\
    t' <> t /\
    numpy t' w' = (Ok a, w') /\
    dtype t' w' = (Ok (nd_dtype a), w') /\
    get_q_dict t' w' = (Ok q, w') /\
    device t' w' = (Ok cn', w') /\
    comp_node_str cn'
    = match dmap_callback w with
      | None => comp_node_str cn
      | Some f => comp_node_str (comp_node (f (comp_node_str cn)))
      end.
Proof.
  intros Hwf Hn Hd Hq.
  pose proof (getstate_backed w t a cn q Hn Hd Hq) as Hg.
  pose proof Hn as Hn'. apply numpy_inv in Hn' as [_ [cn0 Hb]].
  split; [eapply dtype_backed, Hb|]. split; [exact Hg|].
  destruct (unpickle_pickled w a cn q) as (w' & Hu & Hb' & Hq').
  rewrite astype_same in Hb'.
  exists (next_id w), w', (comp_node (remapped w (comp_node_str cn))).
  split; [rewrite (bind_ok _ _ _ _ _ Hg); exact Hu|].
  split.
  { destruct Hb as (c & r & q0 & Ht & _). apply Hwf in Ht. lia. }
  split; [eapply numpy_backed, Hb'|].
  split; [eapply dtype_backed, Hb'|].
  split; [exact Hq'|].
  split; [eapply device_backed, Hb'|].
  unfold remapped. destruct (dmap_callback w); [reflexivity | apply str_canonical].
Qed.
End RoundTrip.

(** ** What a statement may change *)

Lemma kept_refl (d : addr) (w : World) : kept d w w.
Proof. split; [lia | auto]. Qed.

Lemma kept_trans (d : addr) (w1 w2 w3 : World) :
  kept d w1 w2 -> kept d w2 w3 -> kept d w1 w3.
Proof.
  intros [Hn1 H1] [Hn2 H2]. split; [lia|].
  intros a o Ha Hc. apply H2; [apply H1|]; assumption.
Qed.

Lemma tame_same {A : Type} (d : addr) (m : M A) (w : World) :
  snd (m w) = w -> tame_at d m w.
Proof. intros H Hwf Hd. rewrite H. split; [exact Hwf | apply kept_refl]. Qed.

Lemma tame_ret {A : Type} (d : addr) (a : A) (w : World) : tame_at d (ret a) w.
Proof. apply tame_same. reflexivity. Qed.

Lemma tame_raise {A : Type} (d : addr) (e : exn) (w : World) :
  tame_at d (@raise _ A e) w.
Proof. apply tame_same. reflexivity. Qed.

Lemma tame_load (d a : addr) (w : World) : tame_at d (load a) w.
Proof. apply tame_same. unfold load. destruct (heap w !! a); reflexivity. Qed.

Lemma tame_bind {A B : Type} (d : addr) (m : M A) (k : A -> M B) (w : World) :
  tame_at d m w ->
  (wf w -> (d < next_id w)%nat ->
   forall a w1, m w = (Ok a, w1) -> tame_at d (k a) w1) ->
  tame_at d (bind m k) w.
Proof.
  intros Hm Hk Hwf Hd. destruct (Hm Hwf Hd) as [Hwf1 Hk1].
  unfold bind. destruct (m w) as [[a|e] w1] eqn:Hmw; cbn [snd] in *.
  - destruct (Hk Hwf Hd a w1 eq_refl Hwf1) as [Hwf2 Hk2].
    + destruct Hk1 as [Hn _]. lia.
    + split; [exact Hwf2 | eapply kept_trans; eassumption].
  - split; assumption.
Qed.

Lemma tame_alloc (d : addr) (o : obj) (w : World) : tame_at d (alloc o) w.
Proof.
  intros Hwf Hd. unfold alloc. cbn [snd]. split.
  - intros a o' Ha. cbn [heap next_id] in *.
    destruct (decide (a = next_id w)) as [->|Hne]; [lia|].
    rewrite lookup_insert_ne in Ha by congruence. apply Hwf in Ha. lia.
  - split; cbn [heap next_id]; [lia|].
    intros a o' Ha _. pose proof (Hwf _ _ Ha).
    rewrite lookup_insert_ne by lia. exact Ha.
Qed.

Lemma alloc_inv (o : obj) (w w1 : World) (a : addr) :
  alloc o w = (Ok a, w1) -> a = next_id w.
Proof. unfold alloc. intros H. inversion H. reflexivity. Qed.

Lemma tame_store (d self : addr) (c c' : option addr) (q q' : option pyval) (w : World) :
  self <> d -> heap w !! self = Some (TensorObj c q) ->
  tame_at d (store self (TensorObj c' q')) w.
Proof.
  intros Hne Hs Hwf Hd. unfold store. cbn [snd]. split.
  - intros a o' Ha. cbn [heap next_id] in *.
    destruct (decide (a = self)) as [->|Hna].
    + eapply Hwf, Hs.
    + rewrite lookup_insert_ne in Ha by congruence. eapply Hwf, Ha.
  - split; cbn [heap next_id]; [lia|].
    intros a o' Ha Hc. destruct (decide (a = self)) as [->|Hna].
    + rewrite Hs in Ha. inversion Ha; subst. destruct Hc as [Hc|Hc]; [congruence|].
      exfalso. apply Hc. exact I.
    + rewrite lookup_insert_ne by congruence. exact Ha.
Qed.

Create HintDb tame.
#[local] Hint Resolve tame_ret tame_raise tame_load tame_alloc : tame.

Ltac tame_step :=
  first
    [ solve [auto 2 with tame nocore]
    | apply tame_same; reflexivity
    | apply tame_bind; [| intros ? ? ? ? ? ]
    | match goal with
      | |- tame_at _ (match ?x with _ => _ end) _ => destruct x
      end ].

Ltac tame_auto := repeat tame_step.

Lemma tame_set_wrapped (d self c : addr) (w : World) :
  self <> d -> tame_at d (set_wrapped self c) w.
Proof.
  intros Hne. unfold set_wrapped. apply tame_bind; [apply tame_load|].
  intros _ _ o w1 Hl. apply load_inv in Hl as [-> Hs].
  destruct o; try apply tame_raise. eapply tame_store; eassumption.
Qed.

Lemma tame_set_q_dict (d self : addr) (q : pyval) (w : World) :
  self <> d -> tame_at d (set_q_dict self q) w.
Proof.
  intros Hne. unfold set_q_dict. apply tame_bind; [apply tame_load|].
  intros _ _ o w1 Hl. apply load_inv in Hl as [-> Hs].
  destruct o; try apply tame_raise. eapply tame_store; eassumption.
Qed.

Lemma tame_get_wrapped (d self : addr) (w : World) : tame_at d (get_wrapped self) w.
Proof. unfold get_wrapped. tame_auto. Qed.

Lemma tame_get_q_dict (d self : addr) (w : World) : tame_at d (get_q_dict self) w.
Proof. unfold get_q_dict. tame_auto. Qed.

Lemma tame_resident (d self : addr) (w : World) : tame_at d (resident self) w.
Proof. unfold resident. tame_auto; apply tame_get_wrapped. Qed.

#[local] Hint Resolve tame_set_wrapped tame_set_q_dict tame_get_wrapped
  tame_get_q_dict tame_resident : tame.

Lemma tame_as_raw_tensor (d : addr) (data dtype device : pyval) (w : World) :
  tame_at d (as_raw_tensor data dtype device) w.
Proof. unfold as_raw_tensor, as_array, with_dtype, as_device. tame_auto. Qed.
#[local] Hint Resolve tame_as_raw_tensor : tame.

Lemma tame_TensorWrapper_init (d self : addr) (data dtype device : pyval) (w : World) :
  self <> d -> tame_at d (TensorWrapper_init self data dtype device) w.
Proof. intros Hne. unfold TensorWrapper_init. tame_auto. Qed.
#[local] Hint Resolve tame_TensorWrapper_init : tame.

Lemma tame_init (d self : addr) (data dtype device : pyval) (w : World) :
  self <> d -> tame_at d (__init__ self data dtype device) w.
Proof. intros Hne. unfold __init__, get_default_device. tame_auto. Qed.
#[local] Hint Resolve tame_init : tame.

Lemma tame_Tensor (d : addr) (data dtype device : pyval) (w : World) :
  tame_at d (Tensor data dtype device) w.
Proof.
  unfold Tensor, __new__. apply tame_bind; [apply tame_alloc|].
  intros _ Hd self w1 Ha. apply alloc_inv in Ha. subst self.
  apply tame_bind; [apply tame_init; lia | intros; apply tame_ret].
Qed.
#[local] Hint Resolve tame_Tensor : tame.

Lemma tame_apply_result (d : addr) (v : ndarray) (cn : CompNode) (w : World) :
  tame_at d (apply_result v cn) w.
Proof. unfold apply_result. tame_auto. Qed.
#[local] Hint Resolve tame_apply_result : tame.

Lemma tame_reset (d self : addr) (other : pyval) (w : World) :
  self <> d -> tame_at d (_reset self other) w.
Proof. intros Hne. unfold _reset, dtype, device. tame_auto. Qed.
#[local] Hint Resolve tame_reset : tame.

Lemma tame_getstate (d self : addr) (w : World) : tame_at d (__getstate__ self) w.
Proof. unfold __getstate__, numpy, device, dtype. tame_auto. Qed.

Lemma tame_pop (d : addr) (state : gmap string pyval) (key : string) (w : World) :
  tame_at d (pop state key) w.
Proof. unfold pop. tame_auto. Qed.
#[local] Hint Resolve tame_getstate tame_pop : tame.

Lemma tame_setstate (d self : addr) (state : gmap string pyval) (w : World) :
  self <> d -> tame_at d (__setstate__ self state) w.
Proof. intros Hne. unfold __setstate__, get_dmap_callback. cbv zeta. tame_auto. Qed.
#[local] Hint Resolve tame_setstate : tame.

Lemma tame_unpickle (d : addr) (state : gmap string pyval) (w : World) :
  tame_at d (unpickle state) w.
Proof.
  unfold unpickle, __new__. apply tame_bind; [apply tame_alloc|].
  intros _ Hd self w1 Ha. apply alloc_inv in Ha. subst self.
  apply tame_bind; [apply tame_setstate; lia | intros; apply tame_ret].
Qed.

Lemma tame_detach (d self : addr) (w : World) : tame_at d (detach self) w.
Proof. unfold detach. tame_auto. Qed.
#[local] Hint Resolve tame_unpickle tame_detach : tame.

Lemma tame_globals {A : Type} (d : addr) (m : M A) (w : World) :
  heap (snd (m w)) = heap w -> next_id (snd (m w)) = next_id w -> tame_at d m w.
Proof.
  intros Hh Hn Hwf Hd. split.
  - intros a o. rewrite Hh, Hn. apply Hwf.
  - split; [lia|]. intros a o Ha _. rewrite Hh. exact Ha.
Qed.

Lemma tame_set_default_device (d : addr) (s : string) (w : World) :
  tame_at d (set_default_device s) w.
Proof. apply tame_globals; reflexivity. Qed.

Lemma tame_set_dmap_callback (d : addr) (cb : option (string -> string)) (w : World) :
  tame_at d (set_dmap_callback cb) w.
Proof. apply tame_globals; reflexivity. Qed.
#[local] Hint Resolve tame_set_default_device tame_set_dmap_callback : tame.

Lemma tame_run (d : addr) (s : stmt) (w : World) :
  receiver s <> Some d -> tame_at d (run s) w.
Proof.
  intros Hr.
  destruct s; cbn [receiver] in Hr;
    unfold run, outcome, set_value, reset_zero, to, __hash__, as_device;
    try (assert (x <> d) by congruence);
    tame_auto.
Qed.

Lemma exec_kept (d : addr) (prog : list stmt) (w : World) :
  (forall s, In s prog -> receiver s <> Some d) ->
  wf w -> (d < next_id w)%nat ->
  wf (exec prog w) /\ kept d w (exec prog w).
Proof.
  revert w. induction prog as [|s prog IH]; intros w Hr Hwf Hd.
  - split; [exact Hwf | apply kept_refl].
  - change (exec (s :: prog) w) with (exec prog (snd (run s w))).
    destruct (tame_run d s w (Hr s (or_introl eq_refl)) Hwf Hd) as [Hwf1 Hk1].
    destruct (IH (snd (run s w))) as [Hwf2 Hk2]; auto.
    + intros s' Hs'. apply Hr. right. exact Hs'.
    + destruct Hk1. lia.
    + split; [exact Hwf2 | eapply kept_trans; eassumption].
Qed.

Lemma backed_kept (d : addr) (w w' : World) (v : ndarray) (cn : CompNode) :
  kept d w w' -> backed w d v cn -> backed w' d v cn.
Proof.
  intros [_ Hk] (c & r & q & Ht & Hc & Hr).
  exists c, r, q. repeat split; apply Hk; auto; right; intros [].
Qed.

Lemma wf_fresh (w : World) (a : addr) :
  wf w -> (next_id w <= a)%nat -> heap w !! a = None.
Proof.
  intros Hwf Ha. destruct (heap w !! a) as [o|] eqn:Hl; [|reflexivity].
  apply Hwf in Hl. lia.
Qed.

Lemma get_wrapped_some (w : World) (t c : addr) (q : option pyval) :
  heap w !! t = Some (TensorObj (Some c) q) -> get_wrapped t w = (Ok c, w).
Proof. intros Ht. unfold get_wrapped, bind, load, ret. rewrite Ht. reflexivity. Qed.

Lemma detach_cells (w : World) (t c r : addr) (q : option pyval) :
  heap w !! t = Some (TensorObj (Some c) q) ->
  heap w !! c = Some (CoreTensor r) ->
  exists w1,
    detach t w = (Ok (S (next_id w)), w1) /\
    heap w1 !! S (next_id w)
    = Some (TensorObj (Some (next_id w)) (Some (VDict default_q_dict))) /\
    heap w1 !! next_id w = Some (CoreTensor r) /\
    next_id w1 = S (S (next_id w)) /\
    (forall x, x <> next_id w -> x <> S (next_id w) -> heap w1 !! x = heap w !! x).
Proof.
  intros Ht Hc. unfold detach.
  rewrite (bind_ok _ _ _ _ _ (get_wrapped_some _ _ _ _ Ht)).
  rewrite (bind_ok _ _ _ _ _ (load_some _ _ _ Hc)).
  unfold Tensor, __new__, __init__, get_default_device,
    set_q_dict, TensorWrapper_init, set_wrapped.
  repeat run_step.
  eexists. split; [reflexivity|].
  cbn [heap next_id]. repeat split; heap_simpl; try reflexivity.
  intros x Hx Hx'. rewrite !lookup_insert_ne by congruence. reflexivity.
Qed.

(** C3. [detach] returns a new object whose value is the value of the
    tensor at that moment; it wraps a handle of its own that refers to the
    same resident data; and no later statement invoked on other objects
    changes the value of the detached tensor. *)
Theorem detach_snapshot (w : World) (t : addr) (a : ndarray) :
  wf w -> numpy t w = (Ok a, w) ->
  exists d w1,
    detach t w = (Ok d, w1) /\
    d <> t /\ heap w !! d = None /\
    numpy d w1 = (Ok a, w1) /\
    numpy t w1 = (Ok a, w1) /\
    (exists c c' r,
        get_wrapped t w1 = (Ok c, w1) /\ get_wrapped d w1 = (Ok c', w1) /\
        c' <> c /\ heap w !! c' = None /\
        heap w1 !! c = Some (CoreTensor r) /\ heap w1 !! c' = Some (CoreTensor r)) /\
    forall prog : list stmt,
      (forall s, In s prog -> receiver s <> Some d) ->
      numpy d (exec prog w1) = (Ok a, exec prog w1).
Proof.
  intros Hwf Hn. apply numpy_inv in Hn as [_ [cn (c & r & q & Ht & Hc & Hr)]].
  destruct (detach_cells w t c r q Ht Hc) as (w1 & Hd & Hd0 & Hd1 & Hnx & Hf).
  pose proof (Hwf _ _ Ht) as Lt. pose proof (Hwf _ _ Hc) as Lc.
  pose proof (Hwf _ _ Hr) as Lr.
  assert (Hbd : backed w1 (S (next_id w)) a cn).
  { exists (next_id w), r, (Some (VDict default_q_dict)).
    rewrite (Hf r) by lia. auto. }
  assert (Hbt : backed w1 t a cn).
  { exists c, r, q. rewrite !Hf by lia. auto. }
  assert (Hwf1 : wf w1).
  { intros x o Hx. rewrite Hnx.
    destruct (decide (x = next_id w)) as [->|H1]; [lia|].
    destruct (decide (x = S (next_id w))) as [->|H2]; [lia|].
    rewrite Hf in Hx by assumption. apply Hwf in Hx. lia. }
  exists (S (next_id w)), w1. split; [exact Hd|].
  split; [lia|]. split; [apply wf_fresh; [exact Hwf | lia]|].
  split; [eapply numpy_backed, Hbd|]. split; [eapply numpy_backed, Hbt|].
  split.
  - exists c, (next_id w), r.
    rewrite (get_wrapped_some w1 t c q) by (rewrite Hf by lia; exact Ht).
    rewrite (get_wrapped_some w1 _ _ _ Hd0).
    repeat split; try lia.
    + apply wf_fresh; [exact Hwf | lia].
    + rewrite (Hf c) by lia. exact Hc.
    + exact Hd1.
  - intros prog Hp.
    destruct (exec_kept (S (next_id w)) prog w1 Hp Hwf1) as [_ Hk]; [lia|].
    eapply numpy_backed, backed_kept; eassumption.
Qed.
End FacadeFacts.

#[local] Existing Instance host_native.

(** The hypothesis of C4 at a tensor built in a fresh process. *)
Lemma default_device_resolution_witness :
  let w := sample_world in
  device 0 w = (Ok "xpux", w) /\
  let w' := exec (map SSetDefaultDevice ["cpu0"; "gpu1"]) w in
  device 0 w' = (Ok "xpux", w').
Proof.
  intros w.
  assert (H : device 0 w = (Ok "xpux", w)) by reflexivity.
  split; [exact H|].
  exact (proj2 (proj2 (proj2 (@default_device_resolution host_native)))
           w 0 "xpux" ["cpu0"; "gpu1"] H).
Defined.

Lemma host_astype_same (a : host_array) : host_astype a (host_dtype_of a) = a.
Proof. destruct a; reflexivity. Qed.

Lemma has_colon_app (s : string) : has_colon (s ++ ":0") = true.
Proof.
  induction s as [|c s IH]; [reflexivity|].
  simpl.
  match goal with |- context [Ascii.eqb ?x ?y] => destruct (Ascii.eqb x y) end;
    [reflexivity | exact IH].
Qed.

Lemma host_str_canonical (cn : string) :
  host_comp_node_str (host_comp_node_str cn) = host_comp_node_str cn.
Proof.
  unfold host_comp_node_str. destruct (has_colon cn) eqn:Hc.
  - rewrite Hc. reflexivity.
  - rewrite has_colon_app. reflexivity.
Qed.

Lemma wf_sample_world : wf sample_world.
Proof. apply (@wf_Tensor_array host_native), wf_boot. Qed.

(** C2 at the sample tensor. *)
Lemma pickle_roundtrip_witness :
  let w := sample_world in
  let a := IntArray [2] [7; 9]%Z in
  wf w /\ numpy 0 w = (Ok a, w) /\ device 0 w = (Ok "xpux", w) /\
  get_q_dict 0 w = (Ok (VDict default_q_dict), w) /\
  exists t' w',
    (state <- __getstate__ 0;; unpickle state)%py w = (Ok t', w') /\
    numpy t' w' = (Ok a, w') /\
    (cn <- device t';; ret (comp_node_str cn))%py w' = (Ok "xpux:0", w').
Proof.
  intros w a.
  assert (Hn : numpy 0 w = (Ok a, w)) by reflexivity.
  assert (Hd : device 0 w = (Ok "xpux", w)) by reflexivity.
  assert (Hq : get_q_dict 0 w = (Ok (VDict default_q_dict), w)) by reflexivity.
  refine (conj wf_sample_world (conj Hn (conj Hd (conj Hq _)))).
  destruct (@pickle_roundtrip host_native host_astype_same host_str_canonical
              w 0 a "xpux" (VDict default_q_dict) wf_sample_world Hn Hd Hq)
    as (_ & _ & t' & w' & cn' & Hu & _ & Hn' & _ & _ & Hd' & Hs).
  exists t', w'. split; [exact Hu|]. split; [exact Hn'|].
  rewrite (bind_ok _ _ _ _ _ Hd'). unfold ret. rewrite Hs. reflexivity.
Defined.

(** C3 at the sample tensor. *)
Lemma detach_snapshot_witness :
  let w := sample_world in
  let a := IntArray [2] [7; 9]%Z in
  wf w /\ numpy 0 w = (Ok a, w) /\
  exists d w1,
    detach 0 w = (Ok d, w1) /\ numpy d w1 = (Ok a, w1) /\
    let w2 := exec [SResetZero 0; SSetValue 0 (VInts [1; 2; 3]%Z)] w1 in
    numpy d w2 = (Ok a, w2).
Proof.
  intros w a.
  assert (Hn : numpy 0 w = (Ok a, w)) by reflexivity.
  refine (conj wf_sample_world (conj Hn _)).
  destruct (@detach_snapshot host_native w 0 a wf_sample_world Hn)
    as (d & w1 & Hd & Hne & _ & Hnd & _ & _ & Hp).
  exists d, w1. split; [exact Hd|]. split; [exact Hnd|].
  apply Hp. intros s [<-|[<-|[]]]; cbn [receiver]; congruence.
Defined.

(** C5 at the sample tensor. *)
Lemma hash_is_identity_witness :
  __hash__ 0 sample_world = (Ok 0%Z, sample_world) /\ 0%nat = 0%nat.
Proof.
  assert (H : __hash__ 0 sample_world = (Ok 0%Z, sample_world)) by reflexivity.
  split; [exact H|].
  exact (proj1 (proj2 (@hash_is_identity host_native)) sample_world 0%nat 0%nat 0%Z H H).
Defined.
End tensor_facts.

(** * Facts about [uniform] *)

Module random_facts.
Import tensor random.

Lemma SFcompare_antisym (x y : spec_float) (c : comparison) :
  SFcompare x y = Some c -> SFcompare y x = Some (CompOpp c).
Proof.
  destruct x as [sx|sx| |sx mx ex], y as [sy|sy| |sy my ey]; cbn;
    intros H; inversion H; subst; clear H;
    try (destruct sx; reflexivity); try (destruct sy; reflexivity);
    try (destruct sx, sy; reflexivity).
  destruct sx, sy; try reflexivity;
    rewrite (Z.compare_antisym ex ey);
    destruct (ex ?= ey)%Z; cbn; try reflexivity;
    change (Pos.compare_cont Eq) with Pos.compare;
    rewrite (Pos.compare_antisym mx my);
    destruct (mx ?= my)%positive; reflexivity.
Qed.

Lemma py_ge_not_lt (low high : pyfloat) :
  py_ge low high = true -> py_lt low high = false.
Proof.
  unfold py_ge, py_lt, SFleb, SFltb.
  destruct (SFcompare high low) as [c|] eqn:Hc; [|discriminate].
  rewrite (SFcompare_antisym _ _ _ Hc). destruct c; cbn; congruence.
Qed.

Section UniformFacts.
Context {native : Native}.

Lemma uniform_rejects (low high : pyfloat) (size : pyval) (w : World) :
  py_lt low high = false ->
  uniform low high size w = (Raise (AssertionError uniform_message), w).
Proof. intros H. unfold uniform. rewrite H. reflexivity. Qed.

Lemma uniform_sample (low high : pyfloat) (l : list Z) (w : World) :
  py_lt low high = true ->
  let u := uniform_rng (random_raw (rng w))
             (astype (array_of_ints l) (dtype_of_string "int32")) in
  exists t w',
    uniform low high (VInts l) w = (Ok t, w') /\
    numpy t w' = (Ok (nd_add_float low (nd_mul_float (py_sub high low) u)), w') /\
    device t w' = (Ok (comp_node (default_device w)), w') /\
    rng w' = S (rng w) /\
    default_device w' = default_device w.
Proof.
  intros H u. subst u. unfold uniform. rewrite H.
  unfold _random_seed_generator_next, apply_UniformRNG, __rmul__, __radd__,
    apply_result, resident, get_wrapped,
    Tensor, __new__, __init__, get_default_device, set_q_dict, TensorWrapper_init,
    as_raw_tensor, as_array, with_dtype, as_device, set_wrapped.
  repeat tensor_facts.run_step.
  do 2 eexists. split; [reflexivity|].
  unfold numpy, device, resident, get_wrapped.
  repeat tensor_facts.run_step. auto.
Qed.

Section Contract.
(** The contract of the operator: the sample has the shape that the size
    tensor spells out. *)
Hypothesis uniform_rng_shape :
  forall (seed : Z) (l : list Z),
    nd_shape (uniform_rng seed (astype (array_of_ints l) (dtype_of_string "int32")))
    = map Z.to_nat l.

(** C10. When [low >= high] (and whenever [low < high] fails) [uniform]
    raises the [AssertionError] and leaves the process untouched: no seed
    drawn, no object built.  When [low < high] and [size] is a tuple, one
    seed is drawn and the result holds [low + (high - low) * u] for the
    sample [u] of the operator at that seed and size; [size=None] is the
    call with size [(1,)], whose sample has shape [(1,)]. *)
Theorem uniform_contract :
  (forall (low high : pyfloat) (size : pyval) (w : World),
      py_ge low high = true ->
      uniform low high size w
      = (Raise (AssertionError "Uniform is not defined when low >= high"), w))
  /\ (forall (low high : pyfloat) (size : pyval) (w : World),
         py_lt low high = false ->
         uniform low high size w
         = (Raise (AssertionError "Uniform is not defined when low >= high"), w))
  /\ (forall (low high : pyfloat) (l : list Z) (w : World),
         py_lt low high = true ->
         let u := uniform_rng (random_raw (rng w))
                    (astype (array_of_ints l) (dtype_of_string "int32")) in
         exists t w',
           uniform low high (VInts l) w = (Ok t, w') /\
           numpy t w' = (Ok (nd_add_float low (nd_mul_float (py_sub high low) u)), w') /\
           nd_shape u = map Z.to_nat l /\
           rng w' = S (rng w))
  /\ (forall (low high : pyfloat) (w : World),
         uniform low high VNone w = uniform low high (VInts [1%Z]) w)
  /\ (forall seed : Z,
         nd_shape (uniform_rng seed
                     (astype (array_of_ints [1%Z]) (dtype_of_string "int32")))
         = [1%nat]).
Proof.
  split; [| split; [| split; [| split]]].
  - intros low high size w H. apply uniform_rejects, py_ge_not_lt, H.
  - intros low high size w H. apply uniform_rejects, H.
  - intros low high l w H u.
    destruct (uniform_sample low high l w H) as (t & w' & Hu & Hn & _ & Hr & _).
    exists t, w'. repeat split; try assumption. apply uniform_rng_shape.
  - reflexivity.
  - intros seed. rewrite uniform_rng_shape. reflexivity.
Qed.
End Contract.
End UniformFacts.

#[local] Existing Instance host_native.

Lemma host_uniform_rng_shape (seed : Z) (l : list Z) :
  nd_shape (uniform_rng seed (astype (array_of_ints l) (dtype_of_string "int32")))
  = map Z.to_nat l.
Proof. reflexivity. Qed.

(** C10 at [uniform(1.0, 1.0)] and [uniform(2.0, 5.0, (3,))] in a fresh
    process. *)
Lemma uniform_contract_witness :
  py_ge (float_of_Z 1) (float_of_Z 1) = true /\
  uniform (float_of_Z 1) (float_of_Z 1) VNone boot
  = (Raise (AssertionError "Uniform is not defined when low >= high"), boot) /\
  py_lt (float_of_Z 2) (float_of_Z 5) = true /\
  exists t w',
    uniform (float_of_Z 2) (float_of_Z 5) (VInts [3%Z]) boot = (Ok t, w') /\
    rng w' = 1%nat.
Proof.
  assert (H1 : py_ge (float_of_Z 1) (float_of_Z 1) = true) by reflexivity.
  assert (H2 : py_lt (float_of_Z 2) (float_of_Z 5) = true) by reflexivity.
  pose proof (@uniform_contract host_native host_uniform_rng_shape) as (Ha & _ & Hb & _).
  refine (conj H1 (conj (Ha _ _ VNone boot H1) (conj H2 _))).
  destruct (Hb _ _ [3%Z] boot H2) as (t & w' & Hu & _ & _ & Hr).
  exists t, w'. split; [exact Hu | exact Hr].
Defined.
End random_facts.

(** * Facts about the dataflow graph *)

Module graph_facts.
Import megbrain_graph.
Local Open Scope list_scope.

Section GraphFacts.
Context {native : Native}.
Variable kernel : string -> list DeviceTensorND -> result DeviceTensorND.

Lemma chain_length (x : DeviceTensorND) (k : nat) : length (chain x k) = S k.
Proof. unfold chain. cbn. rewrite length_map, length_seq. reflexivity. Qed.

Lemma chain_succ (x : DeviceTensorND) (k : nat) :
  chain x k ++ [OperatorNode Identity [k]] = chain x (S k).
Proof. unfold chain. rewrite seq_S, map_app. reflexivity. Qed.

Lemma chain_nth_succ (x : DeviceTensorND) (k j : nat) (rest : list node) :
  (j < k)%nat ->
  nth_error (chain x k ++ rest) (S j) = Some (OperatorNode Identity [j]).
Proof.
  intros Hj. unfold chain. cbn [app nth_error].
  rewrite nth_error_app1 by (rewrite length_map, length_seq; exact Hj).
  rewrite nth_error_map, nth_error_seq.
  destruct (Nat.ltb_spec j k); [reflexivity | lia].
Qed.

Lemma chain_nth_last (x : DeviceTensorND) (k : nat) (n : node) :
  nth_error (chain x k ++ [n]) (S k) = Some n.
Proof.
  rewrite nth_error_app2 by (rewrite chain_length; lia).
  rewrite chain_length, Nat.sub_diag. reflexivity.
Qed.

Lemma identities_chain (x : DeviceTensorND) (j i : nat) :
  identities j (mkGraph (chain x i) Building) i
  = Ok (mkGraph (chain x (i + j)) Building, (i + j)%nat).
Proof.
  revert i. induction j as [|j IH]; intros i.
  - rewrite Nat.add_0_r. reflexivity.
  - cbn [identities]. unfold addOperator, add_node. cbn [nodes state forallb].
    rewrite chain_length.
    replace (i <? S i)%nat with true by (symmetry; apply Nat.ltb_lt; lia).
    cbn [andb rbind fst snd]. rewrite chain_succ, IH.
    replace (S i + j)%nat with (i + S j)%nat by lia. reflexivity.
Qed.

Lemma eval_chain (x : DeviceTensorND) (k run : nat) (rest : list node)
    (inputs : gmap nat DeviceTensorND) (i fuel : nat) :
  (i <= k)%nat -> (i < fuel)%nat ->
  eval kernel fuel (chain x k ++ rest) run inputs i = Ok x.
Proof.
  revert fuel. induction i as [|i IH]; intros fuel Hi Hf.
  - destruct fuel as [|fuel]; [lia|]. reflexivity.
  - destruct fuel as [|fuel]; [lia|]. cbn [eval].
    rewrite chain_nth_succ by lia. cbn [mapM].
    rewrite IH by lia. reflexivity.
Qed.

Lemma wired_chain (x : DeviceTensorND) (k : nat) (rest : list node) (i fuel : nat) :
  (i <= k)%nat -> (i < fuel)%nat ->
  wired fuel (chain x k ++ rest) i = true.
Proof.
  revert fuel. induction i as [|i IH]; intros fuel Hi Hf.
  - destruct fuel as [|fuel]; [lia|]. reflexivity.
  - destruct fuel as [|fuel]; [lia|]. cbn [wired].
    rewrite chain_nth_succ by lia. cbn [existsb].
    rewrite IH by lia. reflexivity.
Qed.

Lemma wired_output (fuel : nat) (ns : list node) (i src : nat) (cb : option nat) :
  nth_error ns i = Some (OutputNode src cb) ->
  wired (S fuel) ns i = wired fuel ns src.
Proof. intros H. cbn [wired]. rewrite H. reflexivity. Qed.

Lemma eval_output (fuel : nat) (ns : list node) (run : nat)
    (inputs : gmap nat DeviceTensorND) (i src : nat) (cb : option nat) :
  nth_error ns i = Some (OutputNode src cb) ->
  eval kernel (S fuel) ns run inputs i = eval kernel fuel ns run inputs src.
Proof. intros H. cbn [eval]. rewrite H. reflexivity. Qed.

(** C1. A graph with one input node fed by a callback that supplies [x],
    [k] identity operators, and one output node that delivers into the
    future [y], compiled for that output and run once, resolves [y] to
    exactly [x] and changes nothing else. *)
Theorem io_delivers_input (k : nat) (x : DeviceTensorND) (y : nat) (env : Env) :
  futures env !! y = None ->
  test_io kernel k x y env
  = Ok (mkEnv (<[y := x]> (futures env)) (pushed env) (pulled env) (attrs env)).
Proof.
  intros Hy. unfold test_io, input_callback, addInput, add_node, new_graph.
  cbn [state nodes rbind fst snd app length].
  change [InputNode (snd x) (nd_dtype (fst x)) (Some (fun _ : nat => x))]
    with (chain x 0).
  rewrite identities_chain. cbn [rbind fst snd Nat.add].
  unfold output_callback, addOutput, add_node. cbn [nodes state].
  rewrite chain_length.
  replace (k <? S k)%nat with true by (symmetry; apply Nat.ltb_lt; lia).
  cbn [rbind fst snd]. unfold compile. cbn [state nodes forallb].
  unfold is_output. rewrite chain_nth_last.
  rewrite length_app, chain_length. cbn [length].
  replace (S k + 1)%nat with (S (S k)) by lia.
  rewrite (wired_output _ _ _ _ _ (chain_nth_last x k _)), wired_chain by lia.
  cbn [andb rbind fst snd]. unfold execute. cbn [exe_nodes exe_runs exe_outputs].
  cbn [deliver_all]. unfold deliver.
  rewrite length_app, chain_length. cbn [length].
  replace (S k + 1)%nat with (S (S k)) by lia.
  rewrite (eval_output _ _ _ _ _ _ _ (chain_nth_last x k _)), eval_chain by lia.
  cbn [rbind]. rewrite chain_nth_last. unfold set_result. rewrite Hy. reflexivity.
Qed.
End GraphFacts.

#[local] Existing Instance host_native.

(** C1 at a float32 vector, with no identity operator in between as in the
    test, and an empty environment. *)
Lemma io_delivers_input_witness :
  let x : DeviceTensorND := (FloatArray [3] (map f32_of_Z [1; 2; 3]%Z), "xpux") in
  futures empty_env !! 0%nat = None /\
  test_io (fun _ _ => Raise ShapeMismatch) 0 x 0 empty_env
  = Ok (mkEnv (<[0%nat := x]> ∅) ∅ ∅ ∅).
Proof.
  intros x.
  assert (H : futures empty_env !! 0%nat = None) by reflexivity.
  split; [exact H|].
  exact (io_delivers_input (fun _ _ => Raise ShapeMismatch) 0 x 0 empty_env H).
Defined.
End graph_facts.

(** * Facts about the convolution modules *)

Module conv_facts.
Import conv.
Local Open Scope Z_scope.

Lemma py_mod_return (a b r : Z) :
  py_mod a b = Return r -> b <> 0 /\ r = a mod b.
Proof.
  unfold py_mod. destruct (Z.eqb_spec b 0); intros H; inversion H; auto.
Qed.

Lemma py_mod_nonzero (a b : Z) : b <> 0 -> py_mod a b = Return (a mod b).
Proof. intros H. unfold py_mod. destruct (Z.eqb_spec b 0); congruence. Qed.

Lemma py_floordiv_nonzero (a b : Z) : b <> 0 -> py_floordiv a b = Return (a / b).
Proof. intros H. unfold py_floordiv. destruct (Z.eqb_spec b 0); congruence. Qed.

Lemma assert_divisible_ok (ichl ochl group : Z) :
  group <> 0 -> ichl mod group = 0 -> ochl mod group = 0 ->
  assert_divisible ichl ochl group = Return tt.
Proof.
  intros Hg Hi Ho. unfold assert_divisible.
  rewrite !py_mod_nonzero by assumption. cbn [obind]. rewrite Hi, Ho. reflexivity.
Qed.

Lemma init_passed (self : attrs) (b : bool) :
  groups self <> 0 ->
  in_channels self mod groups self = 0 ->
  out_channels self mod groups self = 0 ->
  _ConvNd_init self b
  = (do ws <- _infer_weight_shape self;
     do w <- np_zeros ws;
     do b' <- (if b then do z <- np_zeros (_infer_bias_shape self); Return (Some z)
               else Return None);
     do fanin <- reset_parameters self;
     Return (mkModule self w b' fanin)).
Proof.
  intros Hg Hi Ho. unfold _ConvNd_init.
  rewrite !py_mod_nonzero by assumption. cbn [obind]. rewrite Hi, Ho. reflexivity.
Qed.

Lemma init_guard_cases (self : attrs) (b : bool) :
  (groups self = 0 -> _ConvNd_init self b = Throw ZeroDivisionError)
  /\ (groups self <> 0 -> in_channels self mod groups self <> 0 ->
      _ConvNd_init self b
      = Throw (ValueError "in_channels must be divisible by groups"))
  /\ (groups self <> 0 -> in_channels self mod groups self = 0 ->
      out_channels self mod groups self <> 0 ->
      _ConvNd_init self b
      = Throw (ValueError "out_channels must be divisible by groups")).
Proof.
  unfold _ConvNd_init. repeat split.
  - intros Hg. unfold py_mod. rewrite Hg. reflexivity.
  - intros Hg Hi. rewrite py_mod_nonzero by assumption. cbn [obind].
    destruct (Z.eqb_spec (in_channels self mod groups self) 0); [contradiction|].
    reflexivity.
  - intros Hg Hi Ho. rewrite !py_mod_nonzero by assumption. cbn [obind].
    rewrite Hi. cbn [Z.eqb negb].
    destruct (Z.eqb_spec (out_channels self mod groups self) 0); [contradiction|].
    reflexivity.
Qed.

(** X1. The constructor checks [groups] against the channel counts before
    anything else: zero groups raise [ZeroDivisionError]; otherwise
    [in_channels] is checked first, then [out_channels], each with its own
    [ValueError]. *)
Theorem conv_init_guards (self : attrs) (b : bool) :
  (groups self = 0 -> _ConvNd_init self b = Throw ZeroDivisionError)
  /\ (groups self <> 0 -> in_channels self mod groups self <> 0 ->
      _ConvNd_init self b
      = Throw (ValueError "in_channels must be divisible by groups"))
  /\ (groups self <> 0 -> in_channels self mod groups self = 0 ->
      out_channels self mod groups self <> 0 ->
      _ConvNd_init self b
      = Throw (ValueError "out_channels must be divisible by groups")).
Proof. exact (init_guard_cases self b). Qed.

Lemma conv_init_guards_witness :
  let a := mkAttrs Conv2d 6 4 (3, 3) (1, 1) (0, 0) (1, 1) 4
                   "CROSS_CORRELATION" "DEFAULT" 0 0 in
  groups a <> 0 /\ in_channels a mod groups a <> 0 /\
  _ConvNd_init a true = Throw (ValueError "in_channels must be divisible by groups").
Proof.
  intros a.
  assert (Hg : groups a <> 0) by discriminate.
  assert (Hi : in_channels a mod groups a <> 0) by discriminate.
  refine (conj Hg (conj Hi _)).
  exact (proj1 (proj2 (conv_init_guards a true)) Hg Hi).
Defined.

Lemma np_zeros_return (s w : list Z) :
  np_zeros s = Return w -> w = s /\ Forall (fun d => 0 <= d) s.
Proof.
  unfold np_zeros. destruct (forallb _ s) eqn:Hf; intros H; inversion H; subst.
  split; [reflexivity|]. rewrite Forall_forall. intros d Hd.
  rewrite forallb_forall in Hf. apply Z.leb_le, Hf.
  apply list_elem_of_In. exact Hd.
Qed.

Lemma init_return_inv (self : attrs) (b : bool) (m : module) :
  _ConvNd_init self b = Return m ->
  groups self <> 0 /\
  in_channels self mod groups self = 0 /\
  out_channels self mod groups self = 0.
Proof.
  unfold _ConvNd_init. intros H.
  destruct (py_mod (in_channels self) (groups self)) as [r|e] eqn:Hr; [|discriminate].
  apply py_mod_return in Hr as [Hg ->]. cbn [obind] in H.
  destruct (Z.eqb_spec (in_channels self mod groups self) 0) as [Hi|]; [|discriminate].
  cbn [negb] in H. rewrite py_mod_nonzero in H by assumption. cbn [obind] in H.
  destruct (Z.eqb_spec (out_channels self mod groups self) 0) as [Ho|]; [|discriminate].
  auto.
Qed.

Lemma init_return_facts (self : attrs) (b : bool) (m : module) :
  _ConvNd_init self b = Return m ->
  groups self <> 0 /\
  (groups self | in_channels self) /\
  (groups self | out_channels self) /\
  _get_fanin self <> 0 /\
  init_fanin m = _get_fanin self /\
  self_attrs m = self /\
  _infer_weight_shape self = Return (weight m) /\
  Forall (fun d => 0 <= d) (weight m) /\
  bias m = (if b then Some [1; out_channels self; 1; 1] else None).
Proof.
  intros H. destruct (init_return_inv self b m H) as (Hg & Hi & Ho).
  rewrite init_passed in H by assumption.
  destruct (_infer_weight_shape self) as [ws|e] eqn:Hws; [|discriminate].
  cbn [obind] in H.
  destruct (np_zeros ws) as [w|e] eqn:Hz; [|discriminate].
  apply np_zeros_return in Hz as [-> Hpos]. cbn [obind] in H.
  assert (Hb : exists b', (if b then do z <- np_zeros (_infer_bias_shape self);
                                    Return (Some z)
                           else Return None) = Return b'
                          /\ b' = (if b then Some [1; out_channels self; 1; 1] else None)).
  { destruct b.
    - cbv iota in H.
      destruct (np_zeros (_infer_bias_shape self)) as [z|e] eqn:Hzb;
        [| discriminate ].
      apply np_zeros_return in Hzb as [-> _]. eexists. split; reflexivity.
    - eexists. split; reflexivity. }
  destruct Hb as (b' & Hb & Hb'). rewrite Hb in H. cbn [obind] in H.
  unfold reset_parameters in H.
  destruct (Z.eqb_spec (_get_fanin self) 0) as [|Hf]; [discriminate|].
  cbn [obind] in H. inversion H; subst m. cbn.
  repeat split; try assumption; try reflexivity.
  - apply Z.mod_divide; assumption.
  - apply Z.mod_divide; assumption.
Qed.

(** X2. What holds of every module the constructor returns: [groups] is not
    zero and divides both channel counts, the fan-in is not zero, no
    dimension of the weight is negative, the weight has the shape its class
    infers, and the bias is [(1, out_channels, 1, 1)] or absent. *)
Theorem conv_init_sound (self : attrs) (b : bool) (m : module) :
  _ConvNd_init self b = Return m ->
  groups self <> 0 /\
  (groups self | in_channels self) /\
  (groups self | out_channels self) /\
  _get_fanin self <> 0 /\
  init_fanin m = _get_fanin self /\
  self_attrs m = self /\
  _infer_weight_shape self = Return (weight m) /\
  Forall (fun d => 0 <= d) (weight m) /\
  bias m = (if b then Some [1; out_channels self; 1; 1] else None).
Proof. exact (init_return_facts self b m). Qed.

Lemma conv_init_sound_witness :
  let a := mkAttrs Conv2d 6 4 (3, 3) (1, 1) (0, 0) (1, 1) 2
                   "CROSS_CORRELATION" "DEFAULT" 0 0 in
  let m := mkModule a [2; 2; 3; 3; 3] (Some [1; 4; 1; 1]) 54 in
  _ConvNd_init a true = Return m /\ (groups a | in_channels a) /\
  _get_fanin a <> 0.
Proof.
  intros a m.
  assert (H : _ConvNd_init a true = Return m) by reflexivity.
  destruct (conv_init_sound a true m H) as (_ & Hd & _ & Hf & _).
  exact (conj H (conj Hd Hf)).
Defined.

Lemma obind_no_assert {A B : Type} (r : outcome A) (k : A -> outcome B)
    (msg : string) (args : list Z) :
  r <> Throw (AssertError msg args) ->
  (forall a, k a <> Throw (AssertError msg args)) ->
  obind r k <> Throw (AssertError msg args).
Proof.
  intros Hr Hk. destruct r as [a|e]; cbn [obind]; [apply Hk|].
  intros H. apply Hr. inversion H. reflexivity.
Qed.

Lemma py_floordiv_no_assert (a b : Z) (msg : string) (args : list Z) :
  py_floordiv a b <> Throw (AssertError msg args).
Proof. unfold py_floordiv. destruct (Z.eqb b 0); discriminate. Qed.

Lemma np_zeros_no_assert (s : list Z) (msg : string) (args : list Z) :
  np_zeros s <> Throw (AssertError msg args).
Proof. unfold np_zeros. destruct (forallb _ s); discriminate. Qed.

Lemma reset_parameters_no_assert (self : attrs) (msg : string) (args : list Z) :
  reset_parameters self <> Throw (AssertError msg args).
Proof. unfold reset_parameters. destruct (Z.eqb _ 0); discriminate. Qed.

Lemma infer_weight_shape_no_assert (self : attrs) (msg : string) (args : list Z) :
  groups self <> 0 ->
  in_channels self mod groups self = 0 ->
  out_channels self mod groups self = 0 ->
  _infer_weight_shape self <> Throw (AssertError msg args).
Proof.
  intros Hg Hi Ho. unfold _infer_weight_shape.
  destruct (kernel_size self) as [kh kw].
  destruct (cls self).
  - destruct (Z.eqb (groups self) 1); [discriminate|].
    rewrite assert_divisible_ok, !py_floordiv_nonzero by assumption. discriminate.
  - destruct (Z.eqb (groups self) 1); [discriminate|].
    rewrite assert_divisible_ok, !py_floordiv_nonzero by assumption. discriminate.
  - repeat (apply obind_no_assert; [apply py_floordiv_no_assert | intros ?]).
    discriminate.
  - destruct (Z.eqb (groups self) 1); [discriminate|].
    rewrite assert_divisible_ok, !py_floordiv_nonzero by assumption. discriminate.
Qed.

(** X3. The assertion inside [_infer_weight_shape] never fires when the
    constructor calls it: whatever the arguments, the constructor does not
    end in that assertion error. *)
Theorem conv_init_never_asserts (self : attrs) (b : bool) (msg : string)
    (args : list Z) :
  _ConvNd_init self b <> Throw (AssertError msg args).
Proof.
  destruct (Z.eq_dec (groups self) 0) as [Hg|Hg].
  { rewrite (proj1 (init_guard_cases self b) Hg). discriminate. }
  destruct (Z.eq_dec (in_channels self mod groups self) 0) as [Hi|Hi].
  2: { rewrite (proj1 (proj2 (init_guard_cases self b)) Hg Hi). discriminate. }
  destruct (Z.eq_dec (out_channels self mod groups self) 0) as [Ho|Ho].
  2: { rewrite (proj2 (proj2 (init_guard_cases self b)) Hg Hi Ho). discriminate. }
  rewrite init_passed by assumption.
  apply obind_no_assert; [apply infer_weight_shape_no_assert; assumption | intros ws].
  apply obind_no_assert; [apply np_zeros_no_assert | intros w].
  apply obind_no_assert.
  { destruct b; [|discriminate].
    apply obind_no_assert; [apply np_zeros_no_assert | discriminate]. }
  intros b'.
  apply obind_no_assert; [apply reset_parameters_no_assert | discriminate].
Qed.

Lemma div_mul_exact (a g : Z) : g <> 0 -> a mod g = 0 -> g * (a / g) = a.
Proof. intros Hg Hm. pose proof (Z.div_mod a g Hg). lia. Qed.

(** X4. The weight of a [Conv2d], [ConvRelu2d] or [ConvTranspose2d] holds
    [in_channels * out_channels * kh * kw / groups] numbers, with or without
    the extra leading dimension of a grouped convolution. *)
Theorem conv_weight_count (self : attrs) (b : bool) (m : module) :
  _ConvNd_init self b = Return m ->
  cls self <> LocalConv2d ->
  size_of (weight m) * groups self
  = in_channels self * out_channels self
    * fst (kernel_size self) * snd (kernel_size self).
Proof.
  intros H Hc.
  destruct (init_return_inv self b m H) as (Hg & Hi & Ho).
  destruct (init_return_facts self b m H) as (_ & _ & _ & _ & _ & _ & Hws & _).
  pose proof (div_mul_exact _ _ Hg Hi) as Ei.
  pose proof (div_mul_exact _ _ Hg Ho) as Eo.
  unfold _infer_weight_shape in Hws.
  destruct (kernel_size self) as [kh kw]. cbn [fst snd].
  destruct (cls self); try contradiction;
    (destruct (Z.eqb_spec (groups self) 1) as [E1|E1];
     [ inversion Hws; unfold size_of; cbn [fold_right]; rewrite E1; ring
     | rewrite assert_divisible_ok, !py_floordiv_nonzero in Hws by assumption;
       inversion Hws; unfold size_of; cbn [fold_right];
       rewrite <- Ei at 2; rewrite <- Eo at 2; ring ]).
Qed.

Lemma conv_weight_count_witness :
  let a := mkAttrs ConvTranspose2d 6 4 (3, 5) (1, 1) (0, 0) (1, 1) 2
                   "CROSS_CORRELATION" "DEFAULT" 0 0 in
  let m := mkModule a [2; 3; 2; 3; 5] None 60 in
  _ConvNd_init a false = Return m /\ cls a <> LocalConv2d /\
  size_of (weight m) * 2 = 6 * 4 * 3 * 5.
Proof.
  intros a m.
  assert (H : _ConvNd_init a false = Return m) by reflexivity.
  assert (Hc : cls a <> LocalConv2d) by discriminate.
  refine (conj H (conj Hc _)).
  exact (conv_weight_count a false m H Hc).
Defined.

(** X5. A transposed convolution is laid out as the [Conv2d] that maps the
    other way: its weight has the shape, and its initialisation the fan-in,
    that [Conv2d] computes with the two channel counts exchanged. *)
Theorem conv_transpose_exchanged (self : attrs) (b : bool) (m : module) :
  _ConvNd_init self b = Return m ->
  cls self = ConvTranspose2d ->
  _infer_weight_shape (exchanged Conv2d self) = Return (weight m)
  /\ _get_fanin (exchanged Conv2d self) = init_fanin m.
Proof.
  intros H Hc.
  destruct (init_return_inv self b m H) as (Hg & Hi & Ho).
  destruct (init_return_facts self b m H) as (_ & _ & _ & _ & Hf & _ & Hws & _).
  split.
  - rewrite <- Hws. unfold _infer_weight_shape, exchanged.
    cbn [cls in_channels out_channels kernel_size groups]. rewrite Hc.
    destruct (kernel_size self) as [kh kw].
    destruct (Z.eqb (groups self) 1); [reflexivity|].
    rewrite !assert_divisible_ok by assumption. reflexivity.
  - rewrite Hf. unfold _get_fanin, exchanged.
    cbn [cls in_channels out_channels kernel_size]. rewrite Hc. reflexivity.
Qed.

Lemma conv_transpose_exchanged_witness :
  let a := mkAttrs ConvTranspose2d 6 4 (3, 5) (1, 1) (0, 0) (1, 1) 2
                   "CROSS_CORRELATION" "DEFAULT" 0 0 in
  let m := mkModule a [2; 3; 2; 3; 5] None 60 in
  _ConvNd_init a false = Return m /\ cls a = ConvTranspose2d /\
  _get_fanin (exchanged Conv2d a) = 60.
Proof.
  intros a m.
  assert (H : _ConvNd_init a false = Return m) by reflexivity.
  assert (Hc : cls a = ConvTranspose2d) by reflexivity.
  refine (conj H (conj Hc _)).
  exact (proj2 (conv_transpose_exchanged a false m H Hc)).
Defined.

(** X6. The output size a [LocalConv2d] gives its weight counts the windows
    that fit: with a positive stride, [output_height] kernels of height [kh]
    placed [stride] apart fit into the padded input and one more does not;
    likewise for the width.  The dilation plays no part. *)
Theorem local_conv_windows (self : attrs) :
  cls self = LocalConv2d ->
  0 < fst (stride self) -> 0 < snd (stride self) -> groups self <> 0 ->
  exists oh ow,
    _infer_weight_shape self
    = Return [groups self; oh; ow; in_channels self / groups self;
              fst (kernel_size self); snd (kernel_size self);
              out_channels self / groups self]
    /\ (oh - 1) * fst (stride self) + fst (kernel_size self)
       <= input_height self + 2 * fst (padding self)
       < oh * fst (stride self) + fst (kernel_size self)
    /\ (ow - 1) * snd (stride self) + snd (kernel_size self)
       <= input_width self + 2 * snd (padding self)
       < ow * snd (stride self) + snd (kernel_size self).
Proof.
  intros Hc Hs0 Hs1 Hg. unfold _infer_weight_shape. rewrite Hc.
  destruct (kernel_size self) as [kh kw]. cbn [fst snd].
  rewrite !py_floordiv_nonzero by lia. cbn [obind].
  eexists _, _. split; [reflexivity|].
  split.
  - pose proof (Z.div_mod (input_height self + fst (padding self) * 2 - kh)
                          (fst (stride self)) ltac:(lia)) as E.
    pose proof (Z.mod_pos_bound (input_height self + fst (padding self) * 2 - kh)
                                (fst (stride self)) Hs0) as B.
    nia.
  - pose proof (Z.div_mod (input_width self + snd (padding self) * 2 - kw)
                          (snd (stride self)) ltac:(lia)) as E.
    pose proof (Z.mod_pos_bound (input_width self + snd (padding self) * 2 - kw)
                                (snd (stride self)) Hs1) as B.
    nia.
Qed.

Lemma local_conv_windows_witness :
  let a := mkAttrs LocalConv2d 4 6 (3, 3) (2, 2) (1, 0) (1, 1) 2
                   "CROSS_CORRELATION" "DEFAULT" 8 7 in
  exists oh ow,
    _infer_weight_shape a = Return [2; oh; ow; 2; 3; 3; 3]
    /\ (oh - 1) * 2 + 3 <= 8 + 2 * 1 < oh * 2 + 3
    /\ (ow - 1) * 2 + 3 <= 7 + 2 * 0 < ow * 2 + 3.
Proof.
  intros a.
  assert (Hg : groups a <> 0) by discriminate.
  exact (local_conv_windows a eq_refl eq_refl eq_refl Hg).
Defined.

(** X7. [LocalConv2d] takes a [conv_mode] argument and drops it: whatever is
    passed, a module it builds has mode [CROSS_CORRELATION], compute mode
    [DEFAULT] and no bias. *)
Theorem local_conv_drops_mode (ic oc h w : Z) (ks st pd dl : Z * Z) (g : Z)
    (cm : string) (m : module) :
  LocalConv2d_init ic oc h w ks st pd dl g cm = Return m ->
  conv_mode (self_attrs m) = "CROSS_CORRELATION"
  /\ compute_mode (self_attrs m) = "DEFAULT"
  /\ bias m = None
  /\ forall cm', LocalConv2d_init ic oc h w ks st pd dl g cm' = Return m.
Proof.
  unfold LocalConv2d_init, Conv_init. intros H.
  destruct (init_return_facts _ _ _ H) as (_ & _ & _ & _ & _ & Hs & _ & _ & Hb).
  rewrite Hs. cbn [conv_mode compute_mode]. auto.
Qed.

Lemma local_conv_drops_mode_witness :
  let a := mkAttrs LocalConv2d 4 6 (3, 3) (2, 2) (1, 0) (1, 1) 2
                   "CROSS_CORRELATION" "DEFAULT" 8 7 in
  let m := mkModule a [2; 4; 3; 2; 3; 3; 3] None 36 in
  LocalConv2d_init 4 6 8 7 (3, 3) (2, 2) (1, 0) (1, 1) 2 "CONVOLUTION" = Return m
  /\ conv_mode (self_attrs m) = "CROSS_CORRELATION".
Proof.
  intros a m.
  assert (H : LocalConv2d_init 4 6 8 7 (3, 3) (2, 2) (1, 0) (1, 1) 2 "CONVOLUTION"
              = Return m) by reflexivity.
  refine (conj H _).
  exact (proj1 (local_conv_drops_mode 4 6 8 7 (3, 3) (2, 2) (1, 0) (1, 1) 2
                  "CONVOLUTION" m H)).
Defined.
End conv_facts.

(** * Facts about the hinge loss *)

Module hinge_facts.
Import functional hinge.
Local Open Scope list_scope.

Section HingeFacts.
Context {E : Type} {ops : ElemOps E} {rops : ReluOps E}.

Lemma elemwise2_raises (f : E -> E -> E) (a b : operand E) (e : exn) :
  elemwise2 f a b = Raise e -> e = ShapeMismatch.
Proof.
  unfold elemwise2. destruct (bcast_shape _ _); intros H; inversion H. reflexivity.
Qed.

Lemma sum_axis_raises (axis : nat) (t : Tensor E) (e : exn) :
  sum_axis axis t = Raise e -> e = ShapeMismatch.
Proof.
  unfold sum_axis. destruct (Nat.ltb _ _); intros H; inversion H. reflexivity.
Qed.

Lemma known_norm_spec (norm : string) :
  known_norm norm = false <-> norm <> "L1" /\ norm <> "L2".
Proof.
  unfold known_norm.
  destruct (String.eqb_spec norm "L1"), (String.eqb_spec norm "L2"); cbn;
    split; intros H; try discriminate; try tauto; destruct H; congruence.
Qed.

Lemma hinge_norm_cases (pred label : Tensor E) (norm : string) :
  hinge_loss pred label norm = Raise (AssertionError "norm must be L1 or L2")
  <-> norm <> "L1" /\ norm <> "L2".
Proof.
  rewrite <- known_norm_spec. unfold hinge_loss.
  destruct (known_norm norm); [|tauto].
  split; [|discriminate]. intros H. exfalso.
  destruct (mul (OfTensor pred) (OfTensor label)) as [prod|e] eqn:Hm; cbn [rbind] in H.
  2: { apply elemwise2_raises in Hm. congruence. }
  destruct (sub (OfFloat (float_of_Z 1)) (OfTensor prod)) as [margin|e] eqn:Hs;
    cbn [rbind] in H.
  2: { apply elemwise2_raises in Hs. congruence. }
  destruct (String.eqb norm "L1").
  - destruct (sum_axis 1 (relu margin)) as [s|e] eqn:Ha; cbn [rbind] in H;
      [discriminate|]. apply sum_axis_raises in Ha. congruence.
  - destruct (pow (OfTensor (relu margin)) (OfInt 2)) as [sq|e] eqn:Hp;
      cbn [rbind] in H.
    2: { apply elemwise2_raises in Hp. congruence. }
    destruct (sum_axis 1 sq) as [s|e] eqn:Ha; cbn [rbind] in H;
      [discriminate|]. apply sum_axis_raises in Ha. congruence.
Qed.

Lemma sum_axis_rows (N C : nat) (d : list E) :
  sum_axis 1 (mkTensor [N; C] d)
  = Ok (mkTensor [N]
          (map (fun i => sum_upto (fun j => nth (i * C + j) d (e_of_int 0)) C)
               (seq 0 N))).
Proof.
  unfold sum_axis. cbn [shape length Nat.ltb Nat.leb firstn skipn nth numel fold_right app].
  f_equal. f_equal. rewrite Nat.mul_1_r. cbn [seq map].
  induction (seq 0 N) as [|o l IH]; cbn [flat_map map]; [reflexivity|].
  rewrite IH. cbn [app]. f_equal.
  apply loss_facts.sum_upto_ext. intros k Hk. unfold item. cbn [data].
  f_equal. lia.
Qed.

Lemma mean_rows (N : nat) (f : nat -> E) :
  mean (mkTensor [N] (map f (seq 0 N))) = mkTensor [1%nat] [mean_upto f N].
Proof.
  rewrite loss_facts.mean_index. cbn [data]. rewrite length_map, length_seq.
  do 2 f_equal. apply loss_facts.mean_upto_ext. intros i Hi.
  unfold item. cbn [data].
  rewrite (nth_indep _ _ (f 0%nat)) by (rewrite length_map, length_seq; exact Hi).
  rewrite map_nth, seq_nth by exact Hi. reflexivity.
Qed.

Lemma index_bound (N C i j : nat) : (i < N)%nat -> (j < C)%nat -> (i * C + j < N * C)%nat.
Proof. intros Hi Hj. nia. Qed.

Lemma hinge_loss_rows (pred label : Tensor E) (N C : nat) :
  shape pred = [N; C] -> shape label = [N; C] ->
  well_shaped pred -> well_shaped label ->
  hinge_loss pred label "L1"
  = Ok (mkTensor [1%nat]
          [mean_upto (fun i => sum_upto (hinge_term pred label C i) C) N])
  /\ hinge_loss pred label "L2"
     = Ok (mkTensor [1%nat]
             [mean_upto
                (fun i => sum_upto
                            (fun j => e_pow (hinge_term pred label C i j) (e_of_int 2)) C)
                N]).
Proof.
  intros Hsp Hsl Hp Hl.
  destruct pred as [sp P], label as [sl L]. cbn [shape] in Hsp, Hsl. subst sp sl.
  unfold well_shaped in Hp, Hl. cbn [shape data numel fold_right] in Hp, Hl.
  rewrite Nat.mul_1_r in Hp, Hl.
  assert (Hm : mul (OfTensor (mkTensor [N; C] P)) (OfTensor (mkTensor [N; C] L))
               = Ok (mkTensor [N; C] (zip_with_k e_mul P L))).
  { unfold mul. rewrite loss_facts.elemwise2_same_shape; try reflexivity;
      unfold well_shaped; cbn [shape data numel fold_right]; lia. }
  assert (Hlen : length (zip_with_k e_mul P L) = (N * C)%nat).
  { rewrite loss_facts.zip_with_k_length; congruence. }
  assert (Hs : sub (OfFloat (float_of_Z 1))
                   (OfTensor (mkTensor [N; C] (zip_with_k e_mul P L)))
               = Ok (mkTensor [N; C]
                       (map (e_sub (e_of_float (float_of_Z 1)))
                            (zip_with_k e_mul P L)))).
  { unfold sub.
    rewrite (loss_facts.elemwise2_scalar_l _ _ _ (e_of_float (float_of_Z 1)));
      try reflexivity; [discriminate|].
    unfold well_shaped; cbn [shape data numel fold_right]; lia. }
  assert (Hitem : forall i j, (i < N)%nat -> (j < C)%nat ->
            nth (i * C + j)
                (map e_relu (map (e_sub (e_of_float (float_of_Z 1)))
                                 (zip_with_k e_mul P L))) (e_of_int 0)
            = hinge_term (mkTensor [N; C] P) (mkTensor [N; C] L) C i j).
  { intros i j Hi Hj. pose proof (index_bound N C i j Hi Hj) as Hb.
    rewrite !loss_facts.nth_map_lt by (rewrite ?length_map; lia).
    rewrite loss_facts.zip_with_k_nth by lia. reflexivity. }
  split.
  - unfold hinge_loss. cbn [known_norm String.eqb Ascii.eqb Bool.eqb orb].
    rewrite Hm. cbn [rbind]. rewrite Hs. cbn [rbind].
    unfold relu, elemwise1. cbn [shape data].
    rewrite sum_axis_rows. cbn [rbind]. rewrite mean_rows.
    do 3 f_equal. apply loss_facts.mean_upto_ext. intros i Hi.
    apply loss_facts.sum_upto_ext. intros j Hj. apply Hitem; assumption.
  - unfold hinge_loss. cbn [known_norm String.eqb Ascii.eqb Bool.eqb orb].
    rewrite Hm. cbn [rbind]. rewrite Hs. cbn [rbind].
    unfold relu, elemwise1. cbn [shape data]. unfold pow.
    rewrite (loss_facts.elemwise2_scalar_r _ _ _ (e_of_int 2));
      try reflexivity; [| discriminate
      | unfold well_shaped; cbn [shape data numel fold_right];
        rewrite !length_map; lia ].
    cbn [rbind shape data].
    rewrite sum_axis_rows. cbn [rbind]. rewrite mean_rows.
    do 3 f_equal. apply loss_facts.mean_upto_ext. intros i Hi.
    apply loss_facts.sum_upto_ext. intros j Hj.
    pose proof (index_bound N C i j Hi Hj) as Hb.
    rewrite loss_facts.nth_map_lt by (rewrite !length_map; lia).
    f_equal. apply Hitem; assumption.
Qed.
End HingeFacts.

(** X8. [hinge_loss] ends in its assertion error exactly when [norm] is
    neither [L1] nor [L2]; the check comes first, so it is what an unknown
    norm gives whatever the tensors are. *)
Theorem hinge_loss_checks_norm :
  forall (E : Type) (ops : ElemOps E) (rops : ReluOps E)
         (pred label : Tensor E) (norm : string),
    hinge_loss pred label norm = Raise (AssertionError "norm must be L1 or L2")
    <-> norm <> "L1" /\ norm <> "L2".
Proof. intros E ops rops pred label norm. apply hinge_norm_cases. Qed.

(** X9. For [pred] and [label] of shape [(N, C)], [hinge_loss] is the mean
    over the [N] rows of the row sums of [relu(1 - pred * label)], and of
    the squares of these terms for [L2], whatever the kernels; with float32
    kernels the tensors of the docstring give exactly 1.5. *)
Theorem hinge_loss_is_row_mean :
  (forall (E : Type) (ops : ElemOps E) (rops : ReluOps E)
          (pred label : Tensor E) (N C : nat),
      shape pred = [N; C] -> shape label = [N; C] ->
      well_shaped pred -> well_shaped label ->
      hinge_loss pred label "L1"
      = Ok (mkTensor [1%nat]
              [mean_upto (fun i => sum_upto (hinge_term pred label C i) C) N])
      /\ hinge_loss pred label "L2"
         = Ok (mkTensor [1%nat]
                 [mean_upto
                    (fun i =>
                       sum_upto
                         (fun j => e_pow (hinge_term pred label C i j) (e_of_int 2)) C)
                    N]))
  /\ (forall logk powk,
         @hinge_loss f32 (f32_ops logk powk) f32_relu_ops
           (f32_tenths 2 3 [5; -5; 1; -6; 7; 8]%Z)
           (f32_matrix 2 3 [1; -1; -1; -1; 1; 1]%Z) "L1"
         = Ok (mkTensor [1%nat] [f32_of_float (float_of_dyadic 3 (-1))]))
  /\ SF2R (f32_of_float (float_of_dyadic 3 (-1))) = 1.5%R.
Proof.
  split; [| split].
  - intros E ops rops pred label N C. apply hinge_loss_rows.
  - intros logk powk. vm_compute. reflexivity.
  - change (f32_of_float (float_of_dyadic 3 (-1)))
      with (S754_finite false 12582912 (-23)).
    unfold SF2R, cond_Zopp, powerRZ.
    replace (2 ^ Pos.to_nat 23)%R with 8388608%R.
    + lra.
    + change (Pos.to_nat 23) with 23%nat. simpl. lra.
Qed.

Lemma hinge_loss_is_row_mean_witness :
  let ops := f32_ops (fun x => x) (fun x _ => x) in
  let pred := f32_tenths 2 3 [5; -5; 1; -6; 7; 8]%Z in
  let label := f32_matrix 2 3 [1; -1; -1; -1; 1; 1]%Z in
  shape pred = [2; 3]%nat /\ shape label = [2; 3]%nat /\
  well_shaped pred /\ well_shaped label /\
  @hinge_loss f32 ops f32_relu_ops pred label "L1"
  = Ok (mkTensor [1%nat]
          [@mean_upto f32 ops
             (fun i => @sum_upto f32 ops
                         (@hinge_term f32 ops f32_relu_ops pred label 3 i) 3) 2]).
Proof.
  intros ops pred label.
  assert (Hsp : shape pred = [2; 3]%nat) by reflexivity.
  assert (Hsl : shape label = [2; 3]%nat) by reflexivity.
  assert (Hp : well_shaped pred) by reflexivity.
  assert (Hl : well_shaped label) by reflexivity.
  refine (conj Hsp (conj Hsl (conj Hp (conj Hl _)))).
  exact (proj1 (proj1 hinge_loss_is_row_mean f32 ops f32_relu_ops pred label 2%nat 3%nat
                  Hsp Hsl Hp Hl)).
Defined.

Section RealHinge.
Local Open Scope R_scope.
#[local] Existing Instance real_ops.
#[local] Existing Instance real_relu_ops.

Lemma real_sum_upto_nonneg (f : nat -> R) (n : nat) :
  (forall k, (k < n)%nat -> 0 <= f k) ->
  0 <= sum_upto f n
  /\ (sum_upto f n = 0 <-> forall k, (k < n)%nat -> f k = 0).
Proof.
  induction n as [|n IH]; intros Hf.
  - cbn. split; [lra|]. split; [intros _ k Hk; lia | reflexivity].
  - destruct IH as [IH0 IH1]; [intros k Hk; apply Hf; lia|].
    pose proof (Hf n ltac:(lia)) as Hn.
    cbn [sum_upto e_add real_ops]. split; [lra|]. split.
    + intros H k Hk. destruct (Nat.eq_dec k n) as [->|Hne]; [lra|].
      apply IH1; [lra | lia].
    + intros H. rewrite (proj2 IH1) by (intros k Hk; apply H; lia).
      rewrite (H n) by lia. lra.
Qed.

Lemma real_hinge_term (pred label : Tensor R) (c i j : nat) :
  hinge_term pred label c i j
  = Rmax 0 (1 - item pred (i * c + j) * item label (i * c + j)).
Proof.
  unfold hinge_term. cbn [e_relu real_relu_ops e_sub e_mul e_of_float real_ops].
  rewrite loss_facts.SF2R_one. reflexivity.
Qed.

Lemma Rmax_zero_iff (x : R) : Rmax 0 (1 - x) = 0 <-> 1 <= x.
Proof.
  unfold Rmax. destruct (Rle_dec 0 (1 - x)); split; intros; lra.
Qed.

(** X10. With exact arithmetic the [L1] hinge loss of [(N, C)] tensors is
    never negative, and it is zero exactly when every entry has margin at
    least one, that is [pred * label >= 1] everywhere. *)
Theorem hinge_loss_zero_iff_margins (pred label : Tensor R) (N C : nat) :
  shape pred = [N; C]%nat -> shape label = [N; C]%nat ->
  well_shaped pred -> well_shaped label -> (0 < N)%nat ->
  exists v : R,
    hinge_loss pred label "L1" = Ok (mkTensor [1%nat] [v])
    /\ 0 <= v
    /\ (v = 0 <->
        forall i j, (i < N)%nat -> (j < C)%nat ->
                    1 <= item pred (i * C + j) * item label (i * C + j)).
Proof.
  intros Hsp Hsl Hp Hl HN.
  destruct (hinge_loss_rows pred label N C Hsp Hsl Hp Hl) as [H1 _].
  eexists. split; [exact H1|].
  assert (Hrow : forall i,
             0 <= sum_upto (hinge_term pred label C i) C
             /\ (sum_upto (hinge_term pred label C i) C = 0 <->
                 forall j, (j < C)%nat ->
                           1 <= item pred (i * C + j) * item label (i * C + j))).
  { intros i.
    destruct (real_sum_upto_nonneg (hinge_term pred label C i) C) as [Ha Hb].
    { intros k _. rewrite real_hinge_term. apply Rmax_l. }
    split; [exact Ha|]. rewrite Hb.
    split; intros H j Hj; specialize (H j Hj);
      rewrite real_hinge_term in *; apply Rmax_zero_iff; exact H. }
  destruct (real_sum_upto_nonneg
              (fun i => sum_upto (hinge_term pred label C i) C) N) as [Ha Hb].
  { intros k _. apply Hrow. }
  assert (HNR : 0 < IZR (Z.of_nat N)).
  { apply IZR_lt. lia. }
  unfold mean_upto. cbn [e_true_div e_of_int real_ops]. split.
  - apply Rmult_le_pos; [exact Ha|]. left. apply Rinv_0_lt_compat. exact HNR.
  - split.
    + intros H i j Hi Hj. apply (proj1 (proj2 (Hrow i))); [|exact Hj].
      apply Hb; [|exact Hi].
      unfold Rdiv in H. apply Rmult_integral in H as [H|H]; [exact H|].
      pose proof (Rinv_0_lt_compat _ HNR). lra.
    + intros H. unfold Rdiv.
      rewrite (proj2 Hb); [lra|]. intros i Hi. apply (proj2 (proj2 (Hrow i))).
      intros j Hj. apply H; assumption.
Qed.
End RealHinge.

Lemma hinge_loss_zero_iff_margins_witness :
  let pred := @mkTensor R [1; 2]%nat [2; -3]%R in
  let label := @mkTensor R [1; 2]%nat [1; -1]%R in
  exists v : R,
    @hinge_loss R real_ops real_relu_ops pred label "L1" = Ok (mkTensor [1%nat] [v])
    /\ (0 <= v)%R.
Proof.
  intros pred label.
  assert (Hsp : shape pred = [1; 2]%nat) by reflexivity.
  assert (Hsl : shape label = [1; 2]%nat) by reflexivity.
  assert (Hp : well_shaped pred) by reflexivity.
  assert (Hl : well_shaped label) by reflexivity.
  assert (HN : (0 < 1)%nat) by lia.
  destruct (hinge_loss_zero_iff_margins pred label 1 2 Hsp Hsl Hp Hl HN)
    as (v & Hv & Hpos & _).
  exists v. exact (conj Hv Hpos).
Defined.
End hinge_facts.

(** * The losses as distances, in exact arithmetic *)

Module distance_facts.
Import functional.
Local Open Scope list_scope.
Local Open Scope R_scope.
#[local] Existing Instance real_ops.

Lemma R_pow_two (x : R) : R_pow x (IZR 2) = x * x.
Proof.
  unfold R_pow.
  assert (Hi : Int_part (IZR 2) = 2%Z).
  { change (IZR 2) with (INR 2). rewrite Int_part_INR. reflexivity. }
  assert (Hf : frac_part (IZR 2) = 0).
  { unfold frac_part. rewrite Hi. lra. }
  destruct (Req_dec_T (frac_part (IZR 2)) 0) as [_|Hn]; [|contradiction].
  rewrite Hi. change (powerRZ x 2) with (x * (x * 1)). ring.
Qed.

Lemma items_equal (a b : Tensor R) :
  length (data a) = length (data b) ->
  (forall n, (n < length (data a))%nat -> item a n = item b n) <-> data a = data b.
Proof.
  intros Hlen. split.
  - intros H. apply (nth_ext _ _ (e_of_int 0) (e_of_int 0) Hlen). exact H.
  - intros H n _. unfold item. rewrite H. reflexivity.
Qed.

Lemma real_mean_zero_iff (f : nat -> R) (n : nat) :
  (0 < n)%nat -> (forall k, (k < n)%nat -> 0 <= f k) ->
  0 <= mean_upto f n /\ (mean_upto f n = 0 <-> forall k, (k < n)%nat -> f k = 0).
Proof.
  intros Hn Hf.
  destruct (hinge_facts.real_sum_upto_nonneg f n Hf) as [Ha Hb].
  assert (HNR : 0 < IZR (Z.of_nat n)) by (apply IZR_lt; lia).
  pose proof (Rinv_0_lt_compat _ HNR) as Hinv.
  unfold mean_upto. cbn [e_true_div e_of_int real_ops]. unfold Rdiv. split.
  - apply Rmult_le_pos; lra.
  - rewrite <- Hb. split; intros H.
    + apply Rmult_integral in H as [H|H]; lra.
    + rewrite H. lra.
Qed.

(** X11. With exact arithmetic [l1_loss] and [square_loss] behave as
    distances: the value does not depend on the order of the two tensors,
    it is never negative, and it is zero exactly when the tensors hold the
    same items. *)
Theorem losses_are_distances (pred label : Tensor R) :
  shape pred = shape label -> shape pred <> [] ->
  well_shaped pred -> well_shaped label ->
  (0 < numel (shape pred))%nat ->
  exists v1 v2 : R,
    l1_loss pred label = Ok (mkTensor [1%nat] [v1])
    /\ l1_loss label pred = Ok (mkTensor [1%nat] [v1])
    /\ square_loss pred label = Ok (mkTensor [1%nat] [v2])
    /\ square_loss label pred = Ok (mkTensor [1%nat] [v2])
    /\ 0 <= v1 /\ 0 <= v2
    /\ (v1 = 0 <-> data pred = data label)
    /\ (v2 = 0 <-> data pred = data label).
Proof.
  intros Hs Hne Hp Hl Hn.
  assert (Hne' : shape label <> []) by congruence.
  assert (Hlen : length (data pred) = length (data label)).
  { unfold well_shaped in *. congruence. }
  rewrite (loss_facts.l1_loss_formula pred label Hs Hp Hl).
  rewrite (loss_facts.l1_loss_formula label pred (eq_sym Hs) Hl Hp).
  rewrite (loss_facts.square_loss_formula pred label Hs Hne Hp Hl).
  rewrite (loss_facts.square_loss_formula label pred (eq_sym Hs) Hne' Hl Hp).
  rewrite <- Hs.
  set (n := numel (shape pred)) in *.
  set (f1 := fun k => e_abs (e_sub (item pred k) (item label k))).
  set (f2 := fun k => e_pow (e_sub (item pred k) (item label k)) (e_of_int 2)).
  assert (E1 : forall k, f1 k = Rabs (item pred k - item label k)) by reflexivity.
  assert (E2 : forall k, f2 k = (item pred k - item label k) * (item pred k - item label k)).
  { intros k. unfold f2. cbn [e_pow e_sub e_of_int real_ops]. apply R_pow_two. }
  destruct (real_mean_zero_iff f1 n Hn) as [P1 Z1].
  { intros k _. rewrite E1. apply Rabs_pos. }
  destruct (real_mean_zero_iff f2 n Hn) as [P2 Z2].
  { intros k _. rewrite E2. generalize (item pred k - item label k). intros d. nra. }
  exists (mean_upto f1 n), (mean_upto f2 n).
  split; [reflexivity|]. split.
  { do 3 f_equal. apply loss_facts.mean_upto_ext. intros k _.
    rewrite E1. cbn [e_abs e_sub real_ops]. apply Rabs_minus_sym. }
  split; [reflexivity|]. split.
  { do 3 f_equal. apply loss_facts.mean_upto_ext. intros k _.
    rewrite E2. cbn [e_pow e_sub e_of_int real_ops]. rewrite R_pow_two. ring. }
  split; [exact P1|]. split; [exact P2|].
  rewrite <- (items_equal pred label Hlen), Z1, Z2.
  replace (length (data pred)) with n by (symmetry; exact Hp).
  split; (split; intros H k Hk; specialize (H k Hk)).
  - rewrite E1 in H. destruct (Req_dec (item pred k - item label k) 0) as [E|E]; [lra|].
    apply Rabs_no_R0 in E. contradiction.
  - rewrite E1, H, Rminus_diag. apply Rabs_R0.
  - rewrite E2 in H. apply Rmult_integral in H. lra.
  - rewrite E2, H. ring.
Qed.

Lemma losses_are_distances_witness :
  let pred := @mkTensor R [2]%nat [3; 5]%R in
  let label := @mkTensor R [2]%nat [2; 8]%R in
  exists v1 v2 : R,
    @l1_loss R real_ops pred label = Ok (mkTensor [1%nat] [v1])
    /\ @l1_loss R real_ops label pred = Ok (mkTensor [1%nat] [v1])
    /\ @square_loss R real_ops pred label = Ok (mkTensor [1%nat] [v2])
    /\ (0 <= v1)%R /\ (0 <= v2)%R.
Proof.
  intros pred label.
  assert (Hs : shape pred = shape label) by reflexivity.
  assert (Hne : shape pred <> []) by discriminate.
  assert (Hp : well_shaped pred) by reflexivity.
  assert (Hl : well_shaped label) by reflexivity.
  assert (Hn : (0 < numel (shape pred))%nat) by (cbn; lia).
  destruct (losses_are_distances pred label Hs Hne Hp Hl Hn)
    as (v1 & v2 & H1 & H2 & H3 & _ & P1 & P2 & _).
  exists v1, v2. exact (conj H1 (conj H2 (conj H3 (conj P1 P2)))).
Defined.
End distance_facts.

(** * Facts about the sampling functions *)

Module distribution_facts.
Import tensor random distribution.

Section SamplingFacts.
Context {native : Native}.
Variable gaussian_rng : Z -> pyfloat -> pyfloat -> ndarray -> ndarray.

Lemma steady_ret {A : Type} (a : A) : steady (ret a).
Proof. intros w. reflexivity. Qed.

Lemma steady_raise {A : Type} (e : exn) : steady (@raise _ A e).
Proof. intros w. reflexivity. Qed.

Lemma steady_bind {A B : Type} (m : M A) (k : A -> M B) :
  steady m -> (forall a, steady (k a)) -> steady (bind m k).
Proof.
  intros Hm Hk w. unfold bind. specialize (Hm w).
  destruct (m w) as [[a|e] w1]; cbn [snd] in *; [rewrite Hk|]; exact Hm.
Qed.

Lemma steady_load (a : addr) : steady (load a).
Proof. intros w. unfold load. destruct (heap w !! a); reflexivity. Qed.

Lemma steady_alloc (o : obj) : steady (alloc o).
Proof. intros w. reflexivity. Qed.

Lemma steady_store (a : addr) (o : obj) : steady (store a o).
Proof. intros w. reflexivity. Qed.

Create HintDb steady.

Ltac steady_step :=
  first
    [ solve [auto 1 with steady nocore]
    | apply steady_ret
    | apply steady_raise
    | apply steady_load
    | apply steady_alloc
    | apply steady_store
    | apply steady_bind; [| intros ? ]
    | match goal with
      | |- steady (match ?x with _ => _ end) => destruct x
      | |- steady (fun w => (Ok _, _)) => intros ?; reflexivity
      end ].

Ltac steady_auto := repeat steady_step.

Lemma steady_resident (self : addr) : steady (resident self).
Proof. unfold resident, get_wrapped. steady_auto. Qed.
#[local] Hint Resolve steady_resident : steady.

Lemma steady_Tensor (data dtype device : pyval) : steady (Tensor data dtype device).
Proof.
  unfold Tensor, __new__, __init__, get_default_device, set_q_dict,
    TensorWrapper_init, as_raw_tensor, as_array, with_dtype, as_device, set_wrapped.
  steady_auto.
Qed.
#[local] Hint Resolve steady_Tensor : steady.

Lemma steady_apply_result (v : ndarray) (cn : CompNode) : steady (apply_result v cn).
Proof. unfold apply_result. steady_auto. Qed.
#[local] Hint Resolve steady_apply_result : steady.

Lemma next_seed_rng {A : Type} (k : Z -> M A) (w : World) :
  (forall z, steady (k z)) ->
  rng (snd (bind _random_seed_generator_next k w)) = S (rng w).
Proof.
  intros Hk. unfold bind, _random_seed_generator_next. rewrite Hk. reflexivity.
Qed.

Lemma sample_rng (c : sampling) (w : World) :
  rng (snd (sample gaussian_rng c w))
  = (rng w + (if refused c then 0 else 1))%nat.
Proof.
  destruct c as [mean std size | low high size]; cbn [sample refused].
  - unfold normal. rewrite next_seed_rng; [lia|].
    intros z. unfold apply_GaussianRNG. steady_auto.
  - unfold uniform. destruct (py_lt low high); cbn [negb].
    + rewrite next_seed_rng; [lia|].
      intros z. unfold apply_UniformRNG, __rmul__, __radd__. steady_auto.
    + cbn. lia.
Qed.

Lemma normal_draw (mean std : pyfloat) (l : list Z) (w : World) :
  exists t w',
    normal gaussian_rng mean std (VInts l) w = (Ok t, w') /\
    numpy t w'
    = (Ok (gaussian_rng (random_raw (rng w)) mean std
             (astype (array_of_ints l) (dtype_of_string "int32"))), w') /\
    device t w' = (Ok (comp_node (default_device w)), w') /\
    rng w' = S (rng w) /\
    default_device w' = default_device w.
Proof.
  unfold normal, _random_seed_generator_next, apply_GaussianRNG,
    apply_result, resident, get_wrapped,
    Tensor, __new__, __init__, get_default_device, set_q_dict, TensorWrapper_init,
    as_raw_tensor, as_array, with_dtype, as_device, set_wrapped.
  repeat tensor_facts.run_step.
  do 2 eexists. split; [reflexivity|].
  unfold numpy, device, resident, get_wrapped.
  repeat tensor_facts.run_step. auto.
Qed.

(** X12. [normal] checks nothing: for every mean and standard deviation and
    every tuple of ints as size it draws one seed and returns a new tensor
    on the default device that holds the sample of the Gaussian operator for
    that seed, mean, standard deviation and size; [size=None] is the call
    with size [(1,)]. *)
Theorem normal_draws_one_seed :
  (forall (mean std : pyfloat) (l : list Z) (w : World),
      exists t w',
        normal gaussian_rng mean std (VInts l) w = (Ok t, w') /\
        numpy t w'
        = (Ok (gaussian_rng (random_raw (rng w)) mean std
                 (astype (array_of_ints l) (dtype_of_string "int32"))), w') /\
        device t w' = (Ok (comp_node (default_device w)), w') /\
        rng w' = S (rng w))
  /\ (forall (mean std : pyfloat) (w : World),
         normal gaussian_rng mean std VNone w
         = normal gaussian_rng mean std (VInts [1%Z]) w).
Proof.
  split; [|reflexivity].
  intros mean std l w.
  destruct (normal_draw mean std l w) as (t & w' & H & Hn & Hd & Hr & _).
  exists t, w'. auto.
Qed.

(** X13. The seeded generator advances by one for every sampling call that
    gets past the check of its arguments, also when the call fails later on
    its size, and not at all for a [uniform] call refused for its bounds: a
    program of sampling calls leaves the generator advanced by the number
    of calls that were not refused. *)
Theorem seeds_drawn (cs : list sampling) (w : World) :
  rng (sample_all gaussian_rng cs w) = (rng w + drawn cs)%nat.
Proof.
  revert w. induction cs as [|c cs IH]; intros w.
  - cbn. lia.
  - change (sample_all gaussian_rng (c :: cs) w)
      with (sample_all gaussian_rng cs (snd (sample gaussian_rng c w))).
    rewrite IH, sample_rng. unfold drawn. cbn [List.filter].
    destruct (refused c); cbn [negb length]; lia.
Qed.
End SamplingFacts.
End distribution_facts.

(** * More facts about the tensor facade *)

Module facade_facts.
Import tensor tensor_facts pickling.

Section MoreFacadeFacts.
Context {native : Native}.

Lemma bind_ok_inv {A B : Type} (m : M A) (k : A -> M B) (w w' : World) (b : B) :
  bind m k w = (Ok b, w') -> exists a w1, m w = (Ok a, w1) /\ k a w1 = (Ok b, w').
Proof.
  unfold bind. destruct (m w) as [[a|e] w1]; [eauto | discriminate].
Qed.


Lemma pop_none (state : gmap string pyval) (key : string) (w : World) :
  state !! key = None -> pop state key w = (Raise (KeyError key), w).
Proof. intros H. unfold pop. rewrite H. reflexivity. Qed.

Lemma pop_ok_inv (state : gmap string pyval) (key : string) (p : pyval * gmap string pyval)
    (w w' : World) :
  pop state key w = (Ok p, w') ->
  w' = w /\ state !! key = Some (fst p) /\ snd p = delete key state.
Proof.
  unfold pop. destruct (state !! key) as [v|]; intros H; inversion H; auto.
Qed.



(** X15. A state dictionary serves once: when [__setstate__] succeeds, the
    four entries have been popped from the dictionary and every other entry
    is left in it unread, so giving the same dictionary to [__setstate__]
    again raises [KeyError] for [data]. *)
Theorem setstate_consumes_state (self : addr) (state rest : gmap string pyval)
    (w w' : World) :
  __setstate__ self state w = (Ok rest, w') ->
  rest = consumed state
  /\ (forall k, k <> "data" -> k <> "device" -> k <> "dtype" -> k <> "qdict" ->
                rest !! k = state !! k)
  /\ (forall self' w'',
         __setstate__ self' rest w'' = (Raise (KeyError "data"), w'')).
Proof.
  unfold __setstate__. cbv zeta. intros H.
  apply bind_ok_inv in H as (p1 & w1 & H1 & H).
  apply pop_ok_inv in H1 as (-> & _ & E1).
  apply bind_ok_inv in H as (p2 & w2 & H2 & H).
  apply pop_ok_inv in H2 as (-> & _ & E2).
  apply bind_ok_inv in H as (cb & w3 & H3 & H).
  unfold get_dmap_callback in H3. inversion H3; subst cb w3. clear H3.
  apply bind_ok_inv in H as (device & w4 & H4 & H).
  assert (w4 = w) as ->.
  { destruct (dmap_callback w); [destruct (fst p2)|]; inversion H4; reflexivity. }
  clear H4.
  apply bind_ok_inv in H as (p3 & w5 & H5 & H).
  apply pop_ok_inv in H5 as (-> & _ & E3).
  apply bind_ok_inv in H as (p4 & w6 & H6 & H).
  apply pop_ok_inv in H6 as (-> & _ & E4).
  apply bind_ok_inv in H as (u & w7 & _ & H).
  apply bind_ok_inv in H as (u' & w8 & _ & H).
  unfold ret in H. inversion H; subst rest w8. clear H.
  assert (E : snd p4 = consumed state).
  { unfold consumed. rewrite E4, E3, E2, E1. reflexivity. }
  rewrite E. split; [reflexivity|]. split.
  - intros k K1 K2 K3 K4. unfold consumed.
    rewrite !lookup_delete_ne by congruence. reflexivity.
  - intros self' w''.
    apply (bind_raise _ _ w'' w'' (KeyError "data")). apply pop_none.
    unfold consumed. rewrite !lookup_delete_ne by done. apply lookup_delete_eq.
Qed.

Lemma apply_result_cells (v : ndarray) (cn : CompNode) (w : World) :
  exists w1,
    apply_result v cn w = (Ok (S (S (next_id w))), w1) /\
    heap w1 !! S (S (next_id w))
    = Some (TensorObj (Some (S (next_id w))) (Some (VDict default_q_dict))) /\
    heap w1 !! S (next_id w) = Some (CoreTensor (next_id w)) /\
    heap w1 !! next_id w = Some (RawTensor v cn) /\
    next_id w1 = S (S (S (next_id w))) /\
    (forall x, (x < next_id w)%nat -> heap w1 !! x = heap w !! x).
Proof.
  unfold apply_result, Tensor, __new__, __init__, get_default_device,
    set_q_dict, TensorWrapper_init, set_wrapped.
  repeat run_step.
  eexists. split; [reflexivity|].
  cbn [heap next_id]. repeat split; heap_simpl; try reflexivity.
  intros x Hx. heap_simpl. reflexivity.
Qed.

Lemma get_q_dict_some (w : World) (t : addr) (c : option addr) (q : pyval) :
  heap w !! t = Some (TensorObj c (Some q)) -> get_q_dict t w = (Ok q, w).
Proof. intros Ht. unfold get_q_dict, bind, load, ret. rewrite Ht. reflexivity. Qed.

Lemma backed_below (w : World) (t : addr) (v : ndarray) (cn : CompNode) :
  wf w -> backed w t v cn -> (t < next_id w)%nat.
Proof. intros Hwf (c & r & q & Ht & _). apply Hwf in Ht. exact Ht. Qed.

Lemma backed_frame (w w1 : World) (t : addr) (v : ndarray) (cn : CompNode) :
  wf w -> (forall x, (x < next_id w)%nat -> heap w1 !! x = heap w !! x) ->
  backed w t v cn -> backed w1 t v cn.
Proof.
  intros Hwf Hf (c & r & q & Ht & Hc & Hr).
  exists c, r, q.
  rewrite !Hf by (eapply Hwf; eassumption). auto.
Qed.

(** X16. Every statement that is not invoked on a tensor leaves that tensor
    as it is: after any program whose statements have other receivers, an
    initialised tensor has the value and the device it had, also when the
    statements take it as an argument or act on tensors that share its
    data. *)
Theorem statements_keep_others (w : World) (d : addr) (v : ndarray) (cn : CompNode)
    (prog : list stmt) :
  wf w -> backed w d v cn ->
  (forall s, In s prog -> receiver s <> Some d) ->
  numpy d (exec prog w) = (Ok v, exec prog w)
  /\ device d (exec prog w) = (Ok cn, exec prog w)
  /\ dtype d (exec prog w) = (Ok (nd_dtype v), exec prog w).
Proof.
  intros Hwf Hb Hp.
  destruct (exec_kept d prog w Hp Hwf (backed_below w d v cn Hwf Hb)) as [_ Hk].
  pose proof (backed_kept d w (exec prog w) v cn Hk Hb) as Hb'.
  split; [eapply numpy_backed, Hb'|].
  split; [eapply device_backed, Hb' | eapply dtype_backed, Hb'].
Qed.

(** X17. [detach] does not carry the quantization parameters over: the new
    tensor has the value and the device of the source and the default
    [q_dict], whatever the [q_dict] of the source, which keeps its own. *)
Theorem detach_resets_q_dict (w : World) (t : addr) (a : ndarray) (cn : CompNode)
    (q : pyval) :
  wf w -> backed w t a cn -> get_q_dict t w = (Ok q, w) ->
  exists d w1,
    detach t w = (Ok d, w1) /\
    get_q_dict d w1 = (Ok (VDict default_q_dict), w1) /\
    numpy d w1 = (Ok a, w1) /\
    device d w1 = (Ok cn, w1) /\
    get_q_dict t w1 = (Ok q, w1).
Proof.
  intros Hwf (c & r & q0 & Ht & Hc & Hr) Hq.
  apply get_q_dict_inv in Hq as (_ & c0 & Hq). rewrite Ht in Hq.
  inversion Hq; subst c0 q0. clear Hq.
  destruct (detach_cells w t c r (Some q) Ht Hc) as (w1 & Hd & Hd0 & Hd1 & Hnx & Hf).
  pose proof (Hwf _ _ Ht) as Lt. pose proof (Hwf _ _ Hc) as Lc.
  pose proof (Hwf _ _ Hr) as Lr.
  assert (Hbd : backed w1 (S (next_id w)) a cn).
  { exists (next_id w), r, (Some (VDict default_q_dict)).
    rewrite (Hf r) by lia. auto. }
  exists (S (next_id w)), w1. split; [exact Hd|].
  split; [eapply get_q_dict_some, Hd0|].
  split; [eapply numpy_backed, Hbd|].
  split; [eapply device_backed, Hbd|].
  apply (get_q_dict_some w1 t (Some c)). rewrite Hf by lia. exact Ht.
Qed.

(** X18. [to] copies: it returns a new tensor with the value of the receiver
    on the device that was asked for and with the default [q_dict]; the
    receiver keeps its value and its device; and later statements on other
    objects do not change the copy. *)
Theorem to_copies (w : World) (t : addr) (a : ndarray) (cn : CompNode) (s : string) :
  wf w -> backed w t a cn ->
  exists d w1,
    to t (VStr s) w = (Ok d, w1) /\
    d <> t /\ heap w !! d = None /\
    numpy d w1 = (Ok a, w1) /\
    device d w1 = (Ok (comp_node s), w1) /\
    get_q_dict d w1 = (Ok (VDict default_q_dict), w1) /\
    numpy t w1 = (Ok a, w1) /\
    device t w1 = (Ok cn, w1) /\
    forall prog : list stmt,
      (forall st, In st prog -> receiver st <> Some d) ->
      numpy d (exec prog w1) = (Ok a, exec prog w1).
Proof.
  intros Hwf Hb.
  pose proof (backed_below w t a cn Hwf Hb) as Lt.
  destruct (apply_result_cells a (comp_node s) w)
    as (w1 & Ha & H2 & H1 & H0 & Hnx & Hf).
  assert (Hto : to t (VStr s) w = (Ok (S (S (next_id w))), w1)).
  { unfold to, as_device. unfold bind at 1. unfold ret at 1.
    rewrite (bind_ok _ _ _ _ _ (resident_backed _ _ _ _ Hb)). exact Ha. }
  assert (Hbd : backed w1 (S (S (next_id w))) a (comp_node s)).
  { exists (S (next_id w)), (next_id w), (Some (VDict default_q_dict)). auto. }
  assert (Hbt : backed w1 t a cn) by (eapply backed_frame; eassumption).
  assert (Hwf1 : wf w1).
  { intros x o Hx. rewrite Hnx.
    destruct (decide (x < S (S (S (next_id w))))%nat) as [Hlt|Hge]; [exact Hlt|].
    exfalso.
    assert (Hx' : heap w1 !! x = None); [|congruence].
    revert Ha. unfold apply_result, Tensor, __new__, __init__, get_default_device,
      set_q_dict, TensorWrapper_init, set_wrapped.
    repeat run_step. intros Ha. inversion Ha; subst w1. cbn [heap].
    rewrite !lookup_insert_ne by lia. apply wf_fresh; [exact Hwf | lia]. }
  exists (S (S (next_id w))), w1. split; [exact Hto|].
  split; [lia|]. split; [apply wf_fresh; [exact Hwf | lia]|].
  split; [eapply numpy_backed, Hbd|].
  split; [eapply device_backed, Hbd|].
  split; [eapply get_q_dict_some, H2|].
  split; [eapply numpy_backed, Hbt|].
  split; [eapply device_backed, Hbt|].
  intros prog Hp.
  destruct (exec_kept (S (S (next_id w))) prog w1 Hp Hwf1) as [_ Hk]; [lia|].
  eapply numpy_backed, backed_kept; eassumption.
Qed.
End MoreFacadeFacts.

#[local] Existing Instance host_native.

Lemma backed_sample_world :
  backed sample_world 0 (IntArray [2] [7; 9]%Z) "xpux".
Proof.
  exists 2%nat, 1%nat, (Some (VDict default_q_dict)).
  split; [reflexivity|]. split; reflexivity.
Qed.


(** X15 at the state of the sample tensor, given to a blank instance. *)
Lemma setstate_consumes_state_witness :
  let w := snd (__new__ sample_world) in
  let state := <["note" := VNone]>
                 (pickled (IntArray [2] [7; 9]%Z) "xpux" (VDict default_q_dict)) in
  exists rest w',
    __setstate__ 3 state w = (Ok rest, w') /\
    rest !! "note" = Some VNone /\
    __setstate__ 3 rest w' = (Raise (KeyError "data"), w').
Proof.
  intros w state.
  assert (H : __setstate__ 3 state w
              = (Ok (consumed state), snd (__setstate__ 3 state w))) by reflexivity.
  exists (consumed state), (snd (__setstate__ 3 state w)).
  split; [exact H|].
  destruct (@setstate_consumes_state host_native 3%nat state _ w _ H)
    as (_ & Hk & Hr).
  split; [| apply Hr ].
  rewrite Hk by discriminate. reflexivity.
Defined.

(** X16 at the sample tensor. *)
Lemma statements_keep_others_witness :
  let w := sample_world in
  let prog := [SNew (VRef 0) VNone VNone; SSetDefaultDevice "cpu0";
               SSetValue 3 (VInts [1; 2]%Z); SResetZero 3; SDetach 3] in
  wf w /\ numpy 0 (exec prog w) = (Ok (IntArray [2] [7; 9]%Z), exec prog w).
Proof.
  intros w prog.
  refine (conj wf_sample_world _).
  refine (proj1 (@statements_keep_others host_native w 0%nat _ "xpux" prog
                   wf_sample_world backed_sample_world _)).
  intros s [<-|[<-|[<-|[<-|[<-|[]]]]]]; cbn [receiver]; congruence.
Defined.

(** X17 at the sample tensor. *)
Lemma detach_resets_q_dict_witness :
  let w := sample_world in
  wf w /\ get_q_dict 0 w = (Ok (VDict default_q_dict), w) /\
  exists d w1,
    detach 0 w = (Ok d, w1) /\
    get_q_dict d w1 = (Ok (VDict default_q_dict), w1).
Proof.
  intros w.
  assert (Hq : get_q_dict 0 w = (Ok (VDict default_q_dict), w)) by reflexivity.
  refine (conj wf_sample_world (conj Hq _)).
  destruct (@detach_resets_q_dict host_native w 0%nat _ "xpux" _
              wf_sample_world backed_sample_world Hq)
    as (d & w1 & Hd & Hqd & _).
  exists d, w1. exact (conj Hd Hqd).
Defined.

(** X18 at the sample tensor. *)
Lemma to_copies_witness :
  let w := sample_world in
  wf w /\
  exists d w1,
    to 0 (VStr "gpu0") w = (Ok d, w1) /\
    numpy d w1 = (Ok (IntArray [2] [7; 9]%Z), w1) /\
    device d w1 = (Ok "gpu0", w1) /\
    device 0 w1 = (Ok "xpux", w1).
Proof.
  intros w.
  refine (conj wf_sample_world _).
  destruct (@to_copies host_native w 0%nat _ "xpux" "gpu0"
              wf_sample_world backed_sample_world)
    as (d & w1 & Hd & _ & _ & Hn & Hdev & _ & _ & Hdt & _).
  exists d, w1. exact (conj Hd (conj Hn (conj Hdev Hdt))).
Defined.
End facade_facts.

(** * Facts about the test harness *)

Module harness_facts.
Import test_tensor.
Local Open Scope list_scope.

Section HarnessFacts.
Variables V T R : Type.
Variable tensor : V -> T.
Variable compare_fn : R -> V -> bool.

Lemma compare_all_done (l : list (R * V)) :
  compare_all V R compare_fn l = Done tt
  <-> forall r e, In (r, e) l -> compare_fn r e = true.
Proof.
  induction l as [|[r e] l IH]; cbn [compare_all].
  - split; [intros _ r e [] | reflexivity].
  - destruct (compare_fn r e) eqn:Hc.
    + rewrite IH. split.
      * intros H r' e' [E|Hin]; [inversion E; subst; exact Hc | apply H, Hin].
      * intros H r' e' Hin. apply H. right. exact Hin.
    + split; [discriminate|]. intros H.
      rewrite (H r e) in Hc by (left; reflexivity). discriminate.
Qed.

Lemma in_combine_nth (rs : list R) (es : list V) (r : R) (e : V) :
  In (r, e) (combine rs es)
  <-> exists k, nth_error rs k = Some r /\ nth_error es k = Some e.
Proof.
  revert es. induction rs as [|r0 rs IH]; intros [|e0 es]; cbn [combine].
  - split; [intros [] | intros ([|k] & H & _); discriminate].
  - split; [intros [] | intros ([|k] & H & _); discriminate].
  - split; [intros [] | intros ([|k] & _ & H); discriminate].
  - split.
    + intros [E|Hin].
      * inversion E; subst. exists 0%nat. split; reflexivity.
      * apply IH in Hin as (k & H1 & H2). exists (S k). split; assumption.
    + intros ([|k] & H1 & H2); cbn [nth_error] in H1, H2.
      * left. congruence.
      * right. apply IH. exists k. split; assumption.
Qed.

Lemma check_results_done (results : boxed R) (expected : list V) :
  check_results V R compare_fn results expected = Done tt
  <-> forall k r e, nth_error (to_tuple results) k = Some r ->
                    nth_error expected k = Some e -> compare_fn r e = true.
Proof.
  unfold check_results. rewrite compare_all_done. split.
  - intros H k r e H1 H2. apply H, in_combine_nth. exists k. split; assumption.
  - intros H r e Hin. apply in_combine_nth in Hin as (k & H1 & H2).
    exact (H k r e H1 H2).
Qed.

Lemma combine_firstn_both (rs : list R) (es : list V) :
  combine (firstn (length es) rs) (firstn (length rs) es) = combine rs es.
Proof.
  revert es. induction rs as [|r rs IH]; intros [|e es]; cbn; try reflexivity.
  rewrite IH. reflexivity.
Qed.

(** X19. [opr_test] passes exactly when there is a first case with an
    input, [func] is callable, the expected values (what [ref_fn] returns
    for the inputs when it is given, the output of the case otherwise) are
    not [None], [func] returns on the tensors of the inputs, and
    [compare_fn] returns for every pair of a result and the expected value
    at the same position. *)
Theorem opr_test_passes_iff
    (func : option (list T -> option (boxed R)))
    (ref_fn : option (list V -> option (boxed V))) (cases : list (case V)) :
  opr_test V T R tensor compare_fn func ref_fn cases = Done tt
  <-> exists c rest f inp outp results,
        cases = c :: rest /\ func = Some f /\ c_input c = Some inp /\
        match ref_fn with
        | Some g => g (to_tuple inp)
        | None => c_output c
        end = Some outp /\
        f (map tensor (to_tuple inp)) = Some results /\
        forall k r e, nth_error (to_tuple results) k = Some r ->
                      nth_error (to_tuple outp) k = Some e ->
                      compare_fn r e = true.
Proof.
  unfold opr_test, get_param. split.
  - destruct cases as [|c rest]; [discriminate|]. cbn [length Nat.eqb nth_error].
    destruct func as [f|]; [|discriminate].
    destruct (c_input c) as [inp|] eqn:Hi; [|discriminate].
    destruct (match ref_fn with Some g => g (to_tuple inp) | None => c_output c end)
      as [outp|] eqn:Ho; [|discriminate].
    cbn [vbind fst snd].
    destruct (f (map tensor (to_tuple inp))) as [results|] eqn:Hf; [|discriminate].
    intros H. pose proof (proj1 (check_results_done _ _) H) as H'.
    exists c, rest, f, inp, outp, results. auto 10.
  - intros (c & rest & f & inp & outp & results & -> & -> & Hi & Ho & Hf & H).
    cbn [length Nat.eqb nth_error]. rewrite Hi, Ho. cbn [vbind fst snd].
    rewrite Hf. apply check_results_done. exact H.
Qed.

(** X20. What [opr_test] never looks at: the cases after the first one; the
    output of the case when a reference function is given; and the results
    or expected values beyond the shorter of the two tuples, so that an
    empty tuple of expected values passes whatever [func] returns. *)
Theorem opr_test_never_reads :
  (forall func ref_fn (c : case V) (rest : list (case V)),
      opr_test V T R tensor compare_fn func ref_fn (c :: rest) = opr_test V T R tensor compare_fn func ref_fn [c])
  /\ (forall func g (inp : option (boxed V)) (o o' : option (boxed V)) rest,
         opr_test V T R tensor compare_fn func (Some g) (mkCase inp o :: rest)
         = opr_test V T R tensor compare_fn func (Some g) (mkCase inp o' :: rest))
  /\ (forall (rs : list R) (es : list V),
         check_results V R compare_fn (Many rs) es
         = check_results V R compare_fn (Many (firstn (length es) rs)) (firstn (length rs) es))
  /\ (forall results : boxed R, check_results V R compare_fn results [] = Done tt).
Proof.
  split; [| split; [| split]].
  - reflexivity.
  - reflexivity.
  - intros rs es. unfold check_results. cbn [to_tuple].
    rewrite combine_firstn_both. reflexivity.
  - intros results. unfold check_results.
    destruct (to_tuple results); reflexivity.
Qed.

(** X21. The refusals of [opr_test], in their order: an empty list of cases
    is refused also when [func] is not callable; a [func] that is not
    callable is refused before the case is read; a case without input is
    refused before the reference function is called; and expected values
    are missing when the reference function returns [None], also for a
    case that has an output, or when there is neither a reference function
    nor an output. *)
Theorem opr_test_refusals :
  (forall func ref_fn,
      opr_test V T R tensor compare_fn func ref_fn [] = Fail (ValueError "should give one case at least"))
  /\ (forall ref_fn c rest,
         opr_test V T R tensor compare_fn None ref_fn (c :: rest)
         = Fail (ValueError "the input func should be callable"))
  /\ (forall f ref_fn c rest,
         c_input c = None ->
         opr_test V T R tensor compare_fn (Some f) ref_fn (c :: rest)
         = Fail (ValueError "the test case should have input"))
  /\ (forall f g c rest inp,
         c_input c = Some inp -> g (to_tuple inp) = None ->
         opr_test V T R tensor compare_fn (Some f) (Some g) (c :: rest)
         = Fail (ValueError "the test case should have output or reference function"))
  /\ (forall f c rest inp,
         c_input c = Some inp -> c_output c = None ->
         opr_test V T R tensor compare_fn (Some f) None (c :: rest)
         = Fail (ValueError "the test case should have output or reference function")).
Proof.
  unfold opr_test, get_param. repeat split.
  - intros f ref_fn c rest H. cbn [length Nat.eqb nth_error]. rewrite H. reflexivity.
  - intros f g c rest inp Hi Hg. cbn [length Nat.eqb nth_error].
    rewrite Hi, Hg. reflexivity.
  - intros f c rest inp Hi Ho. cbn [length Nat.eqb nth_error].
    rewrite Hi, Ho. reflexivity.
Qed.
End HarnessFacts.

(** X19 at the first example of the docstring, on numbers: two inputs, a
    reference function and a function under test that agree. *)
Lemma opr_test_passes_iff_witness :
  let cases := [mkCase (Some (Many [10; 20]%Z)) None;
                mkCase (Some (Many [20; 30]%Z)) None] in
  let f := fun l : list Z => Some (One (fold_right Z.add 0%Z l)) in
  let g := fun l : list Z => Some (One (fold_right Z.add 0%Z l)) in
  opr_test Z Z Z (fun z => z) Z.eqb (Some f) (Some g) cases = Done tt
  /\ exists c rest, cases = c :: rest /\ c_input c = Some (Many [10; 20]%Z).
Proof.
  intros cases f g.
  assert (H : opr_test Z Z Z (fun z => z) Z.eqb (Some f) (Some g) cases = Done tt)
    by reflexivity.
  refine (conj H _).
  destruct (proj1 (opr_test_passes_iff Z Z Z (fun z => z) Z.eqb (Some f) (Some g) cases) H)
    as (c & rest & f' & inp & outp & results & Hc & _ & Hi & _).
  exists c, rest. split; [exact Hc|].
  inversion Hc; subst c. exact eq_refl.
Defined.

(** X21 at a case whose output is overridden by a reference function that
    returns [None]. *)
Lemma opr_test_refusals_witness :
  let c := mkCase (Some (One 1%Z)) (Some (One 1%Z)) in
  let g := fun _ : list Z => @None (boxed Z) in
  c_input c = Some (One 1%Z) /\ g (to_tuple (One 1%Z)) = None /\
  opr_test Z Z Z (fun z => z) Z.eqb (Some (fun l => Some (Many l))) (Some g) [c]
  = Fail (ValueError "the test case should have output or reference function").
Proof.
  intros c g.
  assert (Hi : c_input c = Some (One 1%Z)) by reflexivity.
  assert (Hg : g (to_tuple (One 1%Z)) = None) by reflexivity.
  refine (conj Hi (conj Hg _)).
  exact (proj1 (proj2 (proj2 (proj2 (opr_test_refusals Z Z Z (fun z => z) Z.eqb))))
           (fun l => Some (Many l)) g c [] (One 1%Z) Hi Hg).
Defined.
End harness_facts.
